(** * check-cx: probes, history store, snapshot service and status parsing

    A shallow embedding of the TypeScript sources of check-cx and the
    properties of its specification that are settled on them.

    Conventions of the embedding.
    - A JavaScript string is a [string] holding its UTF-8 bytes.
    - A JavaScript integer number is a [Z]; [T | null] is [option T].
    - [Date.now()] readings, awaited transport operations and the contents
      of module-level caches are inputs of the functions that read them.
    - An [await] is a value of type [Pending]: when the operation would
      settle (milliseconds after the probe started) and how. *)

From Stdlib Require Import ZArith List String Ascii Bool Lia DecimalString.
From Stdlib Require Import Sorting.Sorted Sorting.Permutation.
Import ListNotations.

Open Scope string_scope.
Open Scope Z_scope.

(* ===================================================================== *)
(** ** The JavaScript operations the sources rely on *)
(* ===================================================================== *)

Module Js.

(** [a || b] on strings: the empty string is falsy. *)
Definition orString (a b : string) : string :=
  if String.eqb a "" then b else a.

(** [a || b] where [a] is [string | null | undefined]. *)
Definition orElse (a : option string) (b : string) : string :=
  match a with
  | Some s => orString s b
  | None => b
  end.

(** Template-literal rendering of an integer number. *)
Definition numberToString (n : Z) : string :=
  NilZero.string_of_int (Z.to_int n).

Definition byte (n : N) : ascii := ascii_of_N n.
Definition code (c : ascii) : N := N_of_ascii c.

(** [String.prototype.toLowerCase] on the ASCII range.  Every comparison
    made by the sources after lower-casing is against a word without
    [i] or [k] in a containment test, or against a whole ASCII word, so
    the two non-ASCII letters whose lower case has an ASCII letter
    (U+0130, U+212A) cannot change an outcome. *)
Definition lowerAscii (c : ascii) : ascii :=
  let n := code c in
  if ((65 <=? n) && (n <=? 90))%N then byte (n + 32) else c.

Fixpoint toLowerCase (s : string) : string :=
  match s with
  | EmptyString => EmptyString
  | String c s' => String (lowerAscii c) (toLowerCase s')
  end.

(** [String.prototype.includes]. *)
Fixpoint includes (s needle : string) : bool :=
  String.prefix needle s
  || match s with
     | EmptyString => false
     | String _ s' => includes s' needle
     end.

(** [/needle/i.test(s)] for a lower-case ASCII literal [needle]: without
    the [u] flag a non-ASCII character never folds onto an ASCII one. *)
Definition testLiteralI (needle s : string) : bool :=
  includes (toLowerCase s) needle.

(** Word characters of [\b]: [A-Za-z0-9_]. *)
Definition isWordChar (c : ascii) : bool :=
  let n := code c in
  (((48 <=? n) && (n <=? 57)) || ((65 <=? n) && (n <=? 90))
   || ((97 <=? n) && (n <=? 122)) || (n =? 95))%N.

(** White space and line terminators removed by [String.prototype.trim]:
    one-byte, two-byte and three-byte UTF-8 encodings. *)
Definition ws1 (a : ascii) : bool :=
  let n := code a in (((9 <=? n) && (n <=? 13)) || (n =? 32))%N.

(** U+00A0. *)
Definition ws2 (a b : ascii) : bool :=
  ((code a =? 194) && (code b =? 160))%N.

(** U+1680, U+2000..U+200A, U+2028, U+2029, U+202F, U+205F, U+3000,
    U+FEFF. *)
Definition ws3 (a b c : ascii) : bool :=
  let x := code a in let y := code b in let z := code c in
  (((x =? 225) && (y =? 154) && (z =? 128))
   || ((x =? 226) && (y =? 128)
       && (((128 <=? z) && (z <=? 138)) || (z =? 168) || (z =? 169)
           || (z =? 175)))
   || ((x =? 226) && (y =? 129) && (z =? 159))
   || ((x =? 227) && (y =? 128) && (z =? 128))
   || ((x =? 239) && (y =? 187) && (z =? 191)))%N.

(** Strips leading white space; [w2] and [w3] receive the bytes in the
    order in which they are met. *)
Fixpoint stripLeading (w2 : ascii -> ascii -> bool)
    (w3 : ascii -> ascii -> ascii -> bool) (s : string) : string :=
  match s with
  | EmptyString => s
  | String a s1 =>
      if ws1 a then stripLeading w2 w3 s1
      else
        match s1 with
        | EmptyString => s
        | String b s2 =>
            if w2 a b then stripLeading w2 w3 s2
            else
              match s2 with
              | EmptyString => s
              | String c s3 =>
                  if w3 a b c then stripLeading w2 w3 s3 else s
              end
        end
  end.

Fixpoint revOnto (s acc : string) : string :=
  match s with
  | EmptyString => acc
  | String c s' => revOnto s' (String c acc)
  end.

Definition reverse (s : string) : string := revOnto s "".

Definition trimStart (s : string) : string := stripLeading ws2 ws3 s.

(** Trailing white space is leading white space of the reversed string,
    its multi-byte encodings read backwards. *)
Definition trimEnd (s : string) : string :=
  reverse (stripLeading (fun a b => ws2 b a) (fun a b c => ws3 c b a)
             (reverse s)).

(** [String.prototype.trim]. *)
Definition trim (s : string) : string := trimEnd (trimStart s).

(** [Array.prototype.join]. *)
Fixpoint join (sep : string) (l : list string) : string :=
  match l with
  | [] => ""
  | [x] => x
  | x :: l' => x ++ sep ++ join sep l'
  end.

(** [Array.prototype.sort(cmp)]: the sort is stable, an element stays in
    front of a later one unless the comparator is positive on them.  For
    a consistent comparator, one that orders the elements by a key, the
    result is the one the platform gives, whatever its algorithm.  For
    an inconsistent one (a [NaN] of an unparseable date read as [+0]
    beside parseable dates) the platform's order is its own: there this
    definition is used only as some permutation of the array. *)
Section Sort.
Context {A : Type} (cmp : A -> A -> Z).

Fixpoint insertSorted (x : A) (l : list A) : list A :=
  match l with
  | [] => [x]
  | y :: l' => if cmp x y <=? 0 then x :: l else y :: insertSorted x l'
  end.

Fixpoint sort (l : list A) : list A :=
  match l with
  | [] => []
  | x :: l' => insertSorted x (sort l')
  end.
End Sort.

(** [Array.prototype.slice(0, n)]. *)
Definition slice0 {A : Type} (n : nat) (l : list A) : list A := firstn n l.

(** A thrown value, read through [err?.name] and [err?.message]; a
    missing property is the empty string, which every use in the sources
    treats like [undefined].  [isUserAbort] is
    [err instanceof APIUserAbortError] for the vendor SDK in use. *)
Record Error := mkError {
  name : string;
  message : string;
  isUserAbort : bool
}.

(** [new Error(message)]. *)
Definition newError (msg : string) : Error := mkError "Error" msg false.

(** An awaited operation: [settlesAt] is the time, in milliseconds after
    the probe started, at which it would settle ([None]: never), and
    [settled] is how: rejected with an error or fulfilled with a value. *)
Record Pending (A : Type) := mkPending {
  settlesAt : option Z;
  settled : Error + A
}.
Arguments mkPending {A} _ _.
Arguments settlesAt {A} _.
Arguments settled {A} _.

(** Awaiting under an [AbortController] armed with
    [setTimeout(() => controller.abort(), timeout)]: an operation that
    settles before the timer fires settles as it would; otherwise the
    transport rejects with [abortError] when the timer fires.  The second
    component is the clock, relative to the start, when the caller
    resumes. *)
Definition awaitWithin {A : Type} (timeout : Z) (abortError : Error)
    (p : Pending A) : (Error + A) * Z :=
  match settlesAt p with
  | Some t => if t <? timeout then (settled p, t) else (inl abortError, timeout)
  | None => (inl abortError, timeout)
  end.

(** Reading a stream of a vendor SDK under the same controller.  The
    iterator of an SDK stream ends the stream without throwing when the
    controller aborts: a read that has not settled when the timer fires
    is fulfilled then with [ended], and the caller resumes on its
    success path. *)
Definition readWithin {A : Type} (timeout : Z) (ended : A)
    (p : Pending A) : (Error + A) * Z :=
  match settlesAt p with
  | Some t => if t <? timeout then (settled p, t) else (inr ended, timeout)
  | None => (inr ended, timeout)
  end.

(** The [DOMException] with which [fetch] rejects when its signal
    aborts. *)
Definition fetchAbortError : Error :=
  mkError "AbortError" "This operation was aborted" false.

End Js.

(* ===================================================================== *)
(** ** Data model (lib/types) *)
(* ===================================================================== *)

Inductive ProviderType := openai | gemini | anthropic.

Inductive HealthStatus := operational | degraded | failed | maintenance.

Inductive OfficialHealthStatus :=
  official_operational | official_degraded | official_down | official_unknown.

Record OfficialStatusResult := mkOfficialStatusResult {
  official_status : OfficialHealthStatus;
  official_message : string;
  official_checkedAt : string;
  affectedComponents : option (list string)
}.

(** A row of [check_configs] as [loadProviderConfigsFromDB] returns it. *)
Record ProviderConfig := mkProviderConfig {
  cfg_id : string;
  cfg_name : string;
  cfg_type : ProviderType;
  cfg_endpoint : option string;
  cfg_model : string;
  cfg_apiKey : string;
  is_maintenance : bool;
  requestHeaders : option (list (string * string));
  metadata : option (list (string * string));
  cfg_groupName : option string
}.

(** One probe outcome, also the history record.  [groupName] is absent
    ([None]) on a probe result, [Some None] when it is [null]. *)
Record CheckResult := mkCheckResult {
  id : string;
  name : string;
  type : ProviderType;
  endpoint : option string;
  model : string;
  status : HealthStatus;
  latencyMs : option Z;
  pingLatencyMs : option Z;
  checkedAt : string;
  message : string;
  groupName : option (option string);
  officialStatus : option OfficialStatusResult
}.

Definition HistorySnapshot := list (string * list CheckResult).

Record ProviderTimeline := mkProviderTimeline {
  tl_id : string;
  items : list CheckResult;
  latest : CheckResult
}.

Inductive RefreshMode := always | missing | never.

(** Modelled from the spec: the table [DEFAULT_ENDPOINTS] of lib/types,
    which is not among the sources; the spec lists the default endpoint of
    each provider type. *)
Definition DEFAULT_ENDPOINTS (t : ProviderType) : string :=
  match t with
  | openai => "https://api.openai.com/v1/chat/completions"
  | gemini => "https://generativelanguage.googleapis.com/v1beta"
  | anthropic => "https://api.anthropic.com/v1/messages"
  end.

Definition UNGROUPED_KEY : string := "__ungrouped__".
Definition UNGROUPED_DISPLAY_NAME : string := "未分组".

(* ===================================================================== *)
(** ** lib/providers/stream-check.ts *)
(* ===================================================================== *)

Module StreamCheck.

Definition DEFAULT_TIMEOUT_MS : Z := 45000.
Definition DEGRADED_THRESHOLD_MS : Z := 6000.

(** The fields of [StreamCheckParams] that reach the result.  The request
    itself ([init], [headers]) goes to the transport, whose behaviour is
    an input of the run. *)
Record StreamCheckParams := mkParams {
  url : string;
  displayEndpoint : option string
}.

(** What [fetch] resolves with: [text] is [response.text()], [body] is
    [None] when [response.body] is null and otherwise the outcome of
    [params.parseStream(reader)]. *)
Record Response := mkResponse {
  ok : bool;
  http_status : Z;
  text : Js.Pending string;
  body : option (Js.Pending string)
}.

(** The environment of one run: the transport, the concurrent endpoint
    ping and the clock read for [checkedAt]. *)
Record Run := mkRun {
  fetched : Js.Pending Response;
  ping : option Z;
  nowISO : string
}.

Section RunStreamCheck.
(** [extractMessage] of lib/utils is not among the sources. *)
Variable extractMessage : string -> option string.

Definition runStreamCheck (config : ProviderConfig)
    (params : StreamCheckParams) (env : Run) : CheckResult :=
  let result (st : HealthStatus) (latency : option Z) (msg : string) :=
    {| id := cfg_id config;
       name := cfg_name config;
       type := cfg_type config;
       endpoint := Some (Js.orElse (displayEndpoint params) (url params));
       model := cfg_model config;
       status := st;
       latencyMs := latency;
       pingLatencyMs := ping env;
       checkedAt := nowISO env;
       message := msg;
       groupName := None;
       officialStatus := None |} in
  let caught (err : Js.Error) :=
    let isAbortError :=
      String.eqb (Js.name err) "AbortError"
      || Js.testLiteralI "request was aborted" (Js.message err) in
    let message :=
      if isAbortError then "请求超时"
      else Js.orString (Js.message err) "未知错误" in
    result failed None message in
  let await {A} (p : Js.Pending A) :=
    Js.awaitWithin DEFAULT_TIMEOUT_MS Js.fetchAbortError p in
  match await (fetched env) with
  | (inl err, _) => caught err
  | (inr response, respondedAt) =>
      if negb (ok response) then
        let latencyMs := respondedAt in
        match await (text response) with
        | (inl err, _) => caught err
        | (inr errorBody, _) =>
            let message :=
              Js.orElse (extractMessage errorBody)
                ("HTTP " ++ Js.numberToString (http_status response)) in
            result failed (Some latencyMs) message
        end
      else
        match body response with
        | None => caught (Js.newError "响应体为空")
        | Some parsing =>
            match await parsing with
            | (inl err, _) => caught err
            | (inr _, finishedAt) =>
                let latencyMs := finishedAt in
                let status :=
                  if latencyMs <=? DEGRADED_THRESHOLD_MS
                  then operational else degraded in
                let message :=
                  match status with
                  | degraded =>
                      "响应成功但耗时 " ++ Js.numberToString latencyMs ++ "ms"
                  | _ =>
                      "流式响应正常 (" ++ Js.numberToString latencyMs ++ "ms)"
                  end in
                result status (Some latencyMs) message
            end
        end
  end.
End RunStreamCheck.

End StreamCheck.

(* ===================================================================== *)
(** ** The OpenAI probe (src/unnamed/part_005, second file) *)
(* ===================================================================== *)

Module OpenAI.

Definition DEFAULT_TIMEOUT_MS : Z := 15000.
Definition DEGRADED_THRESHOLD_MS : Z := 6000.

Inductive ReasoningEffortValue := minimal | low | medium | high.

Definition EFFORT_ALIAS_MAP : list (string * ReasoningEffortValue) :=
  [ ("mini", minimal); ("minimal", minimal); ("low", low);
    ("medium", medium); ("high", high) ].

(** [EFFORT_ALIAS_MAP[key]]. *)
Fixpoint lookupAlias (m : list (string * ReasoningEffortValue))
    (key : string) : option ReasoningEffortValue :=
  match m with
  | [] => None
  | (k, v) :: m' => if String.eqb k key then Some v else lookupAlias m' key
  end.

(** [/\bPAT/i] at the head of [s], for a lower-case literal [PAT] that
    begins with a word character: [prevWord] tells whether the character
    in front of [s] is a word character. *)
Definition boundaryLiteralHere (pat : string) (prevWord : bool)
    (s : string) : bool :=
  negb prevWord && String.prefix pat (Js.toLowerCase s).

Fixpoint scanBoundary (here : bool -> string -> bool) (prevWord : bool)
    (s : string) : bool :=
  here prevWord s
  || match s with
     | EmptyString => false
     | String c s' => scanBoundary here (Js.isWordChar c) s'
     end.

(** [/\bgpt-5/i.test(s)]. *)
Definition testGpt5 (s : string) : bool :=
  scanBoundary (boundaryLiteralHere "gpt-5") false s.

(** [/\bo[1-9]/i] at the head of [s]. *)
Definition oDigitHere (prevWord : bool) (s : string) : bool :=
  match s with
  | String c (String d _) =>
      negb prevWord
      && Ascii.eqb (Js.lowerAscii c) "o"%char
      && ((49 <=? Js.code d) && (Js.code d <=? 57))%N
  | _ => false
  end.

(** [/\bo[1-9]/i.test(s)]. *)
Definition testODigit (s : string) : bool := scanBoundary oDigitHere false s.

Definition REASONING_MODEL_HINTS : list (string -> bool) :=
  [ Js.testLiteralI "codex";
    testGpt5;
    testODigit;
    Js.testLiteralI "deepseek-r1";
    Js.testLiteralI "qwq" ].

(** [(mini|minimal|low|medium|high)$] with the [i] flag, at the head of
    [s]: the rest of the input is one of the words. *)
Definition effortWordToEnd (s : string) : bool :=
  let w := Js.toLowerCase s in
  String.eqb w "mini" || String.eqb w "minimal" || String.eqb w "low"
  || String.eqb w "medium" || String.eqb w "high".

(** What [.] refuses: a line terminator at the head of [s]
    (U+000A, U+000D, U+2028, U+2029). *)
Definition lineTerminatorHere (s : string) : bool :=
  match s with
  | String a rest =>
      ((Js.code a =? 10) || (Js.code a =? 13))%N
      || match rest with
         | String b (String c _) =>
             ((Js.code a =? 226) && (Js.code b =? 128)
              && ((Js.code c =? 168) || (Js.code c =? 169)))%N
         | _ => false
         end
  | EmptyString => false
  end.

(** [/^(.*?)[@#](mini|minimal|low|medium|high)$/i] as the backtracking
    matcher runs it: the lazy group takes the shortest prefix after
    which the separator and an effort word reach the end of the input.
    [taken] is the prefix consumed so far, reversed.  The result is the
    pair of captures [(base, effortRaw)]. *)
Fixpoint matchDirectiveFrom (taken : string) (s : string)
    : option (string * string) :=
  match s with
  | EmptyString => None
  | String c rest =>
      if (Ascii.eqb c "@"%char || Ascii.eqb c "#"%char)
         && effortWordToEnd rest
      then Some (Js.reverse taken, rest)
      else if lineTerminatorHere s then None
      else matchDirectiveFrom (String c taken) rest
  end.

Definition matchDirective (s : string) : option (string * string) :=
  matchDirectiveFrom "" s.

Record ModelPreferences := mkPrefs {
  requestModel : string;
  reasoningEffort : option ReasoningEffortValue
}.

Definition resolveModelPreferences (model : string) : ModelPreferences :=
  let trimmed := Js.trim model in
  if String.eqb trimmed "" then mkPrefs model None
  else
    match matchDirective trimmed with
    | Some (base, effortRaw) =>
        let normalizedBase := Js.orString (Js.trim base) trimmed in
        let normalizedEffort :=
          lookupAlias EFFORT_ALIAS_MAP (Js.toLowerCase effortRaw) in
        mkPrefs normalizedBase normalizedEffort
    | None =>
        if existsb (fun regex => regex trimmed) REASONING_MODEL_HINTS
        then mkPrefs trimmed (Some medium)
        else mkPrefs trimmed None
    end.

(** The fields of the chat-completions request that depend on the
    config: [model] and the optional [reasoning_effort]. *)
Record RequestPayload := mkPayload {
  payload_model : string;
  max_tokens : Z;
  temperature : Z;
  stream : bool;
  reasoning_effort : option ReasoningEffortValue
}.

Definition requestPayload (config : ProviderConfig) : RequestPayload :=
  let prefs := resolveModelPreferences (cfg_model config) in
  {| payload_model := requestModel prefs;
     max_tokens := 1;
     temperature := 0;
     stream := true;
     reasoning_effort := reasoningEffort prefs |}.

(** The environment of one run.  [created] is [getOpenAIClient(config)]
    followed by [client.chat.completions.create(...)], [consumed] the
    [for await] loop over the stream, [abortError] what the SDK throws
    when its signal aborts while the request is pending.  Once the
    stream is open an abort ends the loop without an error. *)
Record Run := mkRun {
  created : Js.Pending unit;
  consumed : Js.Pending unit;
  abortError : Js.Error;
  ping : option Z;
  nowISO : string
}.

Definition checkOpenAI (config : ProviderConfig) (env : Run)
    : CheckResult :=
  let displayEndpoint :=
    Js.orElse (cfg_endpoint config) (DEFAULT_ENDPOINTS openai) in
  let result (st : HealthStatus) (latency : option Z) (msg : string) :=
    {| id := cfg_id config;
       name := cfg_name config;
       type := cfg_type config;
       endpoint := Some displayEndpoint;
       model := cfg_model config;
       status := st;
       latencyMs := latency;
       pingLatencyMs := ping env;
       checkedAt := nowISO env;
       message := msg;
       groupName := None;
       officialStatus := None |} in
  let caught (err : Js.Error) :=
    let message :=
      if String.eqb (Js.name err) "AbortError" then "请求超时"
      else Js.orString (Js.message err) "未知错误" in
    result failed None message in
  let await {A} (p : Js.Pending A) :=
    Js.awaitWithin DEFAULT_TIMEOUT_MS (abortError env) p in
  match await (created env) with
  | (inl err, _) => caught err
  | (inr _, _) =>
      match Js.readWithin DEFAULT_TIMEOUT_MS tt (consumed env) with
      | (inl err, _) => caught err
      | (inr _, finishedAt) =>
          let latencyMs := finishedAt in
          let status :=
            if latencyMs <=? DEGRADED_THRESHOLD_MS
            then operational else degraded in
          let message :=
            match status with
            | degraded =>
                "响应成功但耗时 " ++ Js.numberToString latencyMs ++ "ms"
            | _ =>
                "流式响应正常 (" ++ Js.numberToString latencyMs ++ "ms)"
            end in
          result status (Some latencyMs) message
      end
  end.

End OpenAI.

(* ===================================================================== *)
(** ** lib/providers/anthropic.ts *)
(* ===================================================================== *)

Module Anthropic.

Definition DEFAULT_TIMEOUT_MS : Z := 45000.
Definition DEGRADED_THRESHOLD_MS : Z := 6000.

(** [REQUEST_ABORTED_MESSAGE.test]. *)
Definition REQUEST_ABORTED_MESSAGE (s : string) : bool :=
  Js.testLiteralI "request was aborted" s.

Definition isAbortLikeError (error : Js.Error) : bool :=
  if String.eqb (Js.name error) "AbortError" then true
  else if Js.isUserAbort error then true
  else REQUEST_ABORTED_MESSAGE (Js.message error).

Definition getAnthropicErrorMessage (error : Js.Error) : string :=
  if isAbortLikeError error then "请求超时"
  else Js.orString (Js.message error) "未知错误".

(** The environment of one run.  [created] is
    [getAnthropicClient(config)] followed by
    [client.messages.create(...)], [first] is [iterator.next()] and
    carries its [done] flag, [returned] is [iterator.return()] when the
    iterator has that method, [abortError] what the SDK throws when its
    signal aborts while the request is pending.  Once the stream is open
    an abort ends it: [iterator.next()] answers [done]. *)
Record Run := mkRun {
  created : Js.Pending unit;
  first : Js.Pending bool;
  returned : option (Js.Pending unit);
  abortError : Js.Error;
  ping : option Z;
  nowISO : string
}.

Section CheckAnthropic.
(** The two versions of the probe differ in the deadline and in how a
    caught error becomes a message. *)
Variable timeout : Z.
Variable errorMessage : Js.Error -> string.

Definition check (config : ProviderConfig) (env : Run) : CheckResult :=
  let displayEndpoint :=
    Js.orElse (cfg_endpoint config) (DEFAULT_ENDPOINTS anthropic) in
  let result (st : HealthStatus) (latency : option Z) (msg : string) :=
    {| id := cfg_id config;
       name := cfg_name config;
       type := cfg_type config;
       endpoint := Some displayEndpoint;
       model := cfg_model config;
       status := st;
       latencyMs := latency;
       pingLatencyMs := ping env;
       checkedAt := nowISO env;
       message := msg;
       groupName := None;
       officialStatus := None |} in
  let caught (err : Js.Error) := result failed None (errorMessage err) in
  let await {A} (p : Js.Pending A) :=
    Js.awaitWithin timeout (abortError env) p in
  let finish (finishedAt : Z) :=
    let latencyMs := finishedAt in
    let status :=
      if latencyMs <=? DEGRADED_THRESHOLD_MS
      then operational else degraded in
    let message :=
      match status with
      | degraded =>
          "响应成功但耗时 " ++ Js.numberToString latencyMs ++ "ms"
      | _ =>
          "流式响应正常 (" ++ Js.numberToString latencyMs ++ "ms)"
      end in
    result status (Some latencyMs) message in
  match await (created env) with
  | (inl err, _) => caught err
  | (inr _, _) =>
      match Js.readWithin timeout true (first env) with
      | (inl err, _) => caught err
      | (inr done, firstAt) =>
          if negb done then
            match returned env with
            | Some closing =>
                match Js.readWithin timeout tt closing with
                | (inl err, _) => caught err
                | (inr _, closedAt) => finish closedAt
                end
            | None => finish firstAt
            end
          else finish firstAt
      end
  end.
End CheckAnthropic.

Definition checkAnthropic : ProviderConfig -> Run -> CheckResult :=
  check DEFAULT_TIMEOUT_MS getAnthropicErrorMessage.

End Anthropic.

(* ===================================================================== *)
(** ** The earlier Anthropic probe (src/unnamed/part_004) *)
(* ===================================================================== *)

Module AnthropicEarlier.

Definition DEFAULT_TIMEOUT_MS : Z := 15000.
Definition DEGRADED_THRESHOLD_MS : Z := 6000.

Definition errorMessage (err : Js.Error) : string :=
  if String.eqb (Js.name err) "AbortError" then "请求超时"
  else Js.orString (Js.message err) "未知错误".

Definition checkAnthropic : ProviderConfig -> Anthropic.Run -> CheckResult :=
  Anthropic.check DEFAULT_TIMEOUT_MS errorMessage.

End AnthropicEarlier.

(* ===================================================================== *)
(** ** lib/database/history.ts *)
(* ===================================================================== *)

Module History.

Definition MAX_POINTS_PER_PROVIDER : nat := 60.

Definition RPC_RECENT_HISTORY : string := "get_recent_check_history".
Definition RPC_PRUNE_HISTORY : string := "prune_check_history".

(** A row of the [get_recent_check_history] procedure.  [status] and
    [type] are the values the unchecked casts of the source read them
    as. *)
Record RpcHistoryRow := mkRow {
  config_id : string;
  row_status : HealthStatus;
  latency_ms : option Z;
  ping_latency_ms : option Z;
  checked_at : string;
  row_message : option string;
  row_name : string;
  row_type : ProviderType;
  row_model : string;
  row_endpoint : option string;
  group_name : option string
}.

(** A [Record<string, T>] in property order.  Config ids are database
    UUIDs, so a key is never the name of an inherited property nor an
    array index. *)
Section Obj.
Context {T : Type}.

Fixpoint get (o : list (string * T)) (key : string) : option T :=
  match o with
  | [] => None
  | (k, v) :: o' => if String.eqb k key then Some v else get o' key
  end.

(** [o[key] = v]: an existing property keeps its place, a new one goes
    last. *)
Fixpoint set (o : list (string * T)) (key : string) (v : T)
    : list (string * T) :=
  match o with
  | [] => [(key, v)]
  | (k, w) :: o' =>
      if String.eqb k key then (k, v) :: o' else (k, w) :: set o' key v
  end.
End Obj.

Section Snapshot.
(** [new Date(s).getTime()], [None] for [NaN]. *)
Variable getTime : string -> option Z.

(** [(a, b) => new Date(b.checkedAt).getTime()
               - new Date(a.checkedAt).getTime()];
    a [NaN] result counts as [+0] in [Array.prototype.sort]. *)
Definition byCheckedAtDesc (a b : CheckResult) : Z :=
  match getTime (checkedAt b), getTime (checkedAt a) with
  | Some tb, Some ta => tb - ta
  | _, _ => 0
  end.

Definition rowToResult (row : RpcHistoryRow) : CheckResult :=
  {| id := config_id row;
     name := row_name row;
     type := row_type row;
     endpoint := Some (match row_endpoint row with
                       | Some e => e
                       | None => ""
                       end);
     model := row_model row;
     status := row_status row;
     latencyMs := latency_ms row;
     pingLatencyMs := ping_latency_ms row;
     checkedAt := checked_at row;
     message := match row_message row with
                | Some m => m
                | None => ""
                end;
     groupName := Some (group_name row);
     officialStatus := None |}.

(** One turn of the first loop. *)
Definition addRow (history : HistorySnapshot) (row : RpcHistoryRow)
    : HistorySnapshot :=
  let result := rowToResult row in
  let history :=
    match get history (id result) with
    | None => set history (id result) []
    | Some _ => history
    end in
  match get history (id result) with
  | Some l => set history (id result) (l ++ [result])%list
  | None => history
  end.

Definition mapRowsToSnapshot (rows : option (list RpcHistoryRow))
    : HistorySnapshot :=
  match rows with
  | None => []
  | Some [] => []
  | Some rows =>
      let history := fold_left addRow rows [] in
      map (fun '(key, l) =>
             (key, Js.slice0 MAX_POINTS_PER_PROVIDER
                     (Js.sort byCheckedAtDesc l)))
          history
  end.
End Snapshot.

(** *** The store, as [append] and [prune] use it *)

Record PostgrestError := mkPgError { pg_message : string }.

Definition isMissingFunctionError (error : option PostgrestError) : bool :=
  match error with
  | None => false
  | Some e =>
      if String.eqb (pg_message e) "" then false
      else Js.includes (pg_message e) RPC_RECENT_HISTORY
           || Js.includes (pg_message e) RPC_PRUNE_HISTORY
  end.

(** A record inserted into [check_history]. *)
Record HistoryRecord := mkRecord {
  rec_config_id : string;
  rec_status : HealthStatus;
  rec_latency_ms : option Z;
  rec_ping_latency_ms : option Z;
  rec_checked_at : string;
  rec_message : string
}.

(** A row of the fallback prune query. *)
Record PruneRow := mkPruneRow {
  pr_id : string;
  pr_config_id : string;
  pr_checked_at : string
}.

(** Requests sent to the backend, in the order they are issued. *)
Inductive StoreOp :=
| CreateClient
| Insert (records : list HistoryRecord)
| RpcPrune (limit : Z)
| SelectForPrune
| DeleteIn (ids : list string)
| LogError (context : string).

Section Store.
(** The contents of the database and the behaviour of its driver are
    the collaborator's. *)
Variable Table : Type.

Record Backend := mkBackend {
  insert : list HistoryRecord -> Table -> option PostgrestError * Table;
  rpcPrune : Z -> Table -> option PostgrestError * Table;
  selectForPrune : Table -> PostgrestError + list PruneRow;
  deleteIn : list string -> Table -> option PostgrestError * Table
}.

Variable backend : Backend.

Record World := mkWorld {
  table : Table;
  issued : list StoreOp
}.

(** Store actions thread the world. *)
Definition Store (A : Type) : Type := World -> A * World.

Definition ret {A} (a : A) : Store A := fun w => (a, w).

Definition bind {A B} (m : Store A) (k : A -> Store B) : Store B :=
  fun w => let (a, w') := m w in k a w'.

Notation "x <- m ;; k" := (bind m (fun x => k))
  (at level 61, m at next level, right associativity).
Notation "m ;;; k" := (bind m (fun _ => k))
  (at level 61, right associativity).

Definition issue (op : StoreOp) : Store unit :=
  fun w => (tt, mkWorld (table w) (issued w ++ [op])%list).

Definition onTable {A} (f : Table -> A * Table) : Store A :=
  fun w => let (a, t) := f (table w) in (a, mkWorld t (issued w)).

Definition logError (context : string) : Store unit :=
  issue (LogError context).

Definition createClient : Store unit := issue CreateClient.

(** The loop of [fallbackPruneHistory] over the selected rows. *)
Fixpoint collectDeleteIds (limit : Z) (seen : list (string * Z))
    (data : list PruneRow) : list string :=
  match data with
  | [] => []
  | record :: data' =>
      let count := match get seen (pr_config_id record) with
                   | Some c => c
                   | None => 0
                   end in
      if count >=? limit
      then pr_id record :: collectDeleteIds limit seen data'
      else collectDeleteIds limit
             (set seen (pr_config_id record) (count + 1)) data'
  end.

Definition fallbackPruneHistory (limit : Z) : Store unit :=
  issue SelectForPrune ;;;
  selected <- (fun w => (selectForPrune backend (table w), w)) ;;
  match selected with
  | inl _ => logError "fallback 模式下查询历史失败"
  | inr data =>
      let deleteIds := collectDeleteIds limit [] data in
      match deleteIds with
      | [] => ret tt
      | _ =>
          issue (DeleteIn deleteIds) ;;;
          deleteError <- onTable (deleteIn backend deleteIds) ;;
          match deleteError with
          | Some _ => logError "fallback 模式下删除历史失败"
          | None => ret tt
          end
      end
  end.

Definition pruneInternal (limit : Z) : Store unit :=
  issue (RpcPrune limit) ;;;
  error <- onTable (rpcPrune backend limit) ;;
  match error with
  | Some _ =>
      logError "清理历史记录失败" ;;;
      if isMissingFunctionError error
      then fallbackPruneHistory limit
      else ret tt
  | None => ret tt
  end.

Definition toRecord (result : CheckResult) : HistoryRecord :=
  {| rec_config_id := id result;
     rec_status := status result;
     rec_latency_ms := latencyMs result;
     rec_ping_latency_ms := pingLatencyMs result;
     rec_checked_at := checkedAt result;
     rec_message := message result |}.

Definition append (results : list CheckResult) : Store unit :=
  if (List.length results =? 0)%nat then ret tt
  else
    createClient ;;;
    let records := map toRecord results in
    issue (Insert records) ;;;
    error <- onTable (insert backend records) ;;
    match error with
    | Some _ => logError "写入历史记录失败"
    | None => pruneInternal (Z.of_nat MAX_POINTS_PER_PROVIDER)
    end.

Definition prune (limit : Z) : Store unit :=
  createClient ;;; pruneInternal limit.
End Store.

End History.

(* ===================================================================== *)
(** ** The health snapshot service (lib/core/dashboard-data.ts, third file) *)
(* ===================================================================== *)

Module SnapshotService.

Record SnapshotScope := mkScope {
  cacheKey : string;
  pollIntervalMs : Z;
  activeConfigs : list ProviderConfig;
  allowedIds : list string
}.

(** A promise is known by its identity. *)
Definition Promise := nat.

(** [PingCacheEntry] of lib/types. *)
Record PingCacheEntry := mkEntry {
  lastPingAt : Z;
  inflight : option Promise;
  history : option HistorySnapshot
}.

(** The cache entry of the scope, the promises created so far and the
    batches handed to [runProviderChecks]. *)
Record World := mkWorld {
  cacheEntry : PingCacheEntry;
  nextPromise : Promise;
  probeBatches : list (list ProviderConfig)
}.

(** What a call of [refreshHistory] returns, up to its first
    suspension: a value, the inflight promise of another caller, or the
    promise it has just installed. *)
Inductive Refresh :=
| Value (h : HistorySnapshot)
| Joined (p : Promise)
| Installed (p : Promise).

Definition refreshHistory (scope : SnapshotScope) (now : Z) (w : World)
    : Refresh * World :=
  let entry := cacheEntry w in
  if (List.length (activeConfigs scope) =? 0)%nat then (Value [], w)
  else
    (* cacheEntry.history && now - cacheEntry.lastPingAt < pollIntervalMs *)
    match (if now - lastPingAt entry <? pollIntervalMs scope
           then history entry else None) with
    | Some cached => (Value cached, w)
    | None =>
        match inflight entry with
        | Some p => (Joined p, w)
        | None =>
            (* the body of the async function runs up to its first
               await: runProviderChecks is called *)
            let inflightPromise := nextPromise w in
            (Installed inflightPromise,
             {| cacheEntry :=
                  mkEntry (lastPingAt entry) (Some inflightPromise)
                    (history entry);
                nextPromise := S inflightPromise;
                probeBatches :=
                  (probeBatches w ++ [activeConfigs scope])%list |})
        end
    end.

(** The end of the inflight body: the history read back after the append
    is stored with the time of the clock. *)
Definition inflightFulfils (nextHistory : HistorySnapshot) (now : Z)
    (w : World) : World :=
  {| cacheEntry := mkEntry now (inflight (cacheEntry w)) (Some nextHistory);
     nextPromise := nextPromise w;
     probeBatches := probeBatches w |}.

(** The [finally] block of the caller that installed [inflightPromise]. *)
Definition clearInflight (inflightPromise : Promise) (w : World) : World :=
  match inflight (cacheEntry w) with
  | Some p =>
      if (p =? inflightPromise)%nat
      then {| cacheEntry :=
                mkEntry (lastPingAt (cacheEntry w)) None
                  (history (cacheEntry w));
              nextPromise := nextPromise w;
              probeBatches := probeBatches w |}
      else w
  | None => w
  end.

(** Calls of [refreshHistory] made one after the other while nothing
    settles in between, each with its scope (of the same cache key) and
    its reading of the clock: the results and the world they leave. *)
Fixpoint refreshEach (calls : list (SnapshotScope * Z)) (w : World)
    : list Refresh * World :=
  match calls with
  | [] => ([], w)
  | (scope, now) :: calls' =>
      let (r, w1) := refreshHistory scope now w in
      let (rs, w2) := refreshEach calls' w1 in
      (r :: rs, w2)
  end.

Definition isInstalled (r : Refresh) : bool :=
  match r with
  | Installed _ => true
  | _ => false
  end.

(** [loadSnapshotForScope] from the moment [readHistoryForScope] has
    resolved with [stored]. *)
Definition loadSnapshotForScope (scope : SnapshotScope)
    (refreshMode : RefreshMode) (stored : HistorySnapshot) (now : Z)
    (w : World) : Refresh * World :=
  if (List.length (allowedIds scope) =? 0)%nat then (Value [], w)
  else
    match refreshMode with
    | always => refreshHistory scope now w
    | missing =>
        if (0 <? List.length (activeConfigs scope))%nat
           && (List.length stored =? 0)%nat
        then refreshHistory scope now w
        else (Value stored, w)
    | never => (Value stored, w)
    end.

Section Timelines.
(** [new Date(s).getTime()], [None] for [NaN]. *)
Variable getTime : string -> option Z.
(** [String.prototype.localeCompare]. *)
Variable localeCompare : string -> string -> Z.
(** [getOfficialStatus] of the official-status poller: a read of its
    cache. *)
Variable getOfficialStatus : ProviderType -> option OfficialStatusResult.
(** [new Date().toISOString()] at the n-th reading of the clock. *)
Variable clock : nat -> string.

Definition attachOfficialStatus (result : CheckResult) : CheckResult :=
  match getOfficialStatus (type result) with
  | None => result
  | Some officialStatus =>
      {| id := id result;
         name := name result;
         type := type result;
         endpoint := endpoint result;
         model := model result;
         status := status result;
         latencyMs := latencyMs result;
         pingLatencyMs := pingLatencyMs result;
         checkedAt := checkedAt result;
         message := message result;
         groupName := groupName result;
         officialStatus := Some officialStatus |}
  end.

Definition createMaintenanceTimeline (reading : nat)
    (config : ProviderConfig) : ProviderTimeline :=
  let base :=
    {| id := cfg_id config;
       name := cfg_name config;
       type := cfg_type config;
       endpoint := cfg_endpoint config;
       model := cfg_model config;
       status := maintenance;
       latencyMs := None;
       pingLatencyMs := None;
       message := "配置处于维护模式";
       checkedAt := clock reading;
       groupName :=
         Some (match cfg_groupName config with
               | Some g => if String.eqb g "" then None else Some g
               | None => None
               end);
       officialStatus := None |} in
  {| tl_id := cfg_id config;
     items := [];
     latest := attachOfficialStatus base |}.

(** [array.map(f)] with the index of each element. *)
Fixpoint mapIndexed {A B : Type} (f : nat -> A -> B) (i : nat)
    (l : list A) : list B :=
  match l with
  | [] => []
  | x :: l' => f i x :: mapIndexed f (S i) l'
  end.

(** The callback of [Object.entries(history).map]. *)
Definition historyTimeline (entry : string * list CheckResult)
    : option ProviderTimeline :=
  let (id, items) := entry in
  if (List.length items =? 0)%nat then None
  else
    let sorted := Js.sort (History.byCheckedAtDesc getTime) items in
    match sorted with
    | first :: _ =>
        Some {| tl_id := id;
                items := sorted;
                latest := attachOfficialStatus first |}
    | [] => None
    end.

Definition keepSome {A : Type} (l : list (option A)) : list A :=
  flat_map (fun o => match o with Some x => [x] | None => [] end) l.

Definition byLatestName (a b : ProviderTimeline) : Z :=
  localeCompare (name (latest a)) (name (latest b)).

Definition buildProviderTimelines (history : HistorySnapshot)
    (maintenanceConfigs : list ProviderConfig) : list ProviderTimeline :=
  let mapped := keepSome (map historyTimeline history) in
  let maintenanceTimelines :=
    mapIndexed createMaintenanceTimeline 0 maintenanceConfigs in
  Js.sort byLatestName (mapped ++ maintenanceTimelines)%list.
End Timelines.

End SnapshotService.

(* ===================================================================== *)
(** ** Group data (lib/types/dashboard.ts, second file) and its route
       (src/unnamed/part_003) *)
(* ===================================================================== *)

Module GroupData.

Record GroupDashboardData := mkGroupData {
  gd_groupName : string;
  displayName : string;
  providerTimelines : list ProviderTimeline;
  lastUpdated : option string;
  total : Z;
  gd_pollIntervalLabel : string;
  gd_pollIntervalMs : Z;
  generatedAt : Z
}.

(** [!config.groupName]. *)
Definition groupNameAbsent (config : ProviderConfig) : bool :=
  match cfg_groupName config with
  | None => true
  | Some g => String.eqb g ""
  end.

(** The filter callback of [loadGroupDashboardData]. *)
Definition inGroup (targetGroupName : string) (config : ProviderConfig)
    : bool :=
  let isTargetUngrouped := String.eqb targetGroupName UNGROUPED_KEY in
  if isTargetUngrouped then groupNameAbsent config
  else match cfg_groupName config with
       | Some g => String.eqb g targetGroupName
       | None => false
       end.

(** [new Set(ids)]: the first occurrence of each id, in order. *)
Fixpoint newSet (seen : list string) (ids : list string) : list string :=
  match ids with
  | [] => []
  | i :: ids' =>
      if existsb (String.eqb i) seen then newSet seen ids'
      else i :: newSet (i :: seen) ids'
  end.

(** The comparator of [Array.prototype.sort()] on strings: the order of
    the UTF-16 code units.  On well-formed UTF-8 it is the order of the
    bytes, except that a character of U+E000..U+FFFF (lead byte [EE] or
    [EF]) comes after every character beyond U+FFFF (lead bytes [F0] to
    [F4]), whose code units are surrogates. *)
Definition codeUnitRank (c : ascii) : N :=
  let n := Js.code c in
  if ((n =? 238) || (n =? 239))%N then (n + 16)%N else n.

Fixpoint compareCodeUnits (a b : string) : comparison :=
  match a, b with
  | EmptyString, EmptyString => Eq
  | EmptyString, String _ _ => Lt
  | String _ _, EmptyString => Gt
  | String x a', String y b' =>
      if Ascii.eqb x y then compareCodeUnits a' b'
      else N.compare (codeUnitRank x) (codeUnitRank y)
  end.

Definition defaultCompare (a b : string) : Z :=
  match compareCodeUnits a b with
  | Lt => -1
  | Eq => 0
  | Gt => 1
  end.

Section Load.
(** lib/core/polling-config is not among the sources. *)
Variable pollIntervalMs : Z.
Variable pollIntervalLabel : string.
Variable getTime : string -> option Z.
Variable localeCompare : string -> string -> Z.
Variable getOfficialStatus : ProviderType -> option OfficialStatusResult.
Variable clock : nat -> string.
(** The history with which [loadSnapshotForScope] resolves. *)
Variable loadSnapshot :
  SnapshotService.SnapshotScope -> RefreshMode -> HistorySnapshot.
(** [Date.now()] at the end of the aggregation. *)
Variable dateNow : Z.

(** [allConfigs] is what [loadProviderConfigsFromDB()] resolves with. *)
Definition loadGroupDashboardData (allConfigs : list ProviderConfig)
    (targetGroupName : string) (options : option RefreshMode)
    : option GroupDashboardData :=
  let isTargetUngrouped := String.eqb targetGroupName UNGROUPED_KEY in
  let groupConfigs := filter (inGroup targetGroupName) allConfigs in
  if (List.length groupConfigs =? 0)%nat then None
  else
    let maintenanceConfigs := filter is_maintenance groupConfigs in
    let activeConfigs :=
      filter (fun cfg => negb (is_maintenance cfg)) groupConfigs in
    let allowedIds := newSet [] (map cfg_id activeConfigs) in
    let providerKey :=
      if (0 <? List.length allowedIds)%nat
      then Js.join "|" (Js.sort defaultCompare allowedIds)
      else "__empty__" in
    let cacheKey :=
      "group:" ++ targetGroupName ++ ":"
      ++ Js.numberToString pollIntervalMs ++ ":" ++ providerKey in
    let refreshMode :=
      match options with Some m => m | None => missing end in
    let history :=
      loadSnapshot
        (SnapshotService.mkScope cacheKey pollIntervalMs activeConfigs
           allowedIds)
        refreshMode in
    let providerTimelines :=
      SnapshotService.buildProviderTimelines getTime localeCompare
        getOfficialStatus clock history maintenanceConfigs in
    let allEntries :=
      Js.sort (History.byCheckedAtDesc getTime)
        (flat_map items providerTimelines) in
    let lastUpdated :=
      match allEntries with
      | e :: _ => Some (checkedAt e)
      | [] => None
      end in
    Some {| gd_groupName := targetGroupName;
            displayName :=
              if isTargetUngrouped then UNGROUPED_DISPLAY_NAME
              else targetGroupName;
            providerTimelines := providerTimelines;
            lastUpdated := lastUpdated;
            total := Z.of_nat (List.length providerTimelines);
            gd_pollIntervalLabel := pollIntervalLabel;
            gd_pollIntervalMs := pollIntervalMs;
            generatedAt := dateNow |}.

(** *** GET /api/group/[groupName] *)

Inductive Body :=
| ErrorBody (error : string)
| DataBody (data : GroupDashboardData).

Record HttpResponse := mkResponse {
  http_status : Z;
  body : Body
}.

(** [decodeURIComponent]; [None] when it throws [URIError]. *)
Variable decodeURIComponent : string -> option string.

(** The handler; [None] when it throws before it answers. *)
Definition GET (allConfigs : list ProviderConfig) (groupName : string)
    : option HttpResponse :=
  match decodeURIComponent groupName with
  | None => None
  | Some decodedGroupName =>
      match loadGroupDashboardData allConfigs decodedGroupName
              (Some always) with
      | None => Some (mkResponse 404 (ErrorBody "分组不存在或没有配置"))
      | Some data => Some (mkResponse 200 (DataBody data))
      end
  end.
End Load.

End GroupData.

(* ===================================================================== *)
(** ** lib/official-status/anthropic.ts *)
(* ===================================================================== *)

Module OfficialAnthropic.

(** The fields of [AnthropicSummaryResponse] that the parser reads. *)
Record Component := mkComponent {
  comp_name : string;
  comp_status : string
}.

Record Summary := mkSummary {
  indicator : string;
  description : string;
  components : option (list Component)
}.

(** The state of the loop over the components. *)
Record Scan := mkScan {
  affected : list string;
  hasDownComponents : bool;
  hasDegradedComponents : bool
}.

(** One turn of the loop. *)
Definition scanComponent (acc : Scan) (component : Component) : Scan :=
  let compStatus := Js.toLowerCase (comp_status component) in
  if negb (String.eqb compStatus "operational") then
    let affected := (affected acc ++ [comp_name component])%list in
    if Js.includes compStatus "outage"
       || Js.includes compStatus "down"
       || String.eqb compStatus "major_outage"
    then mkScan affected true (hasDegradedComponents acc)
    else if Js.includes compStatus "degraded"
            || String.eqb compStatus "degraded_performance"
    then mkScan affected (hasDownComponents acc) true
    else mkScan affected (hasDownComponents acc) (hasDegradedComponents acc)
  else acc.

Definition parseAnthropicSummary (data : Summary) (checkedAt : string)
    : OfficialStatusResult :=
  let indicator := Js.toLowerCase (indicator data) in
  let description := description data in
  let components :=
    match components data with Some l => l | None => [] end in
  let scan := fold_left scanComponent components (mkScan [] false false) in
  let affectedComponents := affected scan in
  let status :=
    if String.eqb indicator "none"
       && (List.length affectedComponents =? 0)%nat
    then official_operational
    else if String.eqb indicator "critical"
            || String.eqb indicator "major"
            || hasDownComponents scan
    then official_down
    else if String.eqb indicator "minor" || hasDegradedComponents scan
    then official_degraded
    else official_unknown in
  let message :=
    if (0 <? List.length affectedComponents)%nat then
      let componentList := Js.join ", " (Js.slice0 3 affectedComponents) in
      let suffix :=
        if (3 <? List.length affectedComponents)%nat
        then " 等 "
             ++ Js.numberToString
                  (Z.of_nat (List.length affectedComponents))
             ++ " 个组件"
        else "" in
      componentList ++ suffix ++ " 受影响"
    else description in
  {| official_status := status;
     official_message := Js.orString message "未知状态";
     official_checkedAt := checkedAt;
     affectedComponents :=
       if (0 <? List.length affectedComponents)%nat
       then Some affectedComponents else None |}.

End OfficialAnthropic.

(* ===================================================================== *)
(** ** Probes taken together *)
(* ===================================================================== *)

(** A run of one of the probes of the repository: the generic stream
    check, the OpenAI probe, the Anthropic probe and its earlier version. *)
Inductive ProbeRun :=
| StreamRun (extractMessage : string -> option string)
    (params : StreamCheck.StreamCheckParams) (env : StreamCheck.Run)
| OpenAIRun (env : OpenAI.Run)
| AnthropicRun (env : Anthropic.Run)
| AnthropicEarlierRun (env : Anthropic.Run).

Definition runProbe (config : ProviderConfig) (run : ProbeRun)
    : CheckResult :=
  match run with
  | StreamRun extractMessage params env =>
      StreamCheck.runStreamCheck extractMessage config params env
  | OpenAIRun env => OpenAI.checkOpenAI config env
  | AnthropicRun env => Anthropic.checkAnthropic config env
  | AnthropicEarlierRun env => AnthropicEarlier.checkAnthropic config env
  end.

(** The deadline each probe arms its abort controller with. *)
Definition probeDeadline (run : ProbeRun) : Z :=
  match run with
  | StreamRun _ _ _ => StreamCheck.DEFAULT_TIMEOUT_MS
  | OpenAIRun _ => OpenAI.DEFAULT_TIMEOUT_MS
  | AnthropicRun _ => Anthropic.DEFAULT_TIMEOUT_MS
  | AnthropicEarlierRun _ => AnthropicEarlier.DEFAULT_TIMEOUT_MS
  end.

(** [p] is fulfilled with [a] at time [t], before [timeout]. *)
Definition fulfilsBy {A : Type} (timeout : Z) (p : Js.Pending A) (t : Z)
    (a : A) : Prop :=
  Js.settlesAt p = Some t /\ t < timeout /\ Js.settled p = inr a.

(** The last await of the Anthropic probe is fulfilled at [n]. *)
Definition anthropicStreamedBy (timeout : Z) (env : Anthropic.Run) (n : Z)
    : Prop :=
  exists t1, fulfilsBy timeout (Anthropic.created env) t1 tt
  /\ exists t2 done, fulfilsBy timeout (Anthropic.first env) t2 done
  /\ match done, Anthropic.returned env with
     | false, Some closing => fulfilsBy timeout closing n tt
     | _, _ => n = t2
     end.

(** The deadline of a probe built on a vendor SDK expires while its
    stream is open: the request was answered in time, and the first read
    of the stream, the whole loop for the OpenAI probe, has not settled
    when the timer fires. *)
Definition expiresMidStream (run : ProbeRun) : Prop :=
  match run with
  | StreamRun _ _ _ => False
  | OpenAIRun env =>
      (exists t1,
         fulfilsBy OpenAI.DEFAULT_TIMEOUT_MS (OpenAI.created env) t1 tt)
      /\ forall t, Js.settlesAt (OpenAI.consumed env) = Some t ->
                   OpenAI.DEFAULT_TIMEOUT_MS <= t
  | AnthropicRun env =>
      (exists t1,
         fulfilsBy Anthropic.DEFAULT_TIMEOUT_MS (Anthropic.created env) t1
           tt)
      /\ forall t, Js.settlesAt (Anthropic.first env) = Some t ->
                   Anthropic.DEFAULT_TIMEOUT_MS <= t
  | AnthropicEarlierRun env =>
      (exists t1,
         fulfilsBy AnthropicEarlier.DEFAULT_TIMEOUT_MS
           (Anthropic.created env) t1 tt)
      /\ forall t, Js.settlesAt (Anthropic.first env) = Some t ->
                   AnthropicEarlier.DEFAULT_TIMEOUT_MS <= t
  end.

(** The streaming request of the run succeeds, its last await being
    fulfilled [n] milliseconds after the start: every operation the probe
    awaits is fulfilled before the deadline, the response is [ok] and has
    a body. *)
Definition succeedsAt (run : ProbeRun) (n : Z) : Prop :=
  match run with
  | StreamRun _ _ env =>
      exists t1 response parsing parsed,
        fulfilsBy StreamCheck.DEFAULT_TIMEOUT_MS (StreamCheck.fetched env)
          t1 response
        /\ StreamCheck.ok response = true
        /\ StreamCheck.body response = Some parsing
        /\ fulfilsBy StreamCheck.DEFAULT_TIMEOUT_MS parsing n parsed
  | OpenAIRun env =>
      exists t1,
        fulfilsBy OpenAI.DEFAULT_TIMEOUT_MS (OpenAI.created env) t1 tt
        /\ fulfilsBy OpenAI.DEFAULT_TIMEOUT_MS (OpenAI.consumed env) n tt
  | AnthropicRun env => anthropicStreamedBy Anthropic.DEFAULT_TIMEOUT_MS env n
  | AnthropicEarlierRun env =>
      anthropicStreamedBy AnthropicEarlier.DEFAULT_TIMEOUT_MS env n
  end.

Definition operationalMessage (n : Z) : string :=
  "流式响应正常 (" ++ Js.numberToString n ++ "ms)".

Definition degradedMessage (n : Z) : string :=
  "响应成功但耗时 " ++ Js.numberToString n ++ "ms".

(** The classification of a successful probe by its elapsed time. *)
Definition classifiedBy (r : CheckResult) (n : Z) : Prop :=
  latencyMs r = Some n
  /\ (n <= 6000 -> status r = operational /\ message r = operationalMessage n)
  /\ (6000 < n -> status r = degraded /\ message r = degradedMessage n).

(** Sample inputs. *)
Definition sampleConfig : ProviderConfig :=
  {| cfg_id := "A"; cfg_name := "primary"; cfg_type := openai;
     cfg_endpoint := None; cfg_model := "gpt-4o-mini"; cfg_apiKey := "sk";
     is_maintenance := false; requestHeaders := None; metadata := None;
     cfg_groupName := None |}.

Definition sampleParams : StreamCheck.StreamCheckParams :=
  StreamCheck.mkParams "https://example.test/v1/chat/completions" None.

(** The gateway answers HTTP 500 after 120 ms. *)
Definition http500Run : StreamCheck.Run :=
  {| StreamCheck.fetched :=
       Js.mkPending (Some 120)
         (inr {| StreamCheck.ok := false;
                 StreamCheck.http_status := 500;
                 StreamCheck.text := Js.mkPending (Some 125) (inr "");
                 StreamCheck.body := None |});
     StreamCheck.ping := Some 40;
     StreamCheck.nowISO := "2025-01-01T00:00:00.000Z" |}.

(** The vendor opens the stream after 300 ms and finishes it after
    [n] ms. *)
Definition openAIRunOf (abortError : Js.Error) (n : Z) : OpenAI.Run :=
  {| OpenAI.created := Js.mkPending (Some 300) (inr tt);
     OpenAI.consumed := Js.mkPending (Some n) (inr tt);
     OpenAI.abortError := abortError;
     OpenAI.ping := Some 40;
     OpenAI.nowISO := "2025-01-01T00:00:00.000Z" |}.

Definition anthropicRunOf (abortError : Js.Error) (n : Z) : Anthropic.Run :=
  {| Anthropic.created := Js.mkPending (Some 300) (inr tt);
     Anthropic.first := Js.mkPending (Some n) (inr false);
     Anthropic.returned := Some (Js.mkPending (Some n) (inr tt));
     Anthropic.abortError := abortError;
     Anthropic.ping := Some 40;
     Anthropic.nowISO := "2025-01-01T00:00:00.000Z" |}.

Definition streamRunOf (n : Z) : StreamCheck.Run :=
  {| StreamCheck.fetched :=
       Js.mkPending (Some 300)
         (inr {| StreamCheck.ok := true;
                 StreamCheck.http_status := 200;
                 StreamCheck.text := Js.mkPending None (inr "");
                 StreamCheck.body := Some (Js.mkPending (Some n) (inr "hi")) |});
     StreamCheck.ping := Some 40;
     StreamCheck.nowISO := "2025-01-01T00:00:00.000Z" |}.

(** The vendor does not answer the request at all. *)
Definition openAIStalledRun (abortError : Js.Error) : OpenAI.Run :=
  {| OpenAI.created := Js.mkPending None (inl abortError);
     OpenAI.consumed := Js.mkPending None (inr tt);
     OpenAI.abortError := abortError;
     OpenAI.ping := None;
     OpenAI.nowISO := "2025-01-01T00:00:00.000Z" |}.

(** The error the OpenAI and Anthropic SDKs throw on an aborted request. *)
Definition sdkAbortError : Js.Error :=
  Js.mkError "Error" "Request was aborted." true.

(** A store action only adds to the log of issued requests. *)
Definition extendsLog {Table A : Type} (m : History.Store Table A) : Prop :=
  forall w, exists rest,
    History.issued Table (snd (m w))
    = (History.issued Table w ++ rest)%list.

(* ===================================================================== *)
(** ** The refresh path, as a specification reads it *)
(* ===================================================================== *)

(** The cached history is present and younger than the poll interval. *)
Definition freshAt (scope : SnapshotService.SnapshotScope) (now : Z)
    (entry : SnapshotService.PingCacheEntry) (h : HistorySnapshot) : Prop :=
  SnapshotService.history entry = Some h
  /\ now - SnapshotService.lastPingAt entry
     < SnapshotService.pollIntervalMs scope.

Definition staleAt (scope : SnapshotService.SnapshotScope) (now : Z)
    (entry : SnapshotService.PingCacheEntry) : Prop :=
  SnapshotService.history entry = None
  \/ SnapshotService.pollIntervalMs scope
     <= now - SnapshotService.lastPingAt entry.

Definition sampleResult (at_ : string) : CheckResult :=
  {| id := "A"; name := "primary"; type := openai;
     endpoint := Some "https://api.openai.com/v1/chat/completions";
     model := "gpt-4o-mini"; status := operational; latencyMs := Some 800;
     pingLatencyMs := Some 40; checkedAt := at_;
     message := "流式响应正常 (800ms)"; groupName := Some None;
     officialStatus := None |}.

Definition sampleHistory : HistorySnapshot :=
  [("A", [sampleResult "2025-01-01T00:00:00.000Z"])].

Definition newerHistory : HistorySnapshot :=
  [("A", [sampleResult "2025-01-01T00:01:00.000Z";
          sampleResult "2025-01-01T00:00:00.000Z"])].

Definition sampleScope : SnapshotService.SnapshotScope :=
  SnapshotService.mkScope "dashboard:60000:A" 60000 [sampleConfig] ["A"].

(** The cache entry of a scope that has never been refreshed. *)
Definition coldWorld : SnapshotService.World :=
  SnapshotService.mkWorld (SnapshotService.mkEntry 0 None None) 0%nat [].

(** A first caller installs promise 0 at time 100000; its body stores the
    history at 100500; its [finally] block has not run yet. *)
Definition fulfilledNotCleared : SnapshotService.World :=
  SnapshotService.inflightFulfils sampleHistory 100500
    (snd (SnapshotService.refreshHistory sampleScope 100000 coldWorld)).

(** The first refresh is over; at 170000 the history is stale and a
    second caller installs promise 1, which is still pending. *)
Definition secondRefreshPending : SnapshotService.World :=
  snd (SnapshotService.refreshHistory sampleScope 170000
         (SnapshotService.clearInflight 0%nat fulfilledNotCleared)).

(** *** The service at run time *)

(** How an installed refresh has settled. *)
Inductive Settled :=
| Fulfilled (nextHistory : HistorySnapshot)
| Rejected.

(** The service of one cache entry as it runs: the world, how the
    promises installed so far have settled ([None]: not yet), and the
    last reading of the clock. *)
Record Service := mkService {
  world : SnapshotService.World;
  outcome : SnapshotService.Promise -> option Settled;
  clock : Z
}.

Definition settleAs (outcome : SnapshotService.Promise -> option Settled)
    (p : SnapshotService.Promise) (o : Settled)
    : SnapshotService.Promise -> option Settled :=
  fun q => if (q =? p)%nat then Some o else outcome q.

(** The states the service of a scope runs through when the clock never
    steps back.  It starts with no refresh installed.  A caller enters
    the refresh path; the body of the installed refresh, which has not
    settled yet, ends by storing the history it read, or throws; and
    when a refresh has settled, the [finally] block of the caller that
    installed it runs.  The callers of one entry come with the same
    scope: the cache key that the pages build names the poll interval
    and the ids of the active configs. *)
Inductive Reachable (scope : SnapshotService.SnapshotScope)
    : Service -> Prop :=
| reach_start (w : SnapshotService.World) (t : Z) :
    SnapshotService.inflight (SnapshotService.cacheEntry w) = None ->
    Reachable scope (mkService w (fun _ => None) t)
| reach_call (s : Service) (now : Z) :
    Reachable scope s -> clock s <= now ->
    Reachable scope
      (mkService (snd (SnapshotService.refreshHistory scope now (world s)))
         (outcome s) now)
| reach_fulfil (s : Service) (p : SnapshotService.Promise)
    (nextHistory : HistorySnapshot) (t : Z) :
    Reachable scope s -> clock s <= t ->
    SnapshotService.inflight (SnapshotService.cacheEntry (world s))
    = Some p ->
    outcome s p = None ->
    Reachable scope
      (mkService (SnapshotService.inflightFulfils nextHistory t (world s))
         (settleAs (outcome s) p (Fulfilled nextHistory)) t)
| reach_reject (s : Service) (p : SnapshotService.Promise) (t : Z) :
    Reachable scope s -> clock s <= t ->
    SnapshotService.inflight (SnapshotService.cacheEntry (world s))
    = Some p ->
    outcome s p = None ->
    Reachable scope
      (mkService (world s) (settleAs (outcome s) p Rejected) t)
| reach_clear (s : Service) (p : SnapshotService.Promise) :
    Reachable scope s -> outcome s p <> None ->
    Reachable scope
      (mkService (SnapshotService.clearInflight p (world s)) (outcome s)
         (clock s)).

(** The call answers as the promise [p] does: it hands out [p] itself,
    or the history that [p] is already fulfilled with. *)
Definition answersAs (s : Service) (p : SnapshotService.Promise)
    (r : SnapshotService.Refresh) : Prop :=
  r = SnapshotService.Joined p
  \/ exists h,
       r = SnapshotService.Value h /\ outcome s p = Some (Fulfilled h).

(** What holds of the installed refresh in every state of the run. *)
Definition inflightAgrees (scope : SnapshotService.SnapshotScope)
    (s : Service) : Prop :=
  (forall q, outcome s q <> None ->
             (q < SnapshotService.nextPromise (world s))%nat)
  /\ forall p,
       SnapshotService.inflight (SnapshotService.cacheEntry (world s))
       = Some p ->
       (p < SnapshotService.nextPromise (world s))%nat
       /\ match outcome s p with
          | Some (Fulfilled h) =>
              SnapshotService.history
                (SnapshotService.cacheEntry (world s)) = Some h
          | _ => staleAt scope (clock s)
                   (SnapshotService.cacheEntry (world s))
          end.

(** A first caller at 100000 on a cold cache; the refresh it installs is
    pending at 100400, and fulfilled at 100500 before its [finally]
    block has run. *)
Definition pendingService : Service :=
  mkService
    (snd (SnapshotService.refreshHistory sampleScope 100000 coldWorld))
    (fun _ => None) 100000.

Definition fulfilledService : Service :=
  mkService fulfilledNotCleared
    (settleAs (fun _ => None) 0%nat (Fulfilled sampleHistory)) 100500.

(* ===================================================================== *)
(** ** An instance of the platform functions, for concrete runs *)
(* ===================================================================== *)

(** [new Date(s).getTime()] on the format [toISOString] writes,
    [YYYY-MM-DDTHH:mm:ss.sssZ].  The platform parses other formats as
    well, an offset [+00:00] for one; this instance gives them all up as
    [NaN], and is applied only to texts of the one format.  The
    properties below hold for every [getTime]; this one evaluates them
    on concrete runs. *)
Module IsoDate.

Definition digit (c : ascii) : option Z :=
  let n := Js.code c in
  if ((48 <=? n) && (n <=? 57))%N then Some (Z.of_N n - 48) else None.

Fixpoint digits (n : nat) (acc : Z) (s : string) : option (Z * string) :=
  match n with
  | O => Some (acc, s)
  | S n' =>
      match s with
      | String c s' =>
          match digit c with
          | Some d => digits n' (10 * acc + d) s'
          | None => None
          end
      | EmptyString => None
      end
  end.

Definition expect (c : ascii) (s : string) : option string :=
  match s with
  | String c' s' => if Ascii.eqb c c' then Some s' else None
  | EmptyString => None
  end.

Definition isLeap (y : Z) : bool :=
  ((y mod 4 =? 0) && negb (y mod 100 =? 0)) || (y mod 400 =? 0).

Definition daysInMonth (y m : Z) : Z :=
  if m =? 2 then (if isLeap y then 29 else 28)
  else if (m =? 4) || (m =? 6) || (m =? 9) || (m =? 11) then 30
  else 31.

(** Days from 1970-01-01 to the civil date. *)
Definition daysFromCivil (y m d : Z) : Z :=
  let y' := if m <=? 2 then y - 1 else y in
  let era := y' / 400 in
  let yoe := y' - era * 400 in
  let mp := if 2 <? m then m - 3 else m + 9 in
  let doy := (153 * mp + 2) / 5 + d - 1 in
  let doe := yoe * 365 + yoe / 4 - yoe / 100 + doy in
  era * 146097 + doe - 719468.

Definition andThen {A B : Type} (o : option A) (k : A -> option B)
    : option B :=
  match o with
  | Some a => k a
  | None => None
  end.

Definition getTime (s : string) : option Z :=
  andThen (digits 4 0 s) (fun '(y, s) =>
  andThen (expect "-" s) (fun s =>
  andThen (digits 2 0 s) (fun '(m, s) =>
  andThen (expect "-" s) (fun s =>
  andThen (digits 2 0 s) (fun '(d, s) =>
  andThen (expect "T" s) (fun s =>
  andThen (digits 2 0 s) (fun '(hh, s) =>
  andThen (expect ":" s) (fun s =>
  andThen (digits 2 0 s) (fun '(mi, s) =>
  andThen (expect ":" s) (fun s =>
  andThen (digits 2 0 s) (fun '(ss, s) =>
  andThen (expect "." s) (fun s =>
  andThen (digits 3 0 s) (fun '(ms, s) =>
  andThen (expect "Z" s) (fun s =>
    if String.eqb s ""
       && (1 <=? m) && (m <=? 12) && (1 <=? d) && (d <=? daysInMonth y m)
       && (hh <=? 23) && (mi <=? 59) && (ss <=? 59)
    then Some ((((daysFromCivil y m d * 24 + hh) * 60 + mi) * 60 + ss)
               * 1000 + ms)
    else None)))))))))))))).

End IsoDate.

(** Stand-ins for the caches and the clock in concrete runs. *)
Definition noOfficialStatus (_ : ProviderType) : option OfficialStatusResult :=
  None.

Definition fixedClock (_ : nat) : string := "2025-01-01T00:05:00.000Z".

Definition maintenanceConfig : ProviderConfig :=
  {| cfg_id := "A"; cfg_name := "primary"; cfg_type := openai;
     cfg_endpoint := None; cfg_model := "gpt-4o-mini"; cfg_apiKey := "sk";
     is_maintenance := true; requestHeaders := None; metadata := None;
     cfg_groupName := Some "team" |}.

(* ===================================================================== *)
(** ** Orderings of a history ring *)
(* ===================================================================== *)

Section Rings.
Variable getTime : string -> option Z.

(** [a] is strictly newer than [b]. *)
Definition newerThan (a b : CheckResult) : Prop :=
  exists ta tb,
    getTime (checkedAt a) = Some ta /\ getTime (checkedAt b) = Some tb
    /\ tb < ta.

(** [a] is at least as new as [b]. *)
Definition notOlderThan (a b : CheckResult) : Prop :=
  exists ta tb,
    getTime (checkedAt a) = Some ta /\ getTime (checkedAt b) = Some tb
    /\ tb <= ta.

Definition strictlyDescending (l : list CheckResult) : Prop :=
  StronglySorted newerThan l.

Definition descending (l : list CheckResult) : Prop :=
  StronglySorted notOlderThan l.

(** The time of a record, for records whose [checkedAt] parses. *)
Definition timeOf (r : CheckResult) : Z :=
  match getTime (checkedAt r) with
  | Some t => t
  | None => 0
  end.
End Rings.

Definition sampleRow (at_ : string) : History.RpcHistoryRow :=
  {| History.config_id := "A";
     History.row_status := operational;
     History.latency_ms := Some 800;
     History.ping_latency_ms := Some 40;
     History.checked_at := at_;
     History.row_message := Some "流式响应正常 (800ms)";
     History.row_name := "primary";
     History.row_type := openai;
     History.row_model := "gpt-4o-mini";
     History.row_endpoint := Some "https://api.openai.com/v1/chat/completions";
     History.group_name := None |}.

(** Two checks of one config recorded in the same millisecond. *)
Definition tiedRows : list History.RpcHistoryRow :=
  [ sampleRow "2025-01-01T00:00:00.000Z";
    sampleRow "2025-01-01T00:00:00.000Z" ].

Definition orderedRows : list History.RpcHistoryRow :=
  [ sampleRow "2025-01-01T00:00:00.000Z";
    sampleRow "2025-01-01T00:02:00.000Z";
    sampleRow "2025-01-01T00:01:00.000Z" ].

(** Every list of the object is non-empty and holds results of rows of
    its own id. *)
Definition fromRows (rows : list History.RpcHistoryRow)
    (h : HistorySnapshot) : Prop :=
  forall key l, In (key, l) h ->
    l <> []
    /\ Forall (fun r => exists row,
                 In row rows /\ r = History.rowToResult row
                 /\ History.config_id row = key) l.

(* ===================================================================== *)
(** ** Group membership, as a specification reads it *)
(* ===================================================================== *)

(** The config has no group name. *)
Definition groupAbsent (config : ProviderConfig) : Prop :=
  cfg_groupName config = None \/ cfg_groupName config = Some "".

(** The config belongs to the requested group; the sentinel
    [__ungrouped__] requests the configs without a group name. *)
Definition matchesGroup (target : string) (config : ProviderConfig) : Prop :=
  (target = UNGROUPED_KEY /\ groupAbsent config)
  \/ (target <> UNGROUPED_KEY /\ cfg_groupName config = Some target).

Definition groupedConfig : ProviderConfig :=
  {| cfg_id := "B"; cfg_name := "secondary"; cfg_type := anthropic;
     cfg_endpoint := None; cfg_model := "claude"; cfg_apiKey := "sk";
     is_maintenance := false; requestHeaders := None; metadata := None;
     cfg_groupName := Some "team" |}.

(** A snapshot loader that finds no history. *)
Definition noSnapshot (_ : SnapshotService.SnapshotScope) (_ : RefreshMode)
    : HistorySnapshot := [].

(** [decodeURIComponent] on names without escapes. *)
Definition plainDecode (s : string) : option string := Some s.

(* ===================================================================== *)
(** ** Component states of a status summary *)
(* ===================================================================== *)

Definition lowerStatus (c : OfficialAnthropic.Component) : string :=
  Js.toLowerCase (OfficialAnthropic.comp_status c).

Definition isOperational (c : OfficialAnthropic.Component) : Prop :=
  lowerStatus c = "operational".

(** The status of the component contains [word]. *)
Definition mentions (word : string) (c : OfficialAnthropic.Component)
    : Prop :=
  Js.includes (lowerStatus c) word = true.

(** The three tests of the loop of [parseAnthropicSummary]. *)
Definition affectedB (c : OfficialAnthropic.Component) : bool :=
  negb (String.eqb (lowerStatus c) "operational").

Definition downB (c : OfficialAnthropic.Component) : bool :=
  affectedB c
  && (Js.includes (lowerStatus c) "outage"
      || Js.includes (lowerStatus c) "down"
      || String.eqb (lowerStatus c) "major_outage").

Definition degradedB (c : OfficialAnthropic.Component) : bool :=
  affectedB c && negb (downB c)
  && (Js.includes (lowerStatus c) "degraded"
      || String.eqb (lowerStatus c) "degraded_performance").

Definition summaryComponents (data : OfficialAnthropic.Summary)
    : list OfficialAnthropic.Component :=
  match OfficialAnthropic.components data with
  | Some l => l
  | None => []
  end.

(** The page reports no incident while one component is under
    maintenance. *)
Definition maintenanceSummary : OfficialAnthropic.Summary :=
  {| OfficialAnthropic.indicator := "none";
     OfficialAnthropic.description := "All Systems Operational";
     OfficialAnthropic.components :=
       Some [ OfficialAnthropic.mkComponent "claude.ai" "operational";
              OfficialAnthropic.mkComponent "API" "under_maintenance" ] |}.

Definition degradedSummary : OfficialAnthropic.Summary :=
  {| OfficialAnthropic.indicator := "minor";
     OfficialAnthropic.description := "Partially Degraded Service";
     OfficialAnthropic.components :=
       Some [ OfficialAnthropic.mkComponent "claude.ai" "operational";
              OfficialAnthropic.mkComponent "API" "degraded_performance" ] |}.

Definition outageSummary : OfficialAnthropic.Summary :=
  {| OfficialAnthropic.indicator := "minor";
     OfficialAnthropic.description := "Partial System Outage";
     OfficialAnthropic.components :=
       Some [ OfficialAnthropic.mkComponent "claude.ai" "partial_outage";
              OfficialAnthropic.mkComponent "API" "degraded_performance" ] |}.

Definition calmSummary : OfficialAnthropic.Summary :=
  {| OfficialAnthropic.indicator := "none";
     OfficialAnthropic.description := "All Systems Operational";
     OfficialAnthropic.components :=
       Some [ OfficialAnthropic.mkComponent "claude.ai" "operational" ] |}.

Definition majorSummary : OfficialAnthropic.Summary :=
  {| OfficialAnthropic.indicator := "major";
     OfficialAnthropic.description := "Major Service Outage";
     OfficialAnthropic.components := None |}.

(* ===================================================================== *)
(** ** Model directives, as a specification reads them *)
(* ===================================================================== *)

(** The effort a directive word stands for: one of
    mini|minimal|low|medium|high in any case, [mini] being [minimal]. *)
Definition directiveEffort (word : string)
    : option OpenAI.ReasoningEffortValue :=
  let w := Js.toLowerCase word in
  if String.eqb w "mini" then Some OpenAI.minimal
  else if String.eqb w "minimal" then Some OpenAI.minimal
  else if String.eqb w "low" then Some OpenAI.low
  else if String.eqb w "medium" then Some OpenAI.medium
  else if String.eqb w "high" then Some OpenAI.high
  else None.

Definition isSeparator (c : ascii) : Prop := c = "@"%char \/ c = "#"%char.

(** [s] ends with a separator followed by a directive word for effort
    [e]; [base] is what precedes the separator. *)
Definition endsWithDirective (s base : string)
    (e : OpenAI.ReasoningEffortValue) : Prop :=
  exists sep word,
    s = base ++ String sep word /\ isSeparator sep
    /\ directiveEffort word = Some e.

(** A line terminator occurs in [s]. *)
Fixpoint hasLineTerminator (s : string) : bool :=
  OpenAI.lineTerminatorHere s
  || match s with
     | EmptyString => false
     | String _ s' => hasLineTerminator s'
     end.

(** One of the patterns of [REASONING_MODEL_HINTS] matches. *)
Definition hinted (s : string) : bool :=
  existsb (fun regex => regex s) OpenAI.REASONING_MODEL_HINTS.

(** The claim of C7 as it is stated, at one model string. *)
Definition preferencesAsStated (model : string)
    (r : OpenAI.ModelPreferences) : Prop :=
  (forall base e, endsWithDirective model base e ->
     OpenAI.requestModel r = base /\ OpenAI.reasoningEffort r = Some e)
  /\ ((forall base e, ~ endsWithDirective model base e) ->
      hinted model = true ->
      OpenAI.requestModel r = model
      /\ OpenAI.reasoningEffort r = Some OpenAI.medium)
  /\ ((forall base e, ~ endsWithDirective model base e) ->
      hinted model = false ->
      OpenAI.reasoningEffort r = None).

(** [c] occurs in [s]. *)
Fixpoint hasChar (c : ascii) (s : string) : bool :=
  match s with
  | EmptyString => false
  | String a s' => Ascii.eqb a c || hasChar c s'
  end.

(** The last character of [before], or [prevWord] in front of it, is a
    word character. *)
Fixpoint endsInWord (prevWord : bool) (before : string) : bool :=
  match before with
  | EmptyString => prevWord
  | String c before' => endsInWord (Js.isWordChar c) before'
  end.

(* ===================================================================== *)
(** ** What a run hands to every probe *)
(* ===================================================================== *)

(** The outcome of the concurrent endpoint ping of the run. *)
Definition probePing (run : ProbeRun) : option Z :=
  match run with
  | StreamRun _ _ env => StreamCheck.ping env
  | OpenAIRun env => OpenAI.ping env
  | AnthropicRun env => Anthropic.ping env
  | AnthropicEarlierRun env => Anthropic.ping env
  end.

(** The clock reading of the run for [checkedAt]. *)
Definition probeClock (run : ProbeRun) : string :=
  match run with
  | StreamRun _ _ env => StreamCheck.nowISO env
  | OpenAIRun env => OpenAI.nowISO env
  | AnthropicRun env => Anthropic.nowISO env
  | AnthropicEarlierRun env => Anthropic.nowISO env
  end.

(* ===================================================================== *)
(** ** lib/database/history.ts: reading the history *)
(* ===================================================================== *)

Module HistoryFetch.

Definition normalizeAllowedIds (ids : option (list string))
    : option (list string) :=
  match ids with
  | None => None
  | Some l =>
      (* Array.from(ids).filter(Boolean) *)
      let array := filter (fun i => negb (String.eqb i "")) l in
      if (0 <? List.length array)%nat then Some array else Some []
  end.

(** The body of both grouping loops: [if (!history[result.id])
    history[result.id] = []; history[result.id].push(result)]. *)
Definition addResult (history : HistorySnapshot) (result : CheckResult)
    : HistorySnapshot :=
  let history :=
    match History.get history (id result) with
    | None => History.set history (id result) []
    | Some _ => history
    end in
  match History.get history (id result) with
  | Some l => History.set history (id result) (l ++ [result])%list
  | None => history
  end.

(** The loop over [Object.keys(history)] that sorts and caps each list. *)
Definition sortAndCap (getTime : string -> option Z)
    (history : HistorySnapshot) : HistorySnapshot :=
  map (fun '(key, l) =>
         (key, Js.slice0 History.MAX_POINTS_PER_PROVIDER
                 (Js.sort (History.byCheckedAtDesc getTime) l)))
      history.

(** The config joined to a record of the fallback query. *)
Record JoinedConfig := mkJoined {
  jc_id : string;
  jc_name : string;
  jc_type : ProviderType;
  jc_model : string;
  jc_endpoint : option string;
  jc_group_name : option string
}.

(** A record of the fallback query; [check_configs] is [None] when it is
    null or not an array. *)
Record JoinedRecord := mkJoinedRecord {
  jr_status : HealthStatus;
  jr_latency_ms : option Z;
  jr_ping_latency_ms : option Z;
  jr_checked_at : string;
  jr_message : option string;
  check_configs : option (list JoinedConfig)
}.

(** The result built from a record, or [None] when the loop skips it. *)
Definition recordToResult (record : JoinedRecord) : option CheckResult :=
  match check_configs record with
  | None => None
  | Some [] => None
  | Some (config :: _) =>
      Some {| id := jc_id config;
              name := jc_name config;
              type := jc_type config;
              endpoint := jc_endpoint config;
              model := jc_model config;
              status := jr_status record;
              latencyMs := jr_latency_ms record;
              pingLatencyMs := jr_ping_latency_ms record;
              checkedAt := jr_checked_at record;
              message := match jr_message record with
                         | Some m => m
                         | None => ""
                         end;
              groupName := Some (jc_group_name config);
              officialStatus := None |}
  end.

(** Requests of a read, in the order they are issued. *)
Inductive ReadOp :=
| ReadClient
| RpcRecent (limit : Z) (ids : option (list string))
| SelectHistory (ids : option (list string))
| ReadLogError (context : string).

(** What the backend answers to the two queries: an error, or the data,
    which may be null. *)
Record ReadBackend := mkReadBackend {
  rpcRecent :
    Z -> option (list string)
    -> History.PostgrestError + option (list History.RpcHistoryRow);
  selectHistory :
    option (list string)
    -> History.PostgrestError + option (list JoinedRecord)
}.

Section Fetch.
Variable getTime : string -> option Z.
Variable backend : ReadBackend.

Definition fallbackFetchSnapshot (allowedIds : option (list string))
    : HistorySnapshot * list ReadOp :=
  match selectHistory backend allowedIds with
  | inl _ =>
      ([], [SelectHistory allowedIds;
            ReadLogError "fallback 模式下读取历史失败"])
  | inr data =>
      let records := match data with Some l => l | None => [] end in
      let history :=
        fold_left
          (fun history record =>
             match recordToResult record with
             | None => history
             | Some result => addResult history result
             end)
          records [] in
      (sortAndCap getTime history, [SelectHistory allowedIds])
  end.

(** [SnapshotStore.fetch]. *)
Definition fetch (allowedIds : option (list string))
    : HistorySnapshot * list ReadOp :=
  let normalizedIds := normalizeAllowedIds allowedIds in
  match normalizedIds with
  | Some [] => ([], [])
  | _ =>
      let limit := Z.of_nat History.MAX_POINTS_PER_PROVIDER in
      match rpcRecent backend limit normalizedIds with
      | inl error =>
          let logged :=
            [ReadClient; RpcRecent limit normalizedIds;
             ReadLogError "获取历史快照失败"] in
          if History.isMissingFunctionError (Some error)
          then let (history, ops) := fallbackFetchSnapshot normalizedIds in
               (history, (logged ++ ops)%list)
          else ([], logged)
      | inr data =>
          (History.mapRowsToSnapshot getTime data,
           [ReadClient; RpcRecent limit normalizedIds])
      end
  end.
End Fetch.

End HistoryFetch.

(** The results of one id, in the order they were pushed. *)
Definition resultsOf (key : string) (results : list CheckResult)
    : list CheckResult :=
  filter (fun r => String.eqb (id r) key) results.

(** The results of the records the fallback loop does not skip. *)
Definition usableResults (records : list HistoryFetch.JoinedRecord)
    : list CheckResult :=
  flat_map (fun record =>
              match HistoryFetch.recordToResult record with
              | Some r => [r]
              | None => []
              end) records.

(** The rows of the fallback prune query that are not to be deleted. *)
Definition survivors (data : list History.PruneRow)
    (deleteIds : list string) : list History.PruneRow :=
  filter (fun r => negb (existsb (String.eqb (History.pr_id r)) deleteIds))
    data.

Definition rowsOfConfig (config : string) (data : list History.PruneRow)
    : list History.PruneRow :=
  filter (fun r => String.eqb (History.pr_config_id r) config) data.

Definition samplePruneRows : list History.PruneRow :=
  [ History.mkPruneRow "5" "A" "2025-01-01T00:04:00.000Z";
    History.mkPruneRow "4" "A" "2025-01-01T00:03:00.000Z";
    History.mkPruneRow "3" "A" "2025-01-01T00:02:00.000Z";
    History.mkPruneRow "2" "B" "2025-01-01T00:01:00.000Z";
    History.mkPruneRow "1" "B" "2025-01-01T00:00:00.000Z" ].

(** A backend whose procedure is missing and whose fallback query
    answers with three records, one of them without its config. *)
Definition sampleJoined (at_ : string) (configs : option (list
    HistoryFetch.JoinedConfig)) : HistoryFetch.JoinedRecord :=
  {| HistoryFetch.jr_status := operational;
     HistoryFetch.jr_latency_ms := Some 800;
     HistoryFetch.jr_ping_latency_ms := None;
     HistoryFetch.jr_checked_at := at_;
     HistoryFetch.jr_message := None;
     HistoryFetch.check_configs := configs |}.

Definition joinedA : HistoryFetch.JoinedConfig :=
  HistoryFetch.mkJoined "A" "primary" openai "gpt-4o-mini" None None.

Definition fallbackBackend : HistoryFetch.ReadBackend :=
  {| HistoryFetch.rpcRecent := fun _ _ =>
       inl (History.mkPgError
              "Could not find the function public.get_recent_check_history");
     HistoryFetch.selectHistory := fun _ =>
       inr (Some [ sampleJoined "2025-01-01T00:01:00.000Z" (Some [joinedA]);
                   sampleJoined "2025-01-01T00:02:00.000Z" None;
                   sampleJoined "2025-01-01T00:03:00.000Z" (Some [joinedA]) ])
  |}.

(** A backend that is down. *)
Definition brokenBackend : HistoryFetch.ReadBackend :=
  {| HistoryFetch.rpcRecent := fun _ _ =>
       inl (History.mkPgError "connection refused");
     HistoryFetch.selectHistory := fun _ =>
       inl (History.mkPgError "connection refused") |}.

(** The ids a read asks the backend for. *)
Definition requestedIds (ids : option (list string))
    : option (list string) :=
  option_map (filter (fun i => negb (String.eqb i ""))) ids.

(** The number of rows already counted for a config by the prune loop. *)
Definition seenCount (seen : list (string * Z)) (config : string) : Z :=
  match History.get seen config with
  | Some n => n
  | None => 0
  end.

(** A table and a backend for concrete runs of the store: the table is
    the list of inserted records, the prune procedure is missing and the
    fallback query returns [samplePruneRows]. *)
Definition listBackend (insertFails : bool)
    : History.Backend (list History.HistoryRecord) :=
  {| History.insert := fun records t =>
       if insertFails then (Some (History.mkPgError "insert failed"), t)
       else (None, (t ++ records)%list);
     History.rpcPrune := fun _ t =>
       (Some (History.mkPgError
                "Could not find the function public.prune_check_history"),
        t);
     History.selectForPrune := fun _ => inr samplePruneRows;
     History.deleteIn := fun _ t => (None, t) |}.

Definition emptyStore : History.World (list History.HistoryRecord) :=
  History.mkWorld _ [] [].

(* ===================================================================== *)
(** ** lib/database/config-loader.ts *)
(* ===================================================================== *)

Module ConfigLoader.

(** The columns of [check_configs] that the loader selects; [type] is
    the value the unchecked cast of the source reads it as. *)
Record CheckConfigRow := mkConfigRow {
  row_id : string;
  row_name : string;
  row_type : ProviderType;
  row_model : string;
  row_endpoint : option string;
  api_key : string;
  row_is_maintenance : bool;
  request_header : option (list (string * string));
  row_metadata : option (list (string * string));
  group_name : option string
}.

(** The callback of [data.map]. *)
Definition toConfig (row : CheckConfigRow) : ProviderConfig :=
  {| cfg_id := row_id row;
     cfg_name := row_name row;
     cfg_type := row_type row;
     cfg_endpoint := row_endpoint row;
     cfg_model := row_model row;
     cfg_apiKey := api_key row;
     is_maintenance := row_is_maintenance row;
     requestHeaders := request_header row;
     metadata := row_metadata row;
     cfg_groupName :=
       match group_name row with
       | Some g => if String.eqb g "" then None else Some g
       | None => None
       end |}.

(** [loadProviderConfigsFromDB], given the answer of the query for the
    enabled configs ordered by id: an error, returned or thrown, or the
    data, which may be null. *)
Definition loadProviderConfigsFromDB
    (answer : History.PostgrestError + option (list CheckConfigRow))
    : list ProviderConfig :=
  match answer with
  | inl _ => []
  | inr None => []
  | inr (Some data) =>
      if (List.length data =? 0)%nat then [] else map toConfig data
  end.

End ConfigLoader.

(* ===================================================================== *)
(** ** Dashboard data (lib/core/dashboard-data.ts, first file) and the
       list of groups (lib/types/dashboard.ts, second file) *)
(* ===================================================================== *)

Module Dashboard.

Record GroupedProviderTimelines := mkGrouped {
  g_groupName : string;
  g_displayName : string;
  timelines : list ProviderTimeline
}.

(** [timeline.latest.groupName || UNGROUPED_KEY]. *)
Definition groupKey (timeline : ProviderTimeline) : string :=
  match groupName (latest timeline) with
  | Some (Some g) => Js.orString g UNGROUPED_KEY
  | _ => UNGROUPED_KEY
  end.

(** One turn of the loop that fills the [Map]: [if (!groupMap.has(key))
    groupMap.set(key, []); groupMap.get(key).push(timeline)]. *)
Definition pushTimeline (groupMap : list (string * list ProviderTimeline))
    (timeline : ProviderTimeline) : list (string * list ProviderTimeline) :=
  let groupKey := groupKey timeline in
  let groupMap :=
    match History.get groupMap groupKey with
    | None => History.set groupMap groupKey []
    | Some _ => groupMap
    end in
  match History.get groupMap groupKey with
  | Some l => History.set groupMap groupKey (l ++ [timeline])%list
  | None => groupMap
  end.

Section Grouping.
Variable localeCompare : string -> string -> Z.

Definition groupTimelines (timelines : list ProviderTimeline)
    : list GroupedProviderTimelines :=
  let groupMap := fold_left pushTimeline timelines [] in
  let namedGroups :=
    Js.sort (fun a b => localeCompare (fst a) (fst b))
      (filter (fun entry => negb (String.eqb (fst entry) UNGROUPED_KEY))
         groupMap) in
  let named :=
    map (fun '(groupName, groupTimelines) =>
           {| g_groupName := groupName;
              g_displayName := groupName;
              timelines :=
                Js.sort (SnapshotService.byLatestName localeCompare)
                  groupTimelines |})
        namedGroups in
  match History.get groupMap UNGROUPED_KEY with
  | Some ungrouped =>
      if (0 <? List.length ungrouped)%nat
      then (named
            ++ [ {| g_groupName := UNGROUPED_KEY;
                    g_displayName := UNGROUPED_DISPLAY_NAME;
                    timelines :=
                      Js.sort (SnapshotService.byLatestName localeCompare)
                        ungrouped |} ])%list
      else named
  | None => named
  end.

Record DashboardData := mkDashboard {
  providerTimelines : list ProviderTimeline;
  groupedTimelines : list GroupedProviderTimelines;
  lastUpdated : option string;
  total : Z;
  pollIntervalLabel : string;
  pollIntervalMs : Z;
  generatedAt : Z
}.

(** lib/core/polling-config is not among the sources. *)
Variable intervalMs : Z.
Variable intervalLabel : string.
Variable getTime : string -> option Z.
Variable getOfficialStatus : ProviderType -> option OfficialStatusResult.
Variable clock : nat -> string.
(** The history with which [loadSnapshotForScope] resolves. *)
Variable loadSnapshot :
  SnapshotService.SnapshotScope -> RefreshMode -> HistorySnapshot.
(** [Date.now()] at the end of the aggregation. *)
Variable dateNow : Z.

(** [allConfigs] is what [loadProviderConfigsFromDB()] resolves with.
    The call of [ensureOfficialStatusPoller] that comes first acts on the
    poller only, which [OfficialPoller] models; the data read its cache
    through [getOfficialStatus]. *)
Definition loadDashboardData (allConfigs : list ProviderConfig)
    (options : option RefreshMode) : DashboardData :=
  let maintenanceConfigs := filter is_maintenance allConfigs in
  let activeConfigs :=
    filter (fun cfg => negb (is_maintenance cfg)) allConfigs in
  let allowedIds := GroupData.newSet [] (map cfg_id activeConfigs) in
  let providerKey :=
    if (0 <? List.length allowedIds)%nat
    then Js.join "|" (Js.sort GroupData.defaultCompare allowedIds)
    else "__empty__" in
  let cacheKey :=
    "dashboard:" ++ Js.numberToString intervalMs ++ ":" ++ providerKey in
  let refreshMode := match options with Some m => m | None => missing end in
  let history :=
    loadSnapshot
      (SnapshotService.mkScope cacheKey intervalMs activeConfigs allowedIds)
      refreshMode in
  let providerTimelines :=
    SnapshotService.buildProviderTimelines getTime localeCompare
      getOfficialStatus clock history maintenanceConfigs in
  let allEntries :=
    Js.sort (History.byCheckedAtDesc getTime)
      (flat_map items providerTimelines) in
  let lastUpdated :=
    match allEntries with
    | e :: _ => Some (checkedAt e)
    | [] => None
    end in
  let groupedTimelines := groupTimelines providerTimelines in
  {| providerTimelines := providerTimelines;
     groupedTimelines := groupedTimelines;
     lastUpdated := lastUpdated;
     total := Z.of_nat (List.length providerTimelines);
     pollIntervalLabel := intervalLabel;
     pollIntervalMs := intervalMs;
     generatedAt := dateNow |}.
End Grouping.

(** [getAvailableGroups], given the loaded configs. *)
Definition getAvailableGroups (allConfigs : list ProviderConfig)
    : list string :=
  let named :=
    flat_map (fun config =>
                match cfg_groupName config with
                | Some g => if String.eqb g "" then [] else [g]
                | None => []
                end) allConfigs in
  let hasUngrouped := existsb GroupData.groupNameAbsent allConfigs in
  let groupSet :=
    GroupData.newSet []
      (named ++ (if hasUngrouped then [UNGROUPED_KEY] else []))%list in
  Js.sort GroupData.defaultCompare groupSet.

End Dashboard.

(** A grouping map is well formed when no bucket is empty and every
    bucket holds timelines of its own key. *)
Definition wellGrouped (m : list (string * list ProviderTimeline)) : Prop :=
  forall k l, In (k, l) m ->
    l <> [] /\ Forall (fun t => Dashboard.groupKey t = k) l.

(** [lastUpdated] names the newest of the records [all]: nothing when
    there is none, and otherwise the [checkedAt] of a record that, when
    the dates parse, is at least as new as every other. *)
Definition newestOf (getTime : string -> option Z) (all : list CheckResult)
    (lastUpdated : option string) : Prop :=
  match lastUpdated with
  | None => all = []
  | Some s =>
      exists r,
        In r all /\ checkedAt r = s
        /\ ((forall x, In x all -> getTime (checkedAt x) <> None) ->
            forall x, In x all -> notOlderThan getTime r x)
  end.

(** A snapshot loader that finds [newerHistory]. *)
Definition storedSnapshot (_ : SnapshotService.SnapshotScope)
    (_ : RefreshMode) : HistorySnapshot := newerHistory.

(* ===================================================================== *)
(** ** The check of the official status page
       (lib/official-status/anthropic.ts, [checkAnthropicStatus]) *)
(* ===================================================================== *)

Module AnthropicStatus.

Definition TIMEOUT_MS : Z := 15000.

(** What [fetch] resolves with.  [json] is [response.json()]: it rejects
    on a body that is not JSON, and is fulfilled with [None] on a JSON
    value without the fields that the parser reads, on which the parser
    throws a [TypeError]. *)
Record Response := mkResponse {
  ok : bool;
  http_status : Z;
  json : Js.Pending (option OfficialAnthropic.Summary)
}.

Definition unknown (message checkedAt : string) : OfficialStatusResult :=
  {| official_status := official_unknown;
     official_message := message;
     official_checkedAt := checkedAt;
     affectedComponents := None |}.

(** The [catch] block; the second component tells that [logError] was
    called. *)
Definition caught (checkedAt : string) (error : Js.Error)
    : OfficialStatusResult * bool :=
  (if String.eqb (Js.name error) "AbortError"
   then unknown "检查超时" checkedAt
   else unknown "检查失败" checkedAt,
   true).

(** [checkAnthropicStatus], given the reading of the clock and the
    outcome of the request.  The timer is cleared as soon as the response
    is there, so the body is awaited without a deadline: the result is
    [None] when the function never returns. *)
Definition checkAnthropicStatus (checkedAt : string)
    (fetched : Js.Pending Response)
    : option (OfficialStatusResult * bool) :=
  match fst (Js.awaitWithin TIMEOUT_MS Js.fetchAbortError fetched) with
  | inl error => Some (caught checkedAt error)
  | inr response =>
      if negb (ok response) then
        Some (unknown ("HTTP " ++ Js.numberToString (http_status response))
                checkedAt,
              false)
      else
        match Js.settlesAt (json response) with
        | None => None
        | Some _ =>
            match Js.settled (json response) with
            | inl error => Some (caught checkedAt error)
            | inr None =>
                Some (caught checkedAt
                        (Js.mkError "TypeError"
                           "Cannot read properties of undefined" false))
            | inr (Some data) =>
                Some (OfficialAnthropic.parseAnthropicSummary data
                        checkedAt,
                      false)
            end
        end
  end.

End AnthropicStatus.

(* ===================================================================== *)
(** ** The endpoint ping (src/unnamed/part_005, first file) *)
(* ===================================================================== *)

Module EndpointPing.

Definition PING_TIMEOUT_MS : Z := 8000.

Inductive Method := HEAD | GET.

(** [resolvePingOrigin]; [parseURL] is [new URL(endpoint)] read through
    its [protocol] and [host], [None] when the constructor throws. *)
Definition resolvePingOrigin (parseURL : string -> option (string * string))
    (endpoint : string) : option string :=
  match parseURL endpoint with
  | Some (protocol, host) => Some (protocol ++ "//" ++ host)
  | None => None
  end.

(** [tryPing], given the outcome of its request; times are relative to
    the start of the request. *)
Definition tryPing (request : Js.Pending unit) : option Z :=
  match Js.awaitWithin PING_TIMEOUT_MS Js.fetchAbortError request with
  | (inr _, respondedAt) => Some respondedAt
  | (inl _, _) => None
  end.

(** [measureEndpointPing]: the latency and the requests sent, in
    order.  [transport] gives the outcome of a request. *)
Definition measureEndpointPing
    (parseURL : string -> option (string * string))
    (transport : string -> Method -> Js.Pending unit)
    (endpoint : option string)
    : option Z * list (string * Method) :=
  match endpoint with
  | None => (None, [])
  | Some endpoint =>
      if String.eqb endpoint "" then (None, [])
      else
        match resolvePingOrigin parseURL endpoint with
        | None => (None, [])
        | Some origin =>
            if String.eqb origin "" then (None, [])
            else
              match tryPing (transport origin HEAD) with
              | Some headLatency => (Some headLatency, [(origin, HEAD)])
              | None =>
                  (tryPing (transport origin GET),
                   [(origin, HEAD); (origin, GET)])
              end
        end
  end.

End EndpointPing.

(** The outcome of a request that is answered after [t] milliseconds. *)
Definition answeredAfter (t : Z) : Js.Pending unit :=
  Js.mkPending (Some t) (inr tt).

(** A host that does not answer [HEAD] requests and answers [GET] after
    120 ms. *)
Definition getOnlyTransport (_ : string) (method : EndpointPing.Method)
    : Js.Pending unit :=
  match method with
  | EndpointPing.HEAD => Js.mkPending None (inl Js.fetchAbortError)
  | EndpointPing.GET => answeredAfter 120
  end.

(** [new URL] on the one endpoint of the examples. *)
Definition sampleParseURL (endpoint : string) : option (string * string) :=
  if String.eqb endpoint "https://api.example.test/v1/chat/completions"
  then Some ("https:", "api.example.test")
  else None.

(** The status page answers after 300 ms with a summary that is read
    without delay. *)
Definition statusPageAnswers (data : OfficialAnthropic.Summary)
    : Js.Pending AnthropicStatus.Response :=
  Js.mkPending (Some 300)
    (inr (AnthropicStatus.mkResponse true 200
            (Js.mkPending (Some 0) (inr (Some data))))).

(* ===================================================================== *)
(** ** The official-status poller (lib/core/dashboard-data.ts, second
       file) *)
(* ===================================================================== *)

Module OfficialPoller.

(** [setInterval] returns a timer known by its identity. *)
Definition Timer := nat.

(** The globals of the poller and the resources it holds: the cache of
    official statuses, the recorded timer and the polling flag of
    [globalThis]; the intervals set and not cleared; the checks whose
    [checkAllOfficialStatuses] has not settled yet; the number of calls
    of [checkAllOfficialStatuses]. *)
Record State := mkState {
  officialStatusCache : ProviderType -> option OfficialStatusResult;
  timer : option Timer;
  polling : bool;
  nextTimer : Timer;
  intervals : list Timer;
  inflight : nat;
  checksStarted : nat
}.

(** A fresh process. *)
Definition initial : State :=
  mkState (fun _ => None) None false 0%nat [] 0%nat 0%nat.

Definition getOfficialStatus (s : State) (type : ProviderType)
    : option OfficialStatusResult :=
  officialStatusCache s type.

Definition sameType (a b : ProviderType) : bool :=
  match a, b with
  | openai, openai | gemini, gemini | anthropic, anthropic => true
  | _, _ => false
  end.

(** [officialStatusCache.set(type, result)]. *)
Definition cacheSet (cache : ProviderType -> option OfficialStatusResult)
    (entry : ProviderType * OfficialStatusResult)
    : ProviderType -> option OfficialStatusResult :=
  fun type => if sameType type (fst entry) then Some (snd entry)
              else cache type.

(** [runOfficialStatusCheck] up to its await. *)
Definition runOfficialStatusCheck (s : State) : State :=
  if polling s then s
  else
    {| officialStatusCache := officialStatusCache s;
       timer := timer s;
       polling := true;
       nextTimer := nextTimer s;
       intervals := intervals s;
       inflight := S (inflight s);
       checksStarted := S (checksStarted s) |}.

(** [runOfficialStatusCheck] from its await on: the check resolves with
    the results of the provider types, in the order of the map, or
    rejects ([None]); the [finally] block lowers the flag. *)
Definition checkSettles
    (results : option (list (ProviderType * OfficialStatusResult)))
    (s : State) : State :=
  match inflight s with
  | O => s
  | S waiting =>
      {| officialStatusCache :=
           match results with
           | Some entries =>
               fold_left cacheSet entries (officialStatusCache s)
           | None => officialStatusCache s
           end;
         timer := timer s;
         polling := false;
         nextTimer := nextTimer s;
         intervals := intervals s;
         inflight := waiting;
         checksStarted := checksStarted s |}
  end.

Definition startOfficialStatusPoller (s : State) : State :=
  match timer s with
  | Some _ => s
  | None =>
      let s1 := runOfficialStatusCheck s in
      let timer := nextTimer s1 in
      {| officialStatusCache := officialStatusCache s1;
         timer := Some timer;
         polling := polling s1;
         nextTimer := S timer;
         intervals := (intervals s1 ++ [timer])%list;
         inflight := inflight s1;
         checksStarted := checksStarted s1 |}
  end.

Definition stopOfficialStatusPoller (s : State) : State :=
  match timer s with
  | None => s
  | Some timer =>
      {| officialStatusCache := officialStatusCache s;
         timer := None;
         polling := false;
         nextTimer := nextTimer s;
         intervals := filter (fun t => negb (t =? timer)%nat) (intervals s);
         inflight := inflight s;
         checksStarted := checksStarted s |}
  end.

Definition ensureOfficialStatusPoller (s : State) : State :=
  match timer s with
  | None => startOfficialStatusPoller s
  | Some _ => s
  end.

(** What happens to the poller: calls of its exported functions, the
    callback of an interval that is still set, and the settling of a
    check. *)
Inductive Event :=
| Start
| Stop
| Ensure
| Tick (timer : Timer)
| Settle (results : option (list (ProviderType * OfficialStatusResult))).

Definition step (s : State) (e : Event) : State :=
  match e with
  | Start => startOfficialStatusPoller s
  | Stop => stopOfficialStatusPoller s
  | Ensure => ensureOfficialStatusPoller s
  | Tick timer =>
      if existsb (Nat.eqb timer) (intervals s)
      then runOfficialStatusCheck s else s
  | Settle results => checkSettles results s
  end.

Definition run (events : list Event) : State := fold_left step events initial.

Definition isStop (e : Event) : bool :=
  match e with
  | Stop => true
  | _ => false
  end.

Definition isSettle (e : Event) : bool :=
  match e with
  | Settle _ => true
  | _ => false
  end.

End OfficialPoller.

(* ===================================================================== *)
(** ** The base URL handed to the vendor SDKs
       (lib/providers/anthropic.ts, src/unnamed/part_004 and part_005) *)
(* ===================================================================== *)

Module BaseUrl.

(** [raw.split("?")[0]]: the text before the first question mark. *)
Fixpoint beforeQuery (s : string) : string :=
  match s with
  | EmptyString => EmptyString
  | String c s' =>
      if Ascii.eqb c "?" then EmptyString else String c (beforeQuery s')
  end.

(** [String.prototype.indexOf], [None] for [-1].  The position counts
    bytes where the platform counts UTF-16 code units; the sources use
    it only to cut the string at an occurrence, which is the same cut in
    both. *)
Fixpoint indexOf (s needle : string) : option nat :=
  if String.prefix needle s then Some 0%nat
  else match s with
       | EmptyString => None
       | String _ s' => option_map S (indexOf s' needle)
       end.

(** [s.slice(0, n)]. *)
Definition sliceTo (n : nat) (s : string) : string := String.substring 0 n s.

(** [s.replace(/\/$/, "")]. *)
Fixpoint dropTrailingSlash (s : string) : string :=
  if String.eqb s "/" then EmptyString
  else match s with
       | EmptyString => EmptyString
       | String c s' => String c (dropTrailingSlash s')
       end.

(** [s.replace(/\/v1\/messages\/?$/, "")]: the pattern is tried at every
    position from the left and matches where the rest of the string is
    the path, with or without its closing slash. *)
Fixpoint dropMessagesPath (s : string) : string :=
  if String.eqb s "/v1/messages/" || String.eqb s "/v1/messages"
  then EmptyString
  else match s with
       | EmptyString => EmptyString
       | String c s' => String c (dropMessagesPath s')
       end.

(** lib/providers/anthropic.ts. *)
Definition deriveAnthropicBaseURL (endpoint : option string) : string :=
  let raw := Js.orElse endpoint (DEFAULT_ENDPOINTS anthropic) in
  let withoutQuery := beforeQuery raw in
  dropMessagesPath withoutQuery.

(** src/unnamed/part_004, the earlier version. *)
Definition deriveAnthropicBaseURLEarlier (endpoint : option string)
    : string :=
  let raw := Js.orElse endpoint (DEFAULT_ENDPOINTS anthropic) in
  let withoutQuery := beforeQuery raw in
  let base :=
    match indexOf withoutQuery "/v1/messages" with
    | Some messagesIndex => sliceTo messagesIndex withoutQuery
    | None => withoutQuery
    end in
  if Js.includes base "api.anthropic.com" && negb (Js.includes base "/v1")
  then dropTrailingSlash base ++ "/v1"
  else base.

(** src/unnamed/part_005. *)
Definition deriveOpenAIBaseURL (endpoint : option string) : string :=
  let raw := Js.orElse endpoint (DEFAULT_ENDPOINTS openai) in
  let withoutQuery := beforeQuery raw in
  let base :=
    match indexOf withoutQuery "/chat/completions" with
    | Some chatIndex => sliceTo chatIndex withoutQuery
    | None => withoutQuery
    end in
  match indexOf base "/v1" with
  | Some v1Index => sliceTo (v1Index + String.length "/v1") base
  | None =>
      if Js.includes base "api.openai.com"
      then dropTrailingSlash base ++ "/v1"
      else base
  end.

End BaseUrl.

(** The endpoint of a deployment: the messages path, with or without its
    closing slash, and a query or none. *)
Definition messagesEndpoint (base : string) (slash : bool)
    (query : option string) : string :=
  base ++ "/v1/messages" ++ (if slash then "/" else "")
  ++ match query with
     | Some q => String "?" q
     | None => ""
     end.

(* ===================================================================== *)
(** ** The cache of SDK clients ([getOpenAIClient] of src/unnamed/part_005,
       [getAnthropicClient] of src/unnamed/part_004) *)
(* ===================================================================== *)

Module ClientCache.

(** A client of the vendor SDK: the options it was constructed with and
    its identity, the number of clients constructed before it. *)
Record Client := mkClient {
  client_apiKey : string;
  client_baseURL : string;
  serial : nat
}.

(** The global [Map] of clients and the number of clients constructed. *)
Record Clients := mkClients {
  cache : list (string * Client);
  constructed : nat
}.

Definition noClients : Clients := mkClients [] 0%nat.

Section GetClient.
(** [deriveOpenAIBaseURL] or [deriveAnthropicBaseURL]. *)
Variable derive : option string -> string.

Definition cacheKeyOf (config : ProviderConfig) : string :=
  derive (cfg_endpoint config) ++ "::" ++ cfg_apiKey config.

Definition getClient (config : ProviderConfig) (s : Clients)
    : Client * Clients :=
  let baseURL := derive (cfg_endpoint config) in
  let cacheKey := baseURL ++ "::" ++ cfg_apiKey config in
  match History.get (cache s) cacheKey with
  | Some cached => (cached, s)
  | None =>
      let client := mkClient (cfg_apiKey config) baseURL (constructed s) in
      (client,
       {| cache := History.set (cache s) cacheKey client;
          constructed := S (constructed s) |})
  end.

(** The clients handed out to a sequence of calls, and the cache they
    leave. *)
Fixpoint getClients (configs : list ProviderConfig) (s : Clients)
    : list Client * Clients :=
  match configs with
  | [] => ([], s)
  | config :: configs' =>
      let (client, s1) := getClient config s in
      let (clients, s2) := getClients configs' s1 in
      (client :: clients, s2)
  end.
End GetClient.

Definition getOpenAIClient : ProviderConfig -> Clients -> Client * Clients :=
  getClient BaseUrl.deriveOpenAIBaseURL.

Definition getAnthropicClientEarlier
    : ProviderConfig -> Clients -> Client * Clients :=
  getClient BaseUrl.deriveAnthropicBaseURLEarlier.

End ClientCache.

(** A config served through a gateway, with a key of its own. *)
Definition gatewayConfig : ProviderConfig :=
  {| cfg_id := "C"; cfg_name := "gateway"; cfg_type := openai;
     cfg_endpoint :=
       Some "https://gateway.example.test/openai/v1/chat/completions";
     cfg_model := "gpt-4o-mini"; cfg_apiKey := "sk-gateway";
     is_maintenance := false; requestHeaders := None; metadata := None;
     cfg_groupName := None |}.

(* ===================================================================== *)
(** ** components/status-timeline.tsx *)
(* ===================================================================== *)

Module StatusTimeline.

Definition SEGMENT_LIMIT : nat := 60.

(** [s.padStart(2, "0")]. *)
Definition padStart2 (s : string) : string :=
  match String.length s with
  | 0%nat => "00"
  | 1%nat => "0" ++ s
  | _ => s
  end.

(** [formatRemainingTime], for a whole number of milliseconds. *)
Definition formatRemainingTime (ms : Z) : string :=
  let totalSeconds := Z.max 0 ((ms + 999) / 1000) in
  let minutes := totalSeconds / 60 in
  let seconds := totalSeconds mod 60 in
  if 0 <? minutes
  then Js.numberToString minutes ++ "分"
       ++ padStart2 (Js.numberToString seconds) ++ "秒"
  else Js.numberToString seconds ++ "秒".

(** [Array.from({ length: SEGMENT_LIMIT }, (_, index) =>
    items[index] ?? null)]. *)
Definition segments (items : list CheckResult)
    : list (option CheckResult) :=
  map (fun index => nth_error items index) (seq 0 SEGMENT_LIMIT).

(** What the component draws: the notice of a model under maintenance,
    or the bar of segments with the label of the next refresh. *)
Inductive View :=
| MaintenanceNotice
| Bar (segments : list (option CheckResult))
      (nextRefreshLabel : option string).

Definition StatusTimeline (items : list CheckResult)
    (nextRefreshInMs : option Z) : View :=
  if (List.length items =? 0)%nat then MaintenanceNotice
  else
    Bar (segments items)
        (match nextRefreshInMs with
         | Some ms => Some (formatRemainingTime ms)
         | None => None
         end).

End StatusTimeline.

(* ===================================================================== *)
(** ** The refresh of the views (components/dashboard-view.tsx and
       src/unnamed/part_001, [refresh]) *)
(* ===================================================================== *)

Module ViewRefresh.

Section Refresh.
(** [DashboardData] or [GroupDashboardData]. *)
Variable Data : Type.

(** The state of the component that [refresh] reads and writes, the
    refreshes that await their response and the requests sent. *)
Record State := mkState {
  data : Data;
  isRefreshing : bool;
  lock : bool;
  awaited : nat;
  requests : nat
}.

Definition mounted (initialData : Data) : State :=
  mkState initialData false false 0%nat 0%nat.

(** [refresh] up to its first await. *)
Definition refresh (s : State) : State :=
  if lock s then s
  else
    {| data := data s;
       isRefreshing := true;
       lock := true;
       awaited := S (awaited s);
       requests := S (requests s) |}.

(** [refresh] from its await on.  [outcome] is the data of a successful
    response, or [None] when the request fails, the response is not ok
    or its body is not JSON: the error is caught and logged. *)
Definition settle (outcome : option Data) (s : State) : State :=
  match awaited s with
  | O => s
  | S waiting =>
      {| data := match outcome with
                 | Some next => next
                 | None => data s
                 end;
         isRefreshing := false;
         lock := false;
         awaited := waiting;
         requests := requests s |}
  end.

(** A call of [refresh], by the interval or by hand, and the settling of
    an awaited request. *)
Inductive Event :=
| Refresh
| Settle (outcome : option Data).

Definition step (s : State) (e : Event) : State :=
  match e with
  | Refresh => refresh s
  | Settle outcome => settle outcome s
  end.

Definition run (initialData : Data) (events : list Event) : State :=
  fold_left step events (mounted initialData).

Definition isSettle (e : Event) : bool :=
  match e with
  | Settle _ => true
  | Refresh => false
  end.

(** The data of the successful responses among the events. *)
Definition delivered (events : list Event) : list Data :=
  flat_map (fun e => match e with
                     | Settle (Some next) => [next]
                     | _ => []
                     end) events.
End Refresh.

Arguments data {Data} _.
Arguments isRefreshing {Data} _.
Arguments lock {Data} _.
Arguments awaited {Data} _.
Arguments requests {Data} _.
Arguments Refresh {Data}.
Arguments Settle {Data} _.
Arguments run {Data} _ _.
Arguments step {Data} _ _.
Arguments mounted {Data} _.
Arguments isSettle {Data} _.
Arguments delivered {Data} _.

End ViewRefresh.

(** The scopes for which a page asks a snapshot: the cache key starts
    with the name of the page, the active configs are the configs of
    [pool] that are not in maintenance, and the allowed ids are their
    ids, each once. *)
Definition pageScope (page : string) (interval : Z)
    (pool : ProviderConfig -> Prop) (scope : SnapshotService.SnapshotScope)
    : Prop :=
  String.prefix page (SnapshotService.cacheKey scope) = true
  /\ SnapshotService.pollIntervalMs scope = interval
  /\ (forall config,
        In config (SnapshotService.activeConfigs scope)
        <-> pool config /\ is_maintenance config = false)
  /\ NoDup (SnapshotService.allowedIds scope)
  /\ (forall i,
        In i (SnapshotService.allowedIds scope)
        <-> exists config,
              In config (SnapshotService.activeConfigs scope)
              /\ cfg_id config = i).

(** A snapshot loader that finds [newerHistory] unless it is asked to
    probe a config in maintenance. *)
Definition guardedSnapshot (scope : SnapshotService.SnapshotScope)
    (_ : RefreshMode) : HistorySnapshot :=
  if existsb is_maintenance (SnapshotService.activeConfigs scope)
  then [] else newerHistory.

(* ===================================================================== *)
(** ** The string operations *)
(* ===================================================================== *)

Lemma prefix_iff (p s : string) :
  String.prefix p s = true <-> exists rest, s = p ++ rest.
Proof.
  revert p. induction s as [|d s IH]; intros [|c p]; cbn.
  - split; [intros _; now exists ""|reflexivity].
  - split; [discriminate|intros [rest [=]]].
  - split; [intros _; now exists (String d s)|reflexivity].
  - destruct (ascii_dec c d) as [->|Hne].
    + rewrite IH. split; intros [rest H]; exists rest; congruence.
    + split; [discriminate|]. intros [rest [= ? ?]]. congruence.
Qed.

(** [includes] finds its needle wherever it occurs. *)
Lemma includes_iff (s needle : string) :
  Js.includes s needle = true
  <-> exists before after, s = before ++ needle ++ after.
Proof.
  induction s as [|c s IH]; cbn [Js.includes].
  - rewrite orb_false_r, prefix_iff. split.
    + intros [rest H]. now exists "", rest.
    + intros (before & after & H). destruct before; [now exists after|].
      discriminate.
  - rewrite orb_true_iff, prefix_iff, IH. split.
    + intros [[rest H]|(before & after & H)].
      * now exists "", rest.
      * exists (String c before), after. cbn. now rewrite H.
    + intros (before & after & H). destruct before as [|b before].
      * left. now exists after.
      * right. injection H as _ H. now exists before, after.
Qed.

(** A pattern anchored by [\b] is tried at every position, with the
    character in front of it. *)
Lemma scanBoundary_iff (here : bool -> string -> bool) (prevWord : bool)
    (s : string) :
  OpenAI.scanBoundary here prevWord s = true
  <-> exists before after,
        s = before ++ after /\ here (endsInWord prevWord before) after = true.
Proof.
  revert prevWord. induction s as [|c s IH]; intros prevWord;
    cbn [OpenAI.scanBoundary].
  - rewrite orb_false_r. split.
    + intros H. now exists "", "".
    + intros (before & after & H & Hh).
      destruct before; [|discriminate]. cbn in H. now subst.
  - rewrite orb_true_iff, IH. split.
    + intros [H|(before & after & -> & H)].
      * now exists "", (String c s).
      * now exists (String c before), after.
    + intros (before & after & H & Hh). destruct before as [|b before].
      * left. cbn in H. now subst.
      * right. injection H as <- ->. now exists before, after.
Qed.

Example hint_patterns :
  OpenAI.testGpt5 "gpt-5.1" = true
  /\ OpenAI.testGpt5 "azure/GPT-5" = true
  /\ OpenAI.testGpt5 "chatgpt-5" = false
  /\ OpenAI.testODigit "o1" = true
  /\ OpenAI.testODigit "openai/O3-mini" = true
  /\ OpenAI.testODigit "gpt-4o1" = false
  /\ OpenAI.testODigit "o0" = false
  /\ Js.testLiteralI "codex" "GPT-5-Codex" = true
  /\ Js.testLiteralI "qwq" "Qwen/QwQ-32B" = true
  /\ Js.testLiteralI "deepseek-r1" "deepseek-v3" = false.
Proof. repeat split. Qed.

Example trim_samples :
  Js.trim "  gpt-4o  " = "gpt-4o"
  /\ Js.trim (String (Js.byte 9) (String (Js.byte 10) "a b")) = "a b"
  /\ Js.trim ("x" ++ String (Js.byte 194) (String (Js.byte 160) "")) = "x"
  /\ Js.trim (String (Js.byte 227) (String (Js.byte 128)
                (String (Js.byte 128) "x"))) = "x"
  /\ Js.trim "   " = ""
  /\ Js.trim "a" = "a".
Proof. repeat split. Qed.

Example sort_is_stable :
  Js.sort (fun a b : Z * string => fst a - fst b)
    [(2, "x"); (1, "y"); (2, "z"); (1, "w")]
  = [(1, "y"); (1, "w"); (2, "x"); (2, "z")].
Proof. reflexivity. Qed.

(* ===================================================================== *)
(** ** [Array.prototype.sort] *)
(* ===================================================================== *)

Section SortFacts.
Context {A : Type} (cmp : A -> A -> Z).

Lemma insertSorted_perm (x : A) (l : list A) :
  Permutation (Js.insertSorted cmp x l) (x :: l).
Proof.
  induction l as [|y l IH]; cbn; [reflexivity|].
  destruct (cmp x y <=? 0); [reflexivity|].
  rewrite IH. apply perm_swap.
Qed.

(** Whatever the comparator, the sorted array holds the same elements. *)
Lemma sort_perm (l : list A) : Permutation (Js.sort cmp l) l.
Proof.
  induction l as [|x l IH]; cbn; [reflexivity|].
  rewrite insertSorted_perm. now constructor.
Qed.

Lemma sort_In (x : A) (l : list A) : In x (Js.sort cmp l) <-> In x l.
Proof.
  split; apply Permutation_in;
    [apply sort_perm | symmetry; apply sort_perm].
Qed.

Lemma sort_length (l : list A) :
  List.length (Js.sort cmp l) = List.length l.
Proof. apply Permutation_length, sort_perm. Qed.

(** When, on the elements that satisfy [valid], the comparator is the
    difference of a key read backwards, the result is ordered by
    decreasing key. *)
Variable key : A -> Z.
Variable valid : A -> Prop.
Hypothesis cmp_key :
  forall a b, valid a -> valid b -> cmp a b = key b - key a.

Lemma insertSorted_sorted (x : A) (l : list A) :
  valid x -> Forall valid l ->
  StronglySorted (fun a b => key b <= key a) l ->
  StronglySorted (fun a b => key b <= key a) (Js.insertSorted cmp x l).
Proof.
  intros Hx Hl Hs. induction Hs as [|y l Hs IH Hall]; cbn.
  - repeat constructor.
  - inversion Hl as [|? ? Hy Hl']; subst.
    destruct (cmp x y <=? 0) eqn:Hc.
    + apply Z.leb_le in Hc. rewrite cmp_key in Hc by assumption.
      constructor; [now constructor|].
      constructor; [lia|].
      eapply Forall_impl; [|exact Hall]. cbn. intros; lia.
    + apply Z.leb_gt in Hc. rewrite cmp_key in Hc by assumption.
      constructor; [now apply IH|].
      apply Forall_forall. intros z Hz.
      apply (Permutation_in _ (insertSorted_perm x l)) in Hz.
      destruct Hz as [<-|Hz]; [lia|].
      rewrite Forall_forall in Hall. now apply Hall.
Qed.

Lemma sort_sorted (l : list A) :
  Forall valid l ->
  StronglySorted (fun a b => key b <= key a) (Js.sort cmp l).
Proof.
  induction 1 as [|x l Hx Hl IH]; cbn; [constructor|].
  apply insertSorted_sorted; [exact Hx| |exact IH].
  apply Forall_forall. intros y Hy. apply (proj1 (sort_In y l)) in Hy.
  rewrite Forall_forall in Hl. now apply Hl.
Qed.
End SortFacts.

Lemma firstn_In {A : Type} (n : nat) (l : list A) (x : A) :
  In x (firstn n l) -> In x l.
Proof.
  revert n. induction l as [|y l IH]; intros [|n]; cbn; try tauto.
  intros [->|H]; [now left|right; eauto].
Qed.

Lemma firstn_StronglySorted {A : Type} (R : A -> A -> Prop) (n : nat)
    (l : list A) :
  StronglySorted R l -> StronglySorted R (firstn n l).
Proof.
  intros Hs. revert n.
  induction Hs as [|x l Hs IH Hall]; intros [|n]; cbn; try constructor.
  - apply IH.
  - apply Forall_forall. intros y Hy.
    rewrite Forall_forall in Hall. apply Hall.
    revert Hy. apply firstn_In.
Qed.

(* ===================================================================== *)
(** ** Properties of the probes *)
(* ===================================================================== *)

Lemma awaitWithin_fulfilled {A : Type} (timeout : Z) (e : Js.Error)
    (p : Js.Pending A) (t : Z) (a : A) :
  fulfilsBy timeout p t a -> Js.awaitWithin timeout e p = (inr a, t).
Proof.
  intros (Hat & Hlt & Hval).
  unfold Js.awaitWithin. rewrite Hat, Hval.
  apply Z.ltb_lt in Hlt. now rewrite Hlt.
Qed.

(** On expiry of the deadline the awaited operation is rejected with the
    abort error. *)
Lemma awaitWithin_expired {A : Type} (timeout : Z) (e : Js.Error)
    (p : Js.Pending A) :
  (forall t, Js.settlesAt p = Some t -> timeout <= t) ->
  Js.awaitWithin timeout e p = (inl e, timeout).
Proof.
  intros Hlate. unfold Js.awaitWithin.
  destruct (Js.settlesAt p) as [t|]; [|reflexivity].
  specialize (Hlate t eq_refl).
  apply Z.ltb_ge in Hlate. now rewrite Hlate.
Qed.

(** A read of an open stream that is fulfilled before the deadline
    settles as it would. *)
Lemma readWithin_fulfilled {A : Type} (timeout : Z) (ended : A)
    (p : Js.Pending A) (t : Z) (a : A) :
  fulfilsBy timeout p t a -> Js.readWithin timeout ended p = (inr a, t).
Proof.
  intros (Hat & Hlt & Hval).
  unfold Js.readWithin. rewrite Hat, Hval.
  apply Z.ltb_lt in Hlt. now rewrite Hlt.
Qed.

(** On expiry of the deadline the stream ends and the read is fulfilled. *)
Lemma readWithin_expired {A : Type} (timeout : Z) (ended : A)
    (p : Js.Pending A) :
  (forall t, Js.settlesAt p = Some t -> timeout <= t) ->
  Js.readWithin timeout ended p = (inr ended, timeout).
Proof.
  intros Hlate. unfold Js.readWithin.
  destruct (Js.settlesAt p) as [t|]; [|reflexivity].
  specialize (Hlate t eq_refl).
  apply Z.ltb_ge in Hlate. now rewrite Hlate.
Qed.

(** The classification shared by the probes. *)
Lemma classify_latency (n : Z) (r : CheckResult) :
  latencyMs r = Some n ->
  status r = (if n <=? 6000 then operational else degraded) ->
  message r = match (if n <=? 6000 then operational else degraded) with
              | degraded => degradedMessage n
              | _ => operationalMessage n
              end ->
  classifiedBy r n.
Proof.
  intros Hl Hs Hm. unfold classifiedBy. split; [exact Hl|].
  destruct (n <=? 6000) eqn:Hle.
  - apply Z.leb_le in Hle. split; [auto|lia].
  - apply Z.leb_gt in Hle. split; [lia|auto].
Qed.

Lemma anthropic_check_classified (timeout : Z)
    (errorMessage : Js.Error -> string) (config : ProviderConfig)
    (env : Anthropic.Run) (n : Z) :
  anthropicStreamedBy timeout env n ->
  classifiedBy (Anthropic.check timeout errorMessage config env) n.
Proof.
  intros (t1 & Hc & t2 & done & Hf & Hlast).
  unfold Anthropic.check.
  rewrite (awaitWithin_fulfilled _ _ _ _ _ Hc).
  rewrite (readWithin_fulfilled _ _ _ _ _ Hf).
  destruct done; cbn [negb].
  - subst n. now apply classify_latency.
  - destruct (Anthropic.returned env) as [closing|].
    + rewrite (readWithin_fulfilled _ _ _ _ _ Hlast).
      now apply classify_latency.
    + subst n. now apply classify_latency.
Qed.

(** C3. For every probe whose streaming request succeeds, the status is
    [operational] with message "流式响应正常 (<n>ms)" when the elapsed
    time [n] is at most 6000 ms, 6000 ms included, and [degraded] with
    message "响应成功但耗时 <n>ms" when it exceeds 6000 ms. *)
Theorem successful_probe_classified (config : ProviderConfig)
    (run : ProbeRun) (n : Z) :
  succeedsAt run n -> classifiedBy (runProbe config run) n.
Proof.
  destruct run as [extractMessage params env | env | env | env]; cbn.
  - intros (t1 & response & parsing & parsed & Hf & Hok & Hbody & Hp).
    unfold StreamCheck.runStreamCheck.
    rewrite (awaitWithin_fulfilled _ _ _ _ _ Hf).
    rewrite Hok, Hbody. cbn [negb].
    rewrite (awaitWithin_fulfilled _ _ _ _ _ Hp).
    now apply classify_latency.
  - intros (t1 & Hc & Hs).
    unfold OpenAI.checkOpenAI.
    rewrite (awaitWithin_fulfilled _ _ _ _ _ Hc).
    rewrite (readWithin_fulfilled _ _ _ _ _ Hs).
    now apply classify_latency.
  - apply anthropic_check_classified.
  - apply anthropic_check_classified.
Qed.

Lemma fulfilsBy_intro {A : Type} (timeout t : Z) (a : A) :
  t < timeout -> fulfilsBy timeout (Js.mkPending (Some t) (inr a)) t a.
Proof. intros H. repeat split; [exact H]. Qed.

(** A stream that ends exactly 6000 ms after the start, on each probe. *)
Lemma successful_probe_classified_witness :
  (succeedsAt (StreamRun (fun _ => None) sampleParams (streamRunOf 6000)) 6000
   /\ status (runProbe sampleConfig
                (StreamRun (fun _ => None) sampleParams (streamRunOf 6000)))
      = operational)
  /\ (succeedsAt (OpenAIRun (openAIRunOf sdkAbortError 6000)) 6000
      /\ message (runProbe sampleConfig
                    (OpenAIRun (openAIRunOf sdkAbortError 6000)))
         = "流式响应正常 (6000ms)")
  /\ (succeedsAt (AnthropicRun (anthropicRunOf sdkAbortError 9200)) 9200
      /\ message (runProbe sampleConfig
                    (AnthropicRun (anthropicRunOf sdkAbortError 9200)))
         = "响应成功但耗时 9200ms").
Proof.
  assert (H1 : succeedsAt
                 (StreamRun (fun _ => None) sampleParams (streamRunOf 6000))
                 6000).
  { cbn. eexists _, _, _, _. split; [apply fulfilsBy_intro; reflexivity|].
    cbn. split; [reflexivity|]. split; [reflexivity|].
    apply fulfilsBy_intro; reflexivity. }
  assert (H2 : succeedsAt (OpenAIRun (openAIRunOf sdkAbortError 6000)) 6000).
  { cbn. exists 300. split; apply fulfilsBy_intro; reflexivity. }
  assert (H3 : succeedsAt (AnthropicRun (anthropicRunOf sdkAbortError 9200))
                 9200).
  { cbn. exists 300. split; [apply fulfilsBy_intro; reflexivity|].
    exists 9200, false. split; apply fulfilsBy_intro; reflexivity. }
  split; [|split].
  - split; [exact H1|].
    destruct (successful_probe_classified sampleConfig _ _ H1)
      as (_ & Hle & _).
    apply Hle. lia.
  - split; [exact H2|].
    destruct (successful_probe_classified sampleConfig _ _ H2)
      as (_ & Hle & _).
    apply Hle. lia.
  - split; [exact H3|].
    destruct (successful_probe_classified sampleConfig _ _ H3)
      as (_ & _ & Hgt).
    apply Hgt. lia.
Defined.

(** Destructs the awaits of a probe body. *)
Ltac case_awaits :=
  repeat match goal with
         | |- context [Js.awaitWithin ?t ?e ?p] =>
             destruct (Js.awaitWithin t e p) as [[?err|?val] ?at_]
         | |- context [Js.readWithin ?t ?e ?p] =>
             destruct (Js.readWithin t e p) as [[?err|?val] ?at_]
         | |- context [match ?x with Some _ => _ | None => _ end] =>
             destruct x
         | |- context [if negb ?b then _ else _] => destruct b; cbn [negb]
         | |- context [if ?n <=? ?m then _ else _] => destruct (n <=? m)
         end.

(** A probe result without a latency is a failure: [latencyMs = null]
    only when [status = failed]. *)
Lemma null_latency_only_when_failed (config : ProviderConfig)
    (run : ProbeRun) :
  latencyMs (runProbe config run) = None ->
  status (runProbe config run) = failed.
Proof.
  destruct run as [extractMessage params env | env | env | env]; cbn;
    unfold StreamCheck.runStreamCheck, OpenAI.checkOpenAI,
      Anthropic.checkAnthropic, AnthropicEarlier.checkAnthropic,
      Anthropic.check;
    case_awaits; cbn; congruence.
Qed.

(** No probe produces a maintenance record. *)
Lemma probe_never_maintenance (config : ProviderConfig) (run : ProbeRun) :
  status (runProbe config run) <> maintenance.
Proof.
  destruct run as [extractMessage params env | env | env | env]; cbn;
    unfold StreamCheck.runStreamCheck, OpenAI.checkOpenAI,
      Anthropic.checkAnthropic, AnthropicEarlier.checkAnthropic,
      Anthropic.check;
    case_awaits; cbn; congruence.
Qed.

(** The probes built on a vendor SDK report no latency on failure. *)
Lemma sdk_failure_has_no_latency (config : ProviderConfig) (run : ProbeRun) :
  match run with StreamRun _ _ _ => False | _ => True end ->
  status (runProbe config run) = failed ->
  latencyMs (runProbe config run) = None.
Proof.
  destruct run as [extractMessage params env | env | env | env]; cbn;
    [tauto| | |]; intros _;
    unfold OpenAI.checkOpenAI, Anthropic.checkAnthropic,
      AnthropicEarlier.checkAnthropic, Anthropic.check;
    case_awaits; cbn; congruence.
Qed.

(** The generic stream check reports no latency when the failure is an
    exception: a rejected fetch, an aborted request, a missing body. *)
Lemma stream_check_rejected_fetch (extractMessage : string -> option string)
    (config : ProviderConfig) (params : StreamCheck.StreamCheckParams)
    (env : StreamCheck.Run) (err : Js.Error) (t : Z) :
  Js.awaitWithin StreamCheck.DEFAULT_TIMEOUT_MS Js.fetchAbortError
    (StreamCheck.fetched env) = (inl err, t) ->
  let r := StreamCheck.runStreamCheck extractMessage config params env in
  status r = failed /\ latencyMs r = None.
Proof.
  intros Hrej. cbn. unfold StreamCheck.runStreamCheck. rewrite Hrej.
  now split.
Qed.

(** C1. A failed result carries no latency, and a result without latency
    is failed.  The generic stream check breaks the first half: on an HTTP
    error response it returns [status = failed] together with the elapsed
    time as [latencyMs].  Here the gateway answers HTTP 500 after 120 ms. *)
Theorem http_error_failure_keeps_latency
    (extractMessage : string -> option string) (config : ProviderConfig)
    (params : StreamCheck.StreamCheckParams) :
  let r :=
    StreamCheck.runStreamCheck extractMessage config params http500Run in
  status r = failed /\ latencyMs r = Some 120.
Proof. cbn. split; reflexivity. Qed.

(** The deadline of the generic stream check is 45 s, and its expiry
    yields "请求超时". *)
Lemma stream_check_deadline (extractMessage : string -> option string)
    (config : ProviderConfig) (params : StreamCheck.StreamCheckParams)
    (env : StreamCheck.Run) :
  (forall t, Js.settlesAt (StreamCheck.fetched env) = Some t -> 45000 <= t) ->
  let r := StreamCheck.runStreamCheck extractMessage config params env in
  status r = failed /\ latencyMs r = None /\ message r = "请求超时".
Proof.
  intros Hlate. cbn. unfold StreamCheck.runStreamCheck.
  rewrite awaitWithin_expired by exact Hlate.
  repeat split.
Qed.

(** The deadline of the Anthropic probe is 45 s; when it expires while
    the request is pending, the result is "请求超时" if the SDK rejects
    with an abort-like error. *)
Lemma anthropic_deadline (config : ProviderConfig) (env : Anthropic.Run) :
  (forall t, Js.settlesAt (Anthropic.created env) = Some t -> 45000 <= t) ->
  Anthropic.isAbortLikeError (Anthropic.abortError env) = true ->
  let r := Anthropic.checkAnthropic config env in
  status r = failed /\ latencyMs r = None /\ message r = "请求超时".
Proof.
  intros Hlate Habort. cbn.
  unfold Anthropic.checkAnthropic, Anthropic.check.
  rewrite awaitWithin_expired by exact Hlate.
  cbn. unfold Anthropic.getAnthropicErrorMessage. rewrite Habort.
  repeat split.
Qed.

(** When the deadline of the OpenAI probe expires while the request is
    pending, the result is a failure whose message is "请求超时" only if
    the error the SDK throws is named "AbortError". *)
Lemma openai_pending_request_expires (config : ProviderConfig)
    (env : OpenAI.Run) :
  (forall t, Js.settlesAt (OpenAI.created env) = Some t -> 15000 <= t) ->
  let r := OpenAI.checkOpenAI config env in
  status r = failed /\ latencyMs r = None
  /\ message r =
       (if String.eqb (Js.name (OpenAI.abortError env)) "AbortError"
        then "请求超时"
        else Js.orString (Js.message (OpenAI.abortError env)) "未知错误").
Proof.
  intros Hlate. cbn. unfold OpenAI.checkOpenAI.
  rewrite awaitWithin_expired by exact Hlate.
  repeat split.
Qed.

(** With the abort error of the SDK the message is the SDK's own. *)
Example openai_probe_abort_message :
  message (OpenAI.checkOpenAI sampleConfig (openAIStalledRun sdkAbortError))
  = "Request was aborted.".
Proof. reflexivity. Qed.

(** On the probes built on a vendor SDK, a deadline that expires while
    the stream is open is not reported as a failure: the stream ends, the
    probe takes its success path and returns [degraded] with the deadline
    as latency. *)
Lemma expiry_mid_stream_is_degraded (config : ProviderConfig)
    (run : ProbeRun) :
  expiresMidStream run ->
  let r := runProbe config run in
  status r = degraded
  /\ latencyMs r = Some (probeDeadline run)
  /\ message r = degradedMessage (probeDeadline run).
Proof.
  destruct run as [extractMessage params env | env | env | env];
    cbn [expiresMidStream runProbe probeDeadline]; [tauto| | |];
    intros [[t1 Hc] Hlate]; cbn zeta;
    unfold OpenAI.checkOpenAI, Anthropic.checkAnthropic,
      AnthropicEarlier.checkAnthropic, Anthropic.check;
    rewrite (awaitWithin_fulfilled _ _ _ _ _ Hc);
    rewrite readWithin_expired by exact Hlate;
    repeat split.
Qed.

(** The earlier Anthropic probe cuts a stream whose first event would
    come after 20 s. *)
Lemma anthropic_earlier_deadline (config : ProviderConfig)
    (abortError : Js.Error) :
  let r :=
    AnthropicEarlier.checkAnthropic config (anthropicRunOf abortError 20000)
  in
  AnthropicEarlier.DEFAULT_TIMEOUT_MS = 15000
  /\ status r = degraded /\ latencyMs r = Some 15000.
Proof. cbn. repeat split. Qed.

(** C2. Every probe has a deadline of 45 s and on its expiry returns
    [failed] with message "请求超时".  The OpenAI probe breaks it: its
    deadline is 15 s, and its expiry while the stream is read is not
    reported as a failure.  A stream that opens after 300 ms and would
    end 20 s after the start is cut at 15 s; the loop over it ends
    without an error, and the result is [degraded] with a latency of
    15000 ms and the message "响应成功但耗时 15000ms". *)
Theorem openai_probe_deadline_is_15s (config : ProviderConfig)
    (abortError : Js.Error) :
  let r := OpenAI.checkOpenAI config (openAIRunOf abortError 20000) in
  probeDeadline (OpenAIRun (openAIRunOf abortError 20000)) = 15000
  /\ status r = degraded
  /\ latencyMs r = Some 15000
  /\ message r = "响应成功但耗时 15000ms".
Proof. cbn. repeat split. Qed.

(* ===================================================================== *)
(** ** Model preferences of the OpenAI probe *)
(* ===================================================================== *)

Lemma string_app_nil_r (s : string) : s ++ "" = s.
Proof. induction s as [|c s IH]; cbn; [reflexivity|now rewrite IH]. Qed.

Lemma string_app_assoc (a b c : string) : (a ++ b) ++ c = a ++ (b ++ c).
Proof. induction a as [|x a IH]; cbn; [reflexivity|now rewrite IH]. Qed.

Lemma revOnto_app (s acc : string) :
  Js.revOnto s acc = Js.reverse s ++ acc.
Proof.
  unfold Js.reverse. revert acc.
  induction s as [|c s IH]; intros acc; cbn; [reflexivity|].
  rewrite (IH (String c acc)), (IH (String c "")).
  now rewrite string_app_assoc.
Qed.

Lemma reverse_cons (c : ascii) (s : string) :
  Js.reverse (String c s) = Js.reverse s ++ String c "".
Proof. unfold Js.reverse at 1. cbn. apply revOnto_app. Qed.

Lemma toLowerCase_app (a b : string) :
  Js.toLowerCase (a ++ b) = Js.toLowerCase a ++ Js.toLowerCase b.
Proof. induction a as [|c a IH]; cbn; [reflexivity|now rewrite IH]. Qed.

Lemma hasChar_app (c : ascii) (a b : string) :
  hasChar c (a ++ b) = hasChar c a || hasChar c b.
Proof.
  induction a as [|x a IH]; cbn; [reflexivity|].
  now rewrite IH, orb_assoc.
Qed.

(** An effort word holds no separator. *)
Lemma effortWord_no_separator (s : string) (sep : ascii) :
  isSeparator sep -> OpenAI.effortWordToEnd s = true ->
  hasChar sep (Js.toLowerCase s) = false.
Proof.
  intros Hsep. unfold OpenAI.effortWordToEnd. cbv zeta.
  intros H. repeat (apply orb_prop in H; destruct H as [H|H]);
    apply String.eqb_eq in H; rewrite H;
    destruct Hsep as [-> | ->]; reflexivity.
Qed.

Lemma effortWord_after_separator (x : string) (sep : ascii) (word : string) :
  isSeparator sep -> OpenAI.effortWordToEnd (x ++ String sep word) = false.
Proof.
  intros Hsep. apply not_true_is_false. intros H.
  apply (effortWord_no_separator _ sep Hsep) in H.
  rewrite toLowerCase_app, hasChar_app in H. cbn in H.
  assert (Hl : Js.lowerAscii sep = sep)
    by (destruct Hsep as [-> | ->]; reflexivity).
  rewrite Hl, Ascii.eqb_refl in H. cbn in H.
  now rewrite orb_true_r in H.
Qed.

(** In front of a separator, the look-ahead of [.] sees the same as in
    the text before it. *)
Lemma lineTerminatorHere_before_separator (c : ascii) (post : string)
    (sep : ascii) (word : string) :
  isSeparator sep ->
  OpenAI.lineTerminatorHere (String c post ++ String sep word)
  = OpenAI.lineTerminatorHere (String c post).
Proof.
  intros Hsep.
  destruct post as [|b [|d post]]; cbn.
  - f_equal. destruct word as [|w word]; [reflexivity|].
    destruct Hsep as [-> | ->]; cbn; now rewrite andb_false_r.
  - f_equal. destruct Hsep as [-> | ->]; cbn; now rewrite andb_false_r.
  - reflexivity.
Qed.

Lemma effortWord_directiveEffort (word : string) :
  OpenAI.effortWordToEnd word = true
  <-> exists e, directiveEffort word = Some e.
Proof.
  unfold OpenAI.effortWordToEnd, directiveEffort. cbv zeta.
  destruct (String.eqb (Js.toLowerCase word) "mini");
    [split; eauto|].
  destruct (String.eqb (Js.toLowerCase word) "minimal");
    [split; eauto|].
  destruct (String.eqb (Js.toLowerCase word) "low");
    [split; eauto|].
  destruct (String.eqb (Js.toLowerCase word) "medium");
    [split; eauto|].
  destruct (String.eqb (Js.toLowerCase word) "high");
    [split; eauto|].
  cbn. split; [discriminate|]. intros [e He]. discriminate.
Qed.

(** The alias table reads a directive word as the specification does. *)
Lemma lookupAlias_directiveEffort (word : string) :
  OpenAI.lookupAlias OpenAI.EFFORT_ALIAS_MAP (Js.toLowerCase word)
  = directiveEffort word.
Proof.
  unfold directiveEffort. cbv zeta. cbn [OpenAI.lookupAlias
    OpenAI.EFFORT_ALIAS_MAP].
  rewrite !(String.eqb_sym _ (Js.toLowerCase word)).
  reflexivity.
Qed.

(** The matcher finds the directive of a text that ends with one. *)
Lemma matchDirectiveFrom_complete (base taken : string) (sep : ascii)
    (word : string) :
  isSeparator sep -> OpenAI.effortWordToEnd word = true ->
  hasLineTerminator base = false ->
  OpenAI.matchDirectiveFrom taken (base ++ String sep word)
  = Some (Js.reverse taken ++ base, word).
Proof.
  intros Hsep Hword. revert taken.
  induction base as [|c base IH]; intros taken Hlt.
  - cbn. rewrite Hword, string_app_nil_r.
    destruct Hsep as [-> | ->]; reflexivity.
  - cbn [append OpenAI.matchDirectiveFrom].
    rewrite (effortWord_after_separator base sep word Hsep), andb_false_r.
    cbn [hasLineTerminator] in Hlt. apply orb_false_elim in Hlt.
    destruct Hlt as [Hhere Hrest].
    change (String c (base ++ String sep word))
      with (String c base ++ String sep word).
    rewrite (lineTerminatorHere_before_separator c base sep word Hsep), Hhere.
    cbn [append]. rewrite (IH (String c taken) Hrest), reverse_cons.
    now rewrite string_app_assoc.
Qed.

(** What the matcher finds is a directive at the end of the text. *)
Lemma matchDirectiveFrom_sound (s taken b w : string) :
  OpenAI.matchDirectiveFrom taken s = Some (b, w) ->
  exists base sep,
    s = base ++ String sep w /\ isSeparator sep
    /\ OpenAI.effortWordToEnd w = true
    /\ hasLineTerminator base = false
    /\ b = Js.reverse taken ++ base.
Proof.
  revert taken. induction s as [|c rest IH]; intros taken;
    cbn [OpenAI.matchDirectiveFrom]; [discriminate|].
  destruct ((Ascii.eqb c "@" || Ascii.eqb c "#")
            && OpenAI.effortWordToEnd rest) eqn:Hhere.
  - intros [= <- <-]. apply andb_prop in Hhere. destruct Hhere as [Hc Hw].
    exists "", c. rewrite string_app_nil_r. repeat split; auto.
    apply orb_prop in Hc. destruct Hc as [Hc|Hc];
      apply Ascii.eqb_eq in Hc; [now left|now right].
  - destruct (OpenAI.lineTerminatorHere (String c rest)) eqn:Hlt;
      [discriminate|].
    intros Hm. apply IH in Hm.
    destruct Hm as (base & sep & -> & Hsep & Hw & Hnl & ->).
    exists (String c base), sep. repeat split; auto.
    + cbn [hasLineTerminator]. rewrite Hnl, orb_false_r.
      rewrite <- Hlt. symmetry.
      exact (lineTerminatorHere_before_separator c base sep w Hsep).
    + now rewrite reverse_cons, string_app_assoc.
Qed.

Lemma app_cons_not_empty (a : string) (c : ascii) (b : string) :
  String.eqb (a ++ String c b) "" = false.
Proof. destruct a; reflexivity. Qed.

Lemma endsWithDirective_has_separator (s base : string)
    (e : OpenAI.ReasoningEffortValue) :
  endsWithDirective s base e ->
  hasChar "@" s || hasChar "#" s = true.
Proof.
  intros (sep & word & -> & Hsep & _).
  rewrite !hasChar_app. cbn.
  destruct Hsep as [-> | ->]; cbn;
    rewrite ?orb_true_r; reflexivity.
Qed.

Lemma matchDirective_of_directive (t base : string)
    (e : OpenAI.ReasoningEffortValue) :
  endsWithDirective t base e -> hasLineTerminator base = false ->
  exists word,
    OpenAI.matchDirective t = Some (base, word)
    /\ directiveEffort word = Some e.
Proof.
  intros (sep & word & -> & Hsep & He) Hnl.
  exists word. split; [|exact He].
  unfold OpenAI.matchDirective.
  rewrite (matchDirectiveFrom_complete base "" sep word Hsep); auto.
  apply effortWord_directiveEffort. now exists e.
Qed.

Lemma matchDirective_none (t : string) :
  (forall base e, endsWithDirective t base e ->
     hasLineTerminator base = true) ->
  OpenAI.matchDirective t = None.
Proof.
  intros Hno.
  destruct (OpenAI.matchDirective t) as [[b w]|] eqn:Hm; [|reflexivity].
  apply matchDirectiveFrom_sound in Hm.
  destruct Hm as (base & sep & -> & Hsep & Hw & Hnl & _).
  apply effortWord_directiveEffort in Hw. destruct Hw as [e He].
  assert (Hd : endsWithDirective (base ++ String sep w) base e)
    by (exists sep, w; auto).
  rewrite (Hno base e Hd) in Hnl. discriminate.
Qed.

(** The claim of C7 as it is stated fails at the model "@high": it ends
    with the directive [@high] after the empty base, and the probe
    transmits "@high", not the model with the suffix stripped. *)
Lemma bare_directive_model_not_stripped :
  endsWithDirective "@high" "" OpenAI.high
  /\ OpenAI.requestModel (OpenAI.resolveModelPreferences "@high") = "@high"
  /\ ~ preferencesAsStated "@high" (OpenAI.resolveModelPreferences "@high").
Proof.
  assert (Hd : endsWithDirective "@high" "" OpenAI.high).
  { exists "@"%char, "high". repeat split. now left. }
  split; [exact Hd|]. split; [reflexivity|].
  intros (Hdir & _). destruct (Hdir "" OpenAI.high Hd) as [Hm _].
  discriminate.
Qed.

(** White space around the model is not transmitted, and a directive
    followed by white space is still read. *)
Example surrounding_space_is_trimmed :
  OpenAI.resolveModelPreferences " o3-mini "
  = OpenAI.mkPrefs "o3-mini" (Some OpenAI.medium)
  /\ OpenAI.resolveModelPreferences "gpt-4@high "
     = OpenAI.mkPrefs "gpt-4" (Some OpenAI.high).
Proof. split; reflexivity. Qed.

(** C7, amended. For every model string, with [t] the model without its
    surrounding white space: if [t] is empty, the model is transmitted as
    it is and reasoning_effort is omitted; if [t] ends with '@' or '#'
    followed by one of mini|minimal|low|medium|high in any case, and no
    line terminator precedes the separator, the transmitted model is the
    text before the separator without its surrounding white space, or [t]
    itself when that text is blank, and reasoning_effort is the normalized
    effort (mini is minimal); if [t] has no such directive but matches
    /codex/i, /\bgpt-5/i, /\bo[1-9]/i, /deepseek-r1/i or /qwq/i, the
    transmitted model is [t] and reasoning_effort is medium; otherwise
    the transmitted model is [t] and reasoning_effort is omitted. *)
Theorem resolveModelPreferences_cases (model : string) :
  let t := Js.trim model in
  let r := OpenAI.resolveModelPreferences model in
  (t = "" -> r = OpenAI.mkPrefs model None)
  /\ (forall base e,
        endsWithDirective t base e -> hasLineTerminator base = false ->
        r = OpenAI.mkPrefs (Js.orString (Js.trim base) t) (Some e))
  /\ (t <> "" ->
      (forall base e, endsWithDirective t base e ->
         hasLineTerminator base = true) ->
      (hinted t = true -> r = OpenAI.mkPrefs t (Some OpenAI.medium))
      /\ (hinted t = false -> r = OpenAI.mkPrefs t None)).
Proof.
  intros t r. unfold r, OpenAI.resolveModelPreferences. fold t.
  split; [|split].
  - intros ->. reflexivity.
  - intros base e Hd Hnl.
    destruct (matchDirective_of_directive t base e Hd Hnl)
      as (word & Hm & He).
    destruct Hd as (sep & word' & Ht & _).
    rewrite Ht at 1. rewrite app_cons_not_empty.
    now rewrite Hm, lookupAlias_directiveEffort, He.
  - intros Hne Hno.
    apply String.eqb_neq in Hne. rewrite Hne.
    rewrite (matchDirective_none t Hno).
    fold (hinted t). split; intros ->; reflexivity.
Qed.

(** The transmitted payload carries the resolved preferences. *)
Lemma requestPayload_preferences (config : ProviderConfig) :
  OpenAI.payload_model (OpenAI.requestPayload config)
  = OpenAI.requestModel (OpenAI.resolveModelPreferences (cfg_model config))
  /\ OpenAI.reasoning_effort (OpenAI.requestPayload config)
     = OpenAI.reasoningEffort
         (OpenAI.resolveModelPreferences (cfg_model config)).
Proof. split; reflexivity. Qed.

(** Scenarios 4 and 5 of the specification, and a model without hint. *)
Lemma resolveModelPreferences_cases_witness :
  (endsWithDirective "gpt-5.1-codex@high" "gpt-5.1-codex" OpenAI.high
   /\ OpenAI.resolveModelPreferences "gpt-5.1-codex@high"
      = OpenAI.mkPrefs "gpt-5.1-codex" (Some OpenAI.high))
  /\ (hinted "o3-mini" = true
      /\ OpenAI.resolveModelPreferences "o3-mini"
         = OpenAI.mkPrefs "o3-mini" (Some OpenAI.medium))
  /\ (hinted "gpt-4o-mini" = false
      /\ OpenAI.resolveModelPreferences "gpt-4o-mini"
         = OpenAI.mkPrefs "gpt-4o-mini" None).
Proof.
  assert (Hd : endsWithDirective "gpt-5.1-codex@high" "gpt-5.1-codex"
                 OpenAI.high).
  { exists "@"%char, "high". repeat split. now left. }
  assert (Hno : forall s : string,
            hasChar "@" s || hasChar "#" s = false ->
            forall base e, endsWithDirective s base e ->
              hasLineTerminator base = true).
  { intros s Hs base e He.
    apply endsWithDirective_has_separator in He. congruence. }
  split; [|split].
  - split; [exact Hd|].
    exact (proj1 (proj2 (resolveModelPreferences_cases "gpt-5.1-codex@high"))
             "gpt-5.1-codex" OpenAI.high Hd eq_refl).
  - split; [reflexivity|].
    refine (proj1 (proj2 (proj2 (resolveModelPreferences_cases "o3-mini"))
                     _ (Hno "o3-mini" eq_refl)) eq_refl).
    discriminate.
  - split; [reflexivity|].
    refine (proj2 (proj2 (proj2 (resolveModelPreferences_cases "gpt-4o-mini"))
                     _ (Hno "gpt-4o-mini" eq_refl)) eq_refl).
    discriminate.
Defined.

(* ===================================================================== *)
(** ** The history store *)
(* ===================================================================== *)

(** C10. Appending the empty batch performs no store operation: neither a
    client nor an insert nor a prune is issued, and the table is
    unchanged. *)
Theorem append_empty_batch_is_silent (Table : Type)
    (backend : History.Backend Table) (w : History.World Table) :
  History.append Table backend [] w = (tt, w).
Proof. reflexivity. Qed.

(** Store actions only add to the log of issued requests. *)
Section StoreLog.
Context {Table : Type} (backend : History.Backend Table).

Lemma extends_ret {A : Type} (a : A) : extendsLog (History.ret Table a).
Proof. intros w. exists []. cbn. now rewrite app_nil_r. Qed.

Lemma extends_issue (op : History.StoreOp) :
  extendsLog (History.issue Table op).
Proof. intros w. now exists [op]. Qed.

Lemma extends_onTable {A : Type} (f : Table -> A * Table) :
  extendsLog (History.onTable Table f).
Proof.
  intros w. exists []. unfold History.onTable.
  destruct (f (History.table Table w)). cbn. now rewrite app_nil_r.
Qed.

Lemma extends_bind {A B : Type} (m : History.Store Table A)
    (k : A -> History.Store Table B) :
  extendsLog m -> (forall a, extendsLog (k a)) ->
  extendsLog (History.bind Table m k).
Proof.
  intros Hm Hk w. unfold History.bind.
  destruct (Hm w) as [r1 H1]. destruct (m w) as [a w1]. cbn in H1.
  destruct (Hk a w1) as [r2 H2].
  exists (r1 ++ r2)%list. now rewrite H2, H1, app_assoc.
Qed.

Lemma extends_fallbackPruneHistory (limit : Z) :
  extendsLog (History.fallbackPruneHistory Table backend limit).
Proof.
  unfold History.fallbackPruneHistory.
  apply extends_bind; [apply extends_issue|intros _].
  apply extends_bind.
  { intros w. exists []. cbn. now rewrite app_nil_r. }
  intros [e|data]; [apply extends_issue|].
  destruct (History.collectDeleteIds limit [] data);
    [apply extends_ret|].
  apply extends_bind; [apply extends_issue|intros _].
  apply extends_bind; [apply extends_onTable|].
  intros [e|]; [apply extends_issue|apply extends_ret].
Qed.

Lemma extends_pruneInternal (limit : Z) :
  extendsLog (History.pruneInternal Table backend limit).
Proof.
  unfold History.pruneInternal.
  apply extends_bind; [apply extends_issue|intros _].
  apply extends_bind; [apply extends_onTable|].
  intros [e|]; [|apply extends_ret].
  apply extends_bind; [apply extends_issue|intros _].
  destruct (History.isMissingFunctionError (Some e));
    [apply extends_fallbackPruneHistory|apply extends_ret].
Qed.
End StoreLog.

(** A non-empty batch does reach the store: the first requests are the
    client and the insert of one record per result. *)
Lemma append_batch_inserts (Table : Type) (backend : History.Backend Table)
    (w : History.World Table) (r : CheckResult) (results : list CheckResult) :
  exists rest,
    History.issued Table
      (snd (History.append Table backend (r :: results) w))
    = (History.issued Table w
       ++ History.CreateClient
          :: History.Insert (map History.toRecord (r :: results))
          :: rest)%list.
Proof.
  set (records := map History.toRecord (r :: results)).
  set (w2 := History.mkWorld Table (History.table Table w)
               ((History.issued Table w ++ [History.CreateClient])
                ++ [History.Insert records])%list).
  set (rest :=
         History.bind Table
           (History.onTable Table (History.insert Table backend records))
           (fun error =>
              match error with
              | Some _ => History.logError Table "写入历史记录失败"
              | None =>
                  History.pruneInternal Table backend
                    (Z.of_nat History.MAX_POINTS_PER_PROVIDER)
              end)).
  assert (Hrest : extendsLog rest).
  { apply extends_bind; [apply extends_onTable|].
    intros [e|]; [apply extends_issue|apply extends_pruneInternal]. }
  destruct (Hrest w2) as [more Hmore].
  exists more.
  change (History.append Table backend (r :: results) w) with (rest w2).
  rewrite Hmore. unfold w2. cbn [History.issued].
  now rewrite <- !app_assoc.
Qed.

(* ===================================================================== *)
(** ** History snapshots *)
(* ===================================================================== *)

(** The sample reading of dates agrees with the calendar. *)
Example iso_epoch : IsoDate.getTime "1970-01-01T00:00:00.000Z" = Some 0.
Proof. reflexivity. Qed.

Example iso_2024 :
  IsoDate.getTime "2024-01-01T00:00:00.000Z" = Some 1704067200000.
Proof. reflexivity. Qed.

Example iso_leap_day :
  IsoDate.getTime "2024-02-29T12:30:15.250Z" = Some 1709209815250.
Proof. reflexivity. Qed.

Section ObjFacts.
Context {T : Type}.

Lemma get_Some_In (o : list (string * T)) (key : string) (v : T) :
  History.get o key = Some v -> In (key, v) o.
Proof.
  induction o as [|[k w] o IH]; cbn; [discriminate|].
  destruct (String.eqb k key) eqn:Hk.
  - apply String.eqb_eq in Hk. intros [= ->]. left. now subst.
  - intros H. right. now apply IH.
Qed.

Lemma set_In (o : list (string * T)) (key : string) (v : T) (k : string)
    (w : T) :
  In (k, w) (History.set o key v) -> (k = key /\ w = v) \/ In (k, w) o.
Proof.
  induction o as [|[k' w'] o IH]; cbn.
  - intros [[= <- <-]|[]]. now left.
  - destruct (String.eqb k' key) eqn:Hk; cbn.
    + apply String.eqb_eq in Hk. intros [[= <- <-]|H]; [left|right]; auto.
    + intros [H|H]; [right; now left|].
      destruct (IH H) as [?|?]; [now left|right; now right].
Qed.

Lemma set_absent (o : list (string * T)) (key : string) (v : T) :
  History.get o key = None -> History.set o key v = (o ++ [(key, v)])%list.
Proof.
  induction o as [|[k w] o IH]; cbn; [reflexivity|].
  destruct (String.eqb k key); [discriminate|].
  intros H. now rewrite IH.
Qed.

Lemma get_app_absent (o : list (string * T)) (key : string) (v : T) :
  History.get o key = None ->
  History.get (o ++ [(key, v)])%list key = Some v.
Proof.
  induction o as [|[k w] o IH]; cbn.
  - now rewrite String.eqb_refl.
  - destruct (String.eqb k key); [discriminate|exact IH].
Qed.

Lemma set_app_absent (o : list (string * T)) (key : string) (v v' : T) :
  History.get o key = None ->
  History.set (o ++ [(key, v)])%list key v' = (o ++ [(key, v')])%list.
Proof.
  induction o as [|[k w] o IH]; cbn.
  - now rewrite String.eqb_refl.
  - destruct (String.eqb k key); [discriminate|].
    intros H. now rewrite IH.
Qed.
End ObjFacts.

(** One turn of the first loop: a new id gets a list of one result at the
    end of the object, a known id gets the result at the end of its list. *)
Lemma addRow_cases (h : HistorySnapshot) (row : History.RpcHistoryRow) :
  History.addRow h row
  = match History.get h (History.config_id row) with
    | None => (h ++ [(History.config_id row, [History.rowToResult row])])%list
    | Some l =>
        History.set h (History.config_id row)
          (l ++ [History.rowToResult row])%list
    end.
Proof.
  unfold History.addRow. cbn [id History.rowToResult].
  destruct (History.get h (History.config_id row)) as [l|] eqn:Hg.
  - now rewrite Hg.
  - rewrite (set_absent _ _ _ Hg), (get_app_absent _ _ _ Hg).
    now rewrite (set_app_absent _ _ _ _ Hg).
Qed.

Section SnapshotFacts.
Variable rows : list History.RpcHistoryRow.

Lemma addRow_fromRows (h : HistorySnapshot) (row : History.RpcHistoryRow) :
  In row rows -> fromRows rows h -> fromRows rows (History.addRow h row).
Proof.
  intros Hrow Hh key l Hin. rewrite addRow_cases in Hin.
  assert (Hnew : exists row',
             In row' rows /\ History.rowToResult row = History.rowToResult row'
             /\ History.config_id row' = History.config_id row)
    by (exists row; auto).
  destruct (History.get h (History.config_id row)) as [l0|] eqn:Hg.
  - apply set_In in Hin. destruct Hin as [[-> ->]|Hin]; [|now apply Hh].
    apply get_Some_In in Hg. destruct (Hh _ _ Hg) as [_ Hall].
    split; [now destruct l0|].
    apply Forall_app. split; [exact Hall|]. now constructor.
  - apply in_app_or in Hin. destruct Hin as [Hin|[[= <- <-]|[]]];
      [now apply Hh|].
    split; [discriminate|]. now constructor.
Qed.

Lemma fold_addRow_fromRows (rs : list History.RpcHistoryRow)
    (h : HistorySnapshot) :
  incl rs rows -> fromRows rows h ->
  fromRows rows (fold_left History.addRow rs h).
Proof.
  revert h. induction rs as [|row rs IH]; intros h Hincl Hh; cbn;
    [exact Hh|].
  apply IH.
  - intros x Hx. apply Hincl. now right.
  - apply addRow_fromRows; [apply Hincl; now left|exact Hh].
Qed.
End SnapshotFacts.

Lemma mapRowsToSnapshot_entries (getTime : string -> option Z)
    (rows : list History.RpcHistoryRow) (key : string)
    (l : list CheckResult) :
  In (key, l) (History.mapRowsToSnapshot getTime (Some rows)) ->
  exists l0,
    In (key, l0) (fold_left History.addRow rows [])
    /\ l = firstn History.MAX_POINTS_PER_PROVIDER
             (Js.sort (History.byCheckedAtDesc getTime) l0).
Proof.
  destruct rows as [|row rows]; [intros []|].
  unfold History.mapRowsToSnapshot.
  intros Hin. apply in_map_iff in Hin.
  destruct Hin as ([k l0] & [= <- <-] & Hin).
  now exists l0.
Qed.

Lemma StronglySorted_weaken {A : Type} (R R' : A -> A -> Prop)
    (l : list A) :
  (forall a b, In a l -> In b l -> R a b -> R' a b) ->
  StronglySorted R l -> StronglySorted R' l.
Proof.
  intros Himp Hs. induction Hs as [|x l Hs IH Hall]; constructor.
  - apply IH. intros a b Ha Hb. apply Himp; now right.
  - rewrite Forall_forall in *. intros y Hy.
    apply Himp; [now left|now right|now apply Hall].
Qed.

(** The claim of C6 as it is stated fails on ties: two rows of one config
    with the same [checked_at] end in one list, which is not strictly
    descending. *)
Lemma tied_rows_not_strictly_descending :
  exists l,
    In ("A", l) (History.mapRowsToSnapshot IsoDate.getTime (Some tiedRows))
    /\ ~ strictlyDescending IsoDate.getTime l.
Proof.
  eexists. split; [left; reflexivity|].
  cbn. intros Hs.
  inversion Hs as [|? ? _ Hall]; subst.
  inversion Hall as [|? ? (ta & tb & Ha & Hb & Hlt) _]; subst.
  cbn in Ha, Hb. injection Ha as <-. injection Hb as <-. lia.
Qed.

(** C6, amended. For every row set whose [checked_at] values parse, the
    snapshot maps only ids that have at least one row, and the list of
    each id holds results of that id, has at most 60 of them and is sorted
    descending by [checkedAt]: no record is older than a record after it,
    records of equal time being allowed. *)
Theorem snapshot_rings_descending (getTime : string -> option Z)
    (rows : list History.RpcHistoryRow) (key : string)
    (l : list CheckResult) :
  (forall row, In row rows -> getTime (History.checked_at row) <> None) ->
  In (key, l) (History.mapRowsToSnapshot getTime (Some rows)) ->
  (exists row, In row rows /\ History.config_id row = key)
  /\ Forall (fun r => id r = key) l
  /\ (List.length l <= 60)%nat
  /\ descending getTime l.
Proof.
  intros Hvalid Hin.
  apply mapRowsToSnapshot_entries in Hin. destruct Hin as (l0 & Hin & ->).
  assert (Hfrom : fromRows rows (fold_left History.addRow rows [])).
  { apply fold_addRow_fromRows; [apply incl_refl|]. intros ? ? []. }
  destruct (Hfrom _ _ Hin) as (Hne & Hall).
  rewrite Forall_forall in Hall.
  set (sorted := Js.sort (History.byCheckedAtDesc getTime) l0).
  assert (Hsorted_in : forall r, In r sorted -> In r l0).
  { intros r. apply sort_In. }
  set (valid := fun r : CheckResult => getTime (checkedAt r) <> None).
  assert (Hval : Forall valid l0).
  { apply Forall_forall. intros r Hr.
    destruct (Hall r Hr) as (row & Hrow & -> & _).
    now apply Hvalid. }
  split; [|split; [|split]].
  - destruct l0 as [|r l0]; [congruence|].
    destruct (Hall r (or_introl eq_refl)) as (row & Hrow & _ & Hid).
    now exists row.
  - apply Forall_forall. intros r Hr.
    apply firstn_In, Hsorted_in in Hr.
    destruct (Hall r Hr) as (row & _ & -> & Hid). exact Hid.
  - apply firstn_le_length.
  - apply firstn_StronglySorted.
    apply StronglySorted_weaken
      with (R := fun a b => timeOf getTime b <= timeOf getTime a).
    + intros a b Ha Hb Hle.
      apply Hsorted_in in Ha, Hb.
      rewrite Forall_forall in Hval.
      pose proof (Hval a Ha) as Hva. pose proof (Hval b Hb) as Hvb.
      unfold valid, timeOf in *.
      destruct (getTime (checkedAt a)) as [ta|] eqn:Hta; [|congruence].
      destruct (getTime (checkedAt b)) as [tb|] eqn:Htb; [|congruence].
      exists ta, tb. auto.
    + apply sort_sorted with (valid := valid); [|exact Hval].
      intros a b Ha Hb. unfold valid, timeOf, History.byCheckedAtDesc in *.
      destruct (getTime (checkedAt a)); [|congruence].
      destruct (getTime (checkedAt b)); [|congruence].
      reflexivity.
Qed.

(** No rows, no ids. *)
Lemma snapshot_of_no_rows (getTime : string -> option Z) :
  History.mapRowsToSnapshot getTime None = []
  /\ History.mapRowsToSnapshot getTime (Some []) = [].
Proof. split; reflexivity. Qed.

(** Three rows of one config out of order, and the tied rows. *)
Lemma snapshot_rings_descending_witness :
  (forall row, In row orderedRows ->
     IsoDate.getTime (History.checked_at row) <> None)
  /\ In ("A", map (fun row => History.rowToResult row)
                [ sampleRow "2025-01-01T00:02:00.000Z";
                  sampleRow "2025-01-01T00:01:00.000Z";
                  sampleRow "2025-01-01T00:00:00.000Z" ])
       (History.mapRowsToSnapshot IsoDate.getTime (Some orderedRows))
  /\ descending IsoDate.getTime
       (map (fun row => History.rowToResult row)
          [ sampleRow "2025-01-01T00:02:00.000Z";
            sampleRow "2025-01-01T00:01:00.000Z";
            sampleRow "2025-01-01T00:00:00.000Z" ]).
Proof.
  assert (Hvalid : forall row, In row orderedRows ->
            IsoDate.getTime (History.checked_at row) <> None).
  { intros row [<-|[<-|[<-|[]]]]; discriminate. }
  assert (Hin : In ("A", map (fun row => History.rowToResult row)
                        [ sampleRow "2025-01-01T00:02:00.000Z";
                          sampleRow "2025-01-01T00:01:00.000Z";
                          sampleRow "2025-01-01T00:00:00.000Z" ])
                  (History.mapRowsToSnapshot IsoDate.getTime
                     (Some orderedRows))).
  { left. reflexivity. }
  split; [exact Hvalid|]. split; [exact Hin|].
  exact (proj2 (proj2 (proj2
           (snapshot_rings_descending IsoDate.getTime orderedRows "A" _
              Hvalid Hin)))).
Defined.

(* ===================================================================== *)
(** ** The snapshot service *)
(* ===================================================================== *)

(** The tests of the refresh path in the order of the code, on any
    cache entry of a scope with active configs: a cached history that is
    present and younger than the poll interval is returned, and neither
    the cache entry nor the probes are touched; otherwise an installed
    refresh is joined; otherwise a new refresh is installed, which hands
    one batch of the active configs to the probes. *)
Lemma refreshHistory_cases (scope : SnapshotService.SnapshotScope)
    (now : Z) (w : SnapshotService.World) :
  SnapshotService.activeConfigs scope <> [] ->
  let entry := SnapshotService.cacheEntry w in
  (forall h, freshAt scope now entry h ->
     SnapshotService.refreshHistory scope now w
     = (SnapshotService.Value h, w))
  /\ (forall p, staleAt scope now entry ->
        SnapshotService.inflight entry = Some p ->
        SnapshotService.refreshHistory scope now w
        = (SnapshotService.Joined p, w))
  /\ (staleAt scope now entry ->
      SnapshotService.inflight entry = None ->
      exists w',
        SnapshotService.refreshHistory scope now w
        = (SnapshotService.Installed (SnapshotService.nextPromise w), w')
        /\ SnapshotService.inflight (SnapshotService.cacheEntry w')
           = Some (SnapshotService.nextPromise w)
        /\ SnapshotService.history (SnapshotService.cacheEntry w')
           = SnapshotService.history entry
        /\ SnapshotService.lastPingAt (SnapshotService.cacheEntry w')
           = SnapshotService.lastPingAt entry
        /\ SnapshotService.probeBatches w'
           = (SnapshotService.probeBatches w
              ++ [SnapshotService.activeConfigs scope])%list).
Proof.
  intros Hactive entry.
  assert (Hlen : (List.length (SnapshotService.activeConfigs scope) =? 0)%nat
                 = false).
  { destruct (SnapshotService.activeConfigs scope); [congruence|reflexivity]. }
  assert (Hstale : staleAt scope now entry ->
            (if now - SnapshotService.lastPingAt entry
                <? SnapshotService.pollIntervalMs scope
             then SnapshotService.history entry else None) = None).
  { intros [Hnone|Hold].
    - rewrite Hnone. now destruct (_ <? _).
    - apply Z.ltb_ge in Hold. now rewrite Hold. }
  unfold SnapshotService.refreshHistory. fold entry. rewrite Hlen.
  split; [|split].
  - intros h (Hh & Hlt). apply Z.ltb_lt in Hlt. now rewrite Hlt, Hh.
  - intros p Hs Hp. now rewrite (Hstale Hs), Hp.
  - intros Hs Hp. rewrite (Hstale Hs), Hp.
    eexists. split; [reflexivity|]. cbn. repeat split.
Qed.

(** A cache entry that is stale stays so as the clock advances. *)
Lemma staleAt_later (scope : SnapshotService.SnapshotScope) (t now : Z)
    (entry : SnapshotService.PingCacheEntry) :
  t <= now -> staleAt scope t entry -> staleAt scope now entry.
Proof.
  intros Hle [Hnone|Hold]; [now left|right; lia].
Qed.

Lemma fresh_or_stale (scope : SnapshotService.SnapshotScope) (now : Z)
    (entry : SnapshotService.PingCacheEntry) :
  (exists h, freshAt scope now entry h) \/ staleAt scope now entry.
Proof.
  unfold freshAt, staleAt.
  destruct (SnapshotService.history entry) as [h|]; [|right; now left].
  destruct (Z.lt_ge_cases (now - SnapshotService.lastPingAt entry)
              (SnapshotService.pollIntervalMs scope)).
  - left. now exists h.
  - right. now right.
Qed.

Lemma fresh_not_stale (scope : SnapshotService.SnapshotScope) (now : Z)
    (entry : SnapshotService.PingCacheEntry) (h : HistorySnapshot) :
  freshAt scope now entry h -> staleAt scope now entry -> False.
Proof.
  intros [Hh Hlt] [Hnone|Hold]; [congruence|lia].
Qed.

(** A call of the refresh path changes the world only by installing a
    refresh, which it does only on a stale entry without one. *)
Lemma refreshHistory_world (scope : SnapshotService.SnapshotScope) (now : Z)
    (w : SnapshotService.World) :
  let w' := snd (SnapshotService.refreshHistory scope now w) in
  w' = w
  \/ (SnapshotService.inflight (SnapshotService.cacheEntry w) = None
      /\ staleAt scope now (SnapshotService.cacheEntry w)
      /\ SnapshotService.cacheEntry w'
         = SnapshotService.mkEntry
             (SnapshotService.lastPingAt (SnapshotService.cacheEntry w))
             (Some (SnapshotService.nextPromise w))
             (SnapshotService.history (SnapshotService.cacheEntry w))
      /\ SnapshotService.nextPromise w'
         = S (SnapshotService.nextPromise w)).
Proof.
  cbn zeta. unfold SnapshotService.refreshHistory.
  destruct (List.length _ =? 0)%nat; [now left|].
  destruct (now - _ <? _) eqn:Hfresh.
  - destruct (SnapshotService.history (SnapshotService.cacheEntry w))
      as [h|] eqn:Hh; [now left|].
    destruct (SnapshotService.inflight (SnapshotService.cacheEntry w));
      [now left|].
    right. cbn. repeat split. left. exact Hh.
  - destruct (SnapshotService.inflight (SnapshotService.cacheEntry w));
      [now left|].
    right. cbn. repeat split. right. now apply Z.ltb_ge in Hfresh.
Qed.

(** In every state of a run whose clock never steps back, a refresh that
    is installed and has not been fulfilled sits on a stale entry, and
    one that has been fulfilled sits on the history it was fulfilled
    with. *)
Lemma reachable_inflightAgrees (scope : SnapshotService.SnapshotScope)
    (s : Service) :
  Reachable scope s -> inflightAgrees scope s.
Proof.
  induction 1 as [w t Hnone
                 | s now Hs [Hsettled Hin] Hnow
                 | s p nextHistory t Hs [Hsettled Hin] Ht Hp Hopen
                 | s p t Hs [Hsettled Hin] Ht Hp Hopen
                 | s p Hs [Hsettled Hin] Hdone];
    unfold inflightAgrees; cbn [world outcome clock].
  - split; [intros q Hq; congruence|]. intros p Hp. congruence.
  - destruct (refreshHistory_world scope now (world s))
      as [Hsame|(Hnone & Hstale & Hentry & Hnext)].
    + rewrite Hsame. split; [exact Hsettled|].
      intros p Hp. destruct (Hin p Hp) as [Hlt Hcase].
      split; [exact Hlt|].
      destruct (outcome s p) as [[h|]|]; [exact Hcase| |];
        now apply (staleAt_later scope (clock s)).
    + rewrite Hentry, Hnext. split.
      * intros q Hq. specialize (Hsettled q Hq). lia.
      * intros p [= <-]. split; [lia|].
        destruct (outcome s (SnapshotService.nextPromise (world s)))
          as [o|] eqn:Ho.
        -- assert (Hlt : (SnapshotService.nextPromise (world s)
                          < SnapshotService.nextPromise (world s))%nat)
             by (apply Hsettled; congruence).
           lia.
        -- destruct Hstale as [Hh|Hold]; [now left|now right].
  - destruct (Hin p Hp) as [Hlt _]. split.
    + intros q. unfold settleAs.
      destruct (q =? p)%nat eqn:Hq; [|apply Hsettled].
      apply Nat.eqb_eq in Hq. now subst q.
    + intros p' Hp'. cbn in Hp'. rewrite Hp in Hp'. injection Hp' as <-.
      split; [exact Hlt|].
      unfold settleAs. now rewrite Nat.eqb_refl.
  - destruct (Hin p Hp) as [Hlt Hcase]. rewrite Hopen in Hcase. split.
    + intros q. unfold settleAs.
      destruct (q =? p)%nat eqn:Hq; [|apply Hsettled].
      apply Nat.eqb_eq in Hq. now subst q.
    + intros p' Hp'. rewrite Hp in Hp'. injection Hp' as <-.
      split; [exact Hlt|].
      unfold settleAs. rewrite Nat.eqb_refl.
      now apply (staleAt_later scope (clock s)).
  - unfold SnapshotService.clearInflight.
    destruct (SnapshotService.inflight
                (SnapshotService.cacheEntry (world s))) as [p0|] eqn:Hp0.
    + destruct (p0 =? p)%nat.
      * cbn. split; [exact Hsettled|]. intros p' Hp'. discriminate.
      * split; [exact Hsettled|]. intros p' Hp'. rewrite Hp0 in Hp'.
        now apply Hin.
    + split; [exact Hsettled|]. intros p' Hp'. congruence.
Qed.

(** C4. In the refresh path of a scope with active configs, in every
    state that the service reaches while the clock does not step back:
    whenever a refresh is installed, the call answers as that refresh
    does and neither installs one nor hands anything to the probes (it
    hands out the installed promise, or, when that promise is already
    fulfilled and its [finally] block has not run yet, the history it is
    fulfilled with); only otherwise, when the cached history is present
    and younger than the poll interval, that history is returned and
    nothing is touched; when neither holds a new refresh is installed,
    with one batch of probes, and only then. *)
Theorem refresh_path_as_stated (scope : SnapshotService.SnapshotScope)
    (s : Service) (now : Z) :
  Reachable scope s -> clock s <= now ->
  SnapshotService.activeConfigs scope <> [] ->
  let w := world s in
  let entry := SnapshotService.cacheEntry w in
  let r := fst (SnapshotService.refreshHistory scope now w) in
  let w' := snd (SnapshotService.refreshHistory scope now w) in
  (forall p, SnapshotService.inflight entry = Some p ->
             answersAs s p r /\ w' = w)
  /\ (SnapshotService.inflight entry = None ->
      forall h, freshAt scope now entry h ->
                r = SnapshotService.Value h /\ w' = w)
  /\ (SnapshotService.inflight entry = None ->
      staleAt scope now entry ->
      r = SnapshotService.Installed (SnapshotService.nextPromise w)
      /\ SnapshotService.inflight (SnapshotService.cacheEntry w')
         = Some (SnapshotService.nextPromise w)
      /\ SnapshotService.probeBatches w'
         = (SnapshotService.probeBatches w
            ++ [SnapshotService.activeConfigs scope])%list)
  /\ (forall p, r = SnapshotService.Installed p ->
        SnapshotService.inflight entry = None /\ staleAt scope now entry).
Proof.
  intros Hreach Hnow Hactive. cbn zeta.
  destruct (refreshHistory_cases scope now (world s) Hactive)
    as (Hfresh & Hjoin & Hinstall).
  destruct (reachable_inflightAgrees scope s Hreach) as [_ Hin].
  assert (Hset : forall p,
            SnapshotService.inflight (SnapshotService.cacheEntry (world s))
            = Some p ->
            answersAs s p
              (fst (SnapshotService.refreshHistory scope now (world s)))
            /\ snd (SnapshotService.refreshHistory scope now (world s))
               = world s);
    [|split; [exact Hset|split; [|split]]].
  - intros p Hp. destruct (Hin p Hp) as [_ Hcase].
    destruct (fresh_or_stale scope now
                (SnapshotService.cacheEntry (world s)))
      as [[h Hh]|Hstale].
    + rewrite (Hfresh h Hh). cbn [fst snd]. split; [|reflexivity].
      right. exists h. split; [reflexivity|].
      destruct (outcome s p) as [[h'|]|].
      * destruct Hh as [Hh _]. congruence.
      * exfalso. apply (fresh_not_stale scope now _ h Hh).
        now apply (staleAt_later scope (clock s)).
      * exfalso. apply (fresh_not_stale scope now _ h Hh).
        now apply (staleAt_later scope (clock s)).
    + rewrite (Hjoin p Hstale Hp). cbn [fst snd].
      split; [now left|reflexivity].
  - intros _ h Hh. rewrite (Hfresh h Hh). now split.
  - intros Hnone Hstale.
    destruct (Hinstall Hstale Hnone) as (w' & Heq & Hp & _ & _ & Hb).
    rewrite Heq. cbn [fst snd]. auto.
  - intros p Hr.
    destruct (SnapshotService.inflight
                (SnapshotService.cacheEntry (world s))) as [q|] eqn:Hq.
    + destruct (Hset q eq_refl) as [[Hj|(h & Hv & _)] _]; congruence.
    + split; [reflexivity|].
      destruct (fresh_or_stale scope now
                  (SnapshotService.cacheEntry (world s)))
        as [[h Hh]|Hstale]; [|exact Hstale].
      rewrite (Hfresh h Hh) in Hr. discriminate.
Qed.

(** The three cases on a run: a second caller at 100400 while the first
    refresh is pending, a caller at 100501 when that refresh is fulfilled
    and its [finally] block has not run, and the first caller on the cold
    cache. *)
Lemma refresh_path_as_stated_witness :
  fst (SnapshotService.refreshHistory sampleScope 100400
         (world pendingService))
  = SnapshotService.Joined 0%nat
  /\ answersAs fulfilledService 0%nat
       (fst (SnapshotService.refreshHistory sampleScope 100501
               (world fulfilledService)))
  /\ fst (SnapshotService.refreshHistory sampleScope 100000 coldWorld)
     = SnapshotService.Installed 0%nat.
Proof.
  assert (Hactive : SnapshotService.activeConfigs sampleScope <> [])
    by discriminate.
  assert (Hcold : Reachable sampleScope
                    (mkService coldWorld (fun _ => None) 0)).
  { now apply reach_start. }
  assert (Hpending : Reachable sampleScope pendingService).
  { apply (reach_call sampleScope _ 100000 Hcold). cbn. lia. }
  assert (Hfulfilled : Reachable sampleScope fulfilledService).
  { apply (reach_fulfil sampleScope pendingService 0%nat sampleHistory
             100500 Hpending); [cbn; lia|reflexivity|reflexivity]. }
  split; [|split].
  - destruct (proj1 (refresh_path_as_stated sampleScope pendingService
                       100400 Hpending ltac:(cbn; lia) Hactive)
                0%nat eq_refl) as [[Hjoined|(h & Hvalue & Hdone)] _].
    + exact Hjoined.
    + discriminate Hdone.
  - exact (proj1 (proj1 (refresh_path_as_stated sampleScope
                           fulfilledService 100501 Hfulfilled
                           ltac:(cbn; lia) Hactive) 0%nat eq_refl)).
  - assert (Hstale : staleAt sampleScope 100000
                       (SnapshotService.cacheEntry coldWorld))
      by (left; reflexivity).
    exact (proj1 (proj1 (proj2 (proj2
                   (refresh_path_as_stated sampleScope
                      (mkService coldWorld (fun _ => None) 0)
                      100000 Hcold ltac:(cbn; lia) Hactive)))
                    eq_refl Hstale)).
Defined.

(** A scope without active configs refreshes to the empty snapshot. *)
Lemma refresh_empty_scope (scope : SnapshotService.SnapshotScope) (now : Z)
    (w : SnapshotService.World) :
  SnapshotService.activeConfigs scope = [] ->
  SnapshotService.refreshHistory scope now w = (SnapshotService.Value [], w).
Proof.
  intros H. unfold SnapshotService.refreshHistory. now rewrite H.
Qed.

(** Outside the refresh path nothing is probed and the cache entry is
    left alone. *)
Lemma read_only_mode_keeps_world (scope : SnapshotService.SnapshotScope)
    (stored : HistorySnapshot) (now : Z) (w : SnapshotService.World) :
  snd (SnapshotService.loadSnapshotForScope scope never stored now w) = w.
Proof.
  unfold SnapshotService.loadSnapshotForScope.
  now destruct (_ =? _)%nat.
Qed.

(* ===================================================================== *)
(** ** Timelines *)
(* ===================================================================== *)

Lemma mapIndexed_nth {A B : Type} (f : nat -> A -> B) (l : list A)
    (k i : nat) (x : A) :
  nth_error l i = Some x ->
  In (f (k + i)%nat x) (SnapshotService.mapIndexed f k l).
Proof.
  revert k i. induction l as [|y l IH]; intros k [|i] H; cbn in *;
    try discriminate.
  - injection H as ->. left. f_equal. lia.
  - right. replace (k + S i)%nat with (S k + i)%nat by lia. now apply IH.
Qed.

Lemma attachOfficialStatus_fields
    (getOfficialStatus : ProviderType -> option OfficialStatusResult)
    (r : CheckResult) :
  let r' := SnapshotService.attachOfficialStatus getOfficialStatus r in
  id r' = id r /\ name r' = name r /\ status r' = status r
  /\ latencyMs r' = latencyMs r /\ pingLatencyMs r' = pingLatencyMs r
  /\ message r' = message r /\ checkedAt r' = checkedAt r.
Proof.
  cbn. unfold SnapshotService.attachOfficialStatus.
  destruct (getOfficialStatus (type r)); cbn; repeat split.
Qed.

(** C5. For every maintenance config handed to [buildProviderTimelines],
    whatever the history holds for its id, the output has a timeline of
    that config with no items and a synthesized latest record: status
    [maintenance], no latency, no ping latency, message
    "配置处于维护模式" and [checkedAt] read from the clock. *)
Theorem maintenance_timeline_synthesized
    (getTime : string -> option Z) (localeCompare : string -> string -> Z)
    (getOfficialStatus : ProviderType -> option OfficialStatusResult)
    (clock : nat -> string) (history : HistorySnapshot)
    (maintenanceConfigs : list ProviderConfig) (i : nat)
    (config : ProviderConfig) :
  nth_error maintenanceConfigs i = Some config ->
  exists t,
    In t (SnapshotService.buildProviderTimelines getTime localeCompare
            getOfficialStatus clock history maintenanceConfigs)
    /\ tl_id t = cfg_id config
    /\ items t = []
    /\ id (latest t) = cfg_id config
    /\ name (latest t) = cfg_name config
    /\ status (latest t) = maintenance
    /\ latencyMs (latest t) = None
    /\ pingLatencyMs (latest t) = None
    /\ message (latest t) = "配置处于维护模式"
    /\ checkedAt (latest t) = clock i.
Proof.
  intros Hnth.
  exists (SnapshotService.createMaintenanceTimeline getOfficialStatus clock
            i config).
  split.
  - unfold SnapshotService.buildProviderTimelines.
    apply sort_In, in_or_app. right.
    exact (mapIndexed_nth _ _ 0%nat i config Hnth).
  - cbn [SnapshotService.createMaintenanceTimeline tl_id items latest].
    split; [reflexivity|]. split; [reflexivity|].
    pose proof (attachOfficialStatus_fields getOfficialStatus) as H.
    cbn in H.
    match goal with
    | |- context [SnapshotService.attachOfficialStatus _ ?b] =>
        destruct (H b) as (-> & -> & -> & -> & -> & -> & ->)
    end.
    cbn. repeat split.
Qed.

(** A maintenance config whose id also has stored history. *)
Lemma maintenance_timeline_synthesized_witness :
  nth_error [maintenanceConfig] 0 = Some maintenanceConfig
  /\ exists t,
       In t (SnapshotService.buildProviderTimelines IsoDate.getTime
               GroupData.defaultCompare noOfficialStatus fixedClock
               sampleHistory [maintenanceConfig])
       /\ tl_id t = "A"
       /\ items t = []
       /\ status (latest t) = maintenance
       /\ checkedAt (latest t) = "2025-01-01T00:05:00.000Z".
Proof.
  split; [reflexivity|].
  destruct (maintenance_timeline_synthesized IsoDate.getTime
              GroupData.defaultCompare noOfficialStatus fixedClock
              sampleHistory [maintenanceConfig] 0 maintenanceConfig eq_refl)
    as (t & Hin & Hid & Hitems & _ & _ & Hst & _ & _ & _ & Hat).
  exists t. repeat split; assumption.
Defined.

(* ===================================================================== *)
(** ** Group data and its endpoint *)
(* ===================================================================== *)

Lemma inGroup_matches (target : string) (config : ProviderConfig) :
  GroupData.inGroup target config = true <-> matchesGroup target config.
Proof.
  unfold GroupData.inGroup, GroupData.groupNameAbsent, matchesGroup,
    groupAbsent.
  destruct (String.eqb target UNGROUPED_KEY) eqn:Ht.
  - apply String.eqb_eq in Ht.
    destruct (cfg_groupName config) as [g|].
    + rewrite String.eqb_eq. split.
      * intros ->. left. auto.
      * intros [[_ [H|H]]|[H _]]; congruence.
    + split; [left; auto|reflexivity].
  - apply String.eqb_neq in Ht.
    destruct (cfg_groupName config) as [g|].
    + rewrite String.eqb_eq. split.
      * intros ->. right. auto.
      * intros [[H _]|[_ H]]; congruence.
    + split; [discriminate|]. intros [[H _]|[_ H]]; congruence.
Qed.

Lemma filter_nil_iff {A : Type} (f : A -> bool) (l : list A) :
  filter f l = [] <-> forall x, In x l -> f x = false.
Proof.
  induction l as [|y l IH]; cbn.
  - split; [intros _ ? []|reflexivity].
  - destruct (f y) eqn:Hy.
    + split; [discriminate|]. intros H.
      specialize (H y (or_introl eq_refl)). congruence.
    + rewrite IH. split.
      * intros H x [<-|Hx]; auto.
      * intros H x Hx. apply H. now right.
Qed.

Section GroupFacts.
Variable pollIntervalMs : Z.
Variable pollIntervalLabel : string.
Variable getTime : string -> option Z.
Variable localeCompare : string -> string -> Z.
Variable getOfficialStatus : ProviderType -> option OfficialStatusResult.
Variable clock : nat -> string.
Variable loadSnapshot :
  SnapshotService.SnapshotScope -> RefreshMode -> HistorySnapshot.
Variable dateNow : Z.
Variable decodeURIComponent : string -> option string.

Let load :=
  GroupData.loadGroupDashboardData pollIntervalMs pollIntervalLabel getTime
    localeCompare getOfficialStatus clock loadSnapshot dateNow.
Let get :=
  GroupData.GET pollIntervalMs pollIntervalLabel getTime localeCompare
    getOfficialStatus clock loadSnapshot dateNow decodeURIComponent.

(** [loadGroupDashboardData] returns null exactly when no config is in
    the requested group. *)
Lemma loadGroup_null_iff (allConfigs : list ProviderConfig)
    (target : string) (options : option RefreshMode) :
  load allConfigs target options = None
  <-> forall c, In c allConfigs -> ~ matchesGroup target c.
Proof.
  unfold load, GroupData.loadGroupDashboardData.
  destruct (filter (GroupData.inGroup target) allConfigs) as [|c0 rest]
    eqn:Hf; cbn [List.length Nat.eqb].
  - split; [|reflexivity]. intros _ c Hc Hm.
    apply inGroup_matches in Hm.
    rewrite (proj1 (filter_nil_iff _ _) Hf c Hc) in Hm. discriminate.
  - split; [discriminate|]. intros Hnone. exfalso.
    assert (Hin : In c0 (filter (GroupData.inGroup target) allConfigs))
      by (rewrite Hf; now left).
    apply filter_In in Hin. destruct Hin as [Hin Hg].
    apply (Hnone c0 Hin). now apply inGroup_matches.
Qed.

(** The data returned for a group carries its name; the ungrouped
    bucket is displayed as "未分组". *)
Lemma loadGroup_names (allConfigs : list ProviderConfig) (target : string)
    (options : option RefreshMode) (data : GroupData.GroupDashboardData) :
  load allConfigs target options = Some data ->
  GroupData.gd_groupName data = target
  /\ GroupData.displayName data
     = (if String.eqb target UNGROUPED_KEY then UNGROUPED_DISPLAY_NAME
        else target).
Proof.
  unfold load, GroupData.loadGroupDashboardData.
  destruct (List.length _ =? 0)%nat; [discriminate|].
  intros [= <-]. split; reflexivity.
Qed.

(** C8. [loadGroupDashboardData] returns null exactly when no config
    matches the requested group, the sentinel [__ungrouped__] matching
    the configs without a group name; the endpoint then answers 404 with
    the body [{"error":"分组不存在或没有配置"}]; otherwise the function
    returns the data of the group and the endpoint answers 200 with
    it. *)
Theorem group_endpoint_404_iff_no_config (allConfigs : list ProviderConfig)
    (groupName decoded : string) :
  decodeURIComponent groupName = Some decoded ->
  (forall options,
     load allConfigs decoded options = None
     <-> forall c, In c allConfigs -> ~ matchesGroup decoded c)
  /\ ((forall c, In c allConfigs -> ~ matchesGroup decoded c) ->
      get allConfigs groupName
      = Some (GroupData.mkResponse 404
                (GroupData.ErrorBody "分组不存在或没有配置")))
  /\ ((exists c, In c allConfigs /\ matchesGroup decoded c) ->
      exists data,
        load allConfigs decoded (Some always) = Some data
        /\ GroupData.gd_groupName data = decoded
        /\ get allConfigs groupName
           = Some (GroupData.mkResponse 200 (GroupData.DataBody data))).
Proof.
  intros Hdec. split; [|split].
  - intros options. apply loadGroup_null_iff.
  - intros Hnone. unfold get, GroupData.GET. rewrite Hdec.
    fold load. now rewrite (proj2 (loadGroup_null_iff _ _ _) Hnone).
  - intros (c & Hc & Hm).
    destruct (load allConfigs decoded (Some always)) as [data|] eqn:Hl.
    + exists data. split; [reflexivity|].
      split; [exact (proj1 (loadGroup_names _ _ _ _ Hl))|].
      unfold get, GroupData.GET. rewrite Hdec. fold load. now rewrite Hl.
    + exfalso. exact (proj1 (loadGroup_null_iff _ _ _) Hl c Hc Hm).
Qed.
End GroupFacts.

(** Scenario 7 and scenario 8 of the specification: an unknown group, and
    the ungrouped bucket of a config without group name. *)
Lemma group_endpoint_404_iff_no_config_witness :
  (plainDecode "unknown" = Some "unknown"
   /\ GroupData.GET 60000 "60 秒" IsoDate.getTime GroupData.defaultCompare
        noOfficialStatus fixedClock noSnapshot 0 plainDecode
        [sampleConfig; groupedConfig] "unknown"
      = Some (GroupData.mkResponse 404
                (GroupData.ErrorBody "分组不存在或没有配置")))
  /\ (plainDecode "__ungrouped__" = Some "__ungrouped__"
      /\ exists data,
           GroupData.GET 60000 "60 秒" IsoDate.getTime
             GroupData.defaultCompare noOfficialStatus fixedClock noSnapshot
             0 plainDecode [sampleConfig; groupedConfig] "__ungrouped__"
           = Some (GroupData.mkResponse 200 (GroupData.DataBody data))).
Proof.
  split.
  - split; [reflexivity|].
    refine (proj1 (proj2 (group_endpoint_404_iff_no_config 60000 "60 秒"
              IsoDate.getTime GroupData.defaultCompare noOfficialStatus
              fixedClock noSnapshot 0 plainDecode
              [sampleConfig; groupedConfig] "unknown" "unknown" eq_refl)) _).
    intros c [<-|[<-|[]]] [[H _]|[_ H]]; discriminate.
  - split; [reflexivity|].
    destruct (proj2 (proj2 (group_endpoint_404_iff_no_config 60000 "60 秒"
                IsoDate.getTime GroupData.defaultCompare noOfficialStatus
                fixedClock noSnapshot 0 plainDecode
                [sampleConfig; groupedConfig] "__ungrouped__"
                "__ungrouped__" eq_refl))) as (data & _ & _ & Hget).
    + exists sampleConfig. split; [now left|].
      left. split; [reflexivity|]. now left.
    + now exists data.
Defined.

(* ===================================================================== *)
(** ** The official status of Anthropic *)
(* ===================================================================== *)

(** What the loop over the components leaves behind. *)
Lemma scan_components (comps : list OfficialAnthropic.Component)
    (acc : OfficialAnthropic.Scan) :
  let r := fold_left OfficialAnthropic.scanComponent comps acc in
  OfficialAnthropic.affected r
  = (OfficialAnthropic.affected acc
     ++ map OfficialAnthropic.comp_name (filter affectedB comps))%list
  /\ OfficialAnthropic.hasDownComponents r
     = (OfficialAnthropic.hasDownComponents acc || existsb downB comps)
  /\ OfficialAnthropic.hasDegradedComponents r
     = (OfficialAnthropic.hasDegradedComponents acc
        || existsb degradedB comps).
Proof.
  revert acc. induction comps as [|c comps IH]; intros acc; cbn.
  - now rewrite app_nil_r, !orb_false_r.
  - destruct (IH (OfficialAnthropic.scanComponent acc c)) as (Ha & Hd & Hg).
    cbn in Ha, Hd, Hg. rewrite Ha, Hd, Hg. clear.
    unfold OfficialAnthropic.scanComponent, degradedB, downB, affectedB,
      lowerStatus.
    destruct (String.eqb (Js.toLowerCase (OfficialAnthropic.comp_status c))
                "operational"); cbn.
    + repeat split.
    + destruct (Js.includes _ "outage" || Js.includes _ "down"
                || String.eqb _ "major_outage"); cbn.
      * rewrite <- app_assoc. repeat split. now rewrite orb_true_r.
      * destruct (Js.includes _ "degraded"
                  || String.eqb _ "degraded_performance"); cbn;
          rewrite <- app_assoc; repeat split.
        now rewrite orb_true_r.
Qed.

Lemma mentions_not_operational (word : string)
    (c : OfficialAnthropic.Component) :
  Js.includes "operational" word = false ->
  mentions word c -> affectedB c = true.
Proof.
  unfold mentions, affectedB. intros Hw Hm.
  destruct (String.eqb (lowerStatus c) "operational") eqn:He;
    [|reflexivity].
  apply String.eqb_eq in He. rewrite He in Hm. congruence.
Qed.

Lemma filter_nonempty {A : Type} (f : A -> bool) (l : list A) (x : A) :
  In x l -> f x = true -> filter f l <> [].
Proof.
  intros Hin Hf Hnil.
  rewrite (proj1 (filter_nil_iff f l) Hnil x Hin) in Hf. discriminate.
Qed.

(** The claim of C9 as it is stated fails: with the indicator [none] the
    parsed status is [operational] only if every component is
    operational.  A component under maintenance makes it [unknown]. *)
Lemma indicator_none_with_maintenance_is_unknown :
  OfficialAnthropic.indicator maintenanceSummary = "none"
  /\ Forall (fun c => ~ mentions "outage" c /\ ~ mentions "degraded" c)
       (summaryComponents maintenanceSummary)
  /\ official_status
       (OfficialAnthropic.parseAnthropicSummary maintenanceSummary
          "2025-01-01T00:00:00.000Z")
     = official_unknown.
Proof.
  split; [reflexivity|]. split; [|reflexivity].
  repeat constructor; cbn; discriminate.
Qed.

(** C9, amended. The parsed official status is [operational] when the
    indicator is [none] and every component is operational; [down] when
    the indicator is [major] or [critical]; [down] when some component's
    status contains "outage"; [degraded] when the indicator is [minor] and
    no component's status contains "outage" or "down"; and at least
    [degraded] when some component's status contains "degraded".
    Indicator and component statuses are compared in lower case. *)
Theorem anthropic_summary_status (data : OfficialAnthropic.Summary)
    (checkedAt : string) :
  let indicator := Js.toLowerCase (OfficialAnthropic.indicator data) in
  let comps := summaryComponents data in
  let st :=
    official_status (OfficialAnthropic.parseAnthropicSummary data checkedAt) in
  (indicator = "none" -> Forall isOperational comps ->
   st = official_operational)
  /\ (indicator = "major" \/ indicator = "critical" -> st = official_down)
  /\ (Exists (mentions "outage") comps -> st = official_down)
  /\ (indicator = "minor" ->
      Forall (fun c => ~ mentions "outage" c /\ ~ mentions "down" c) comps ->
      st = official_degraded)
  /\ (Exists (mentions "degraded") comps ->
      st = official_degraded \/ st = official_down).
Proof.
  intros indicator comps st.
  destruct (scan_components comps (OfficialAnthropic.mkScan [] false false))
    as (Ha & Hd & Hg).
  cbn in Ha, Hd, Hg.
  assert (Hst : st =
    if String.eqb indicator "none"
       && (List.length (map OfficialAnthropic.comp_name
                          (filter affectedB comps)) =? 0)%nat
    then official_operational
    else if String.eqb indicator "critical" || String.eqb indicator "major"
            || existsb downB comps
    then official_down
    else if String.eqb indicator "minor" || existsb degradedB comps
    then official_degraded
    else official_unknown).
  { unfold st, OfficialAnthropic.parseAnthropicSummary.
    cbn [official_status]. fold comps. fold (summaryComponents data).
    fold comps. fold indicator. now rewrite Ha, Hd, Hg. }
  clearbody st indicator. clear Ha Hd Hg. subst st.
  assert (Haffected : forall c, In c comps -> affectedB c = true ->
            (List.length (map OfficialAnthropic.comp_name
                            (filter affectedB comps)) =? 0)%nat = false).
  { intros c Hc Hb. rewrite length_map.
    pose proof (filter_nonempty affectedB comps c Hc Hb) as Hne.
    destruct (filter affectedB comps); [congruence|reflexivity]. }
  split; [|split; [|split; [|split]]].
  - intros -> Hall. cbn [String.eqb Ascii.eqb Bool.eqb andb].
    replace (filter affectedB comps) with (@nil OfficialAnthropic.Component);
      [reflexivity|].
    symmetry. apply filter_nil_iff. intros c Hc.
    rewrite Forall_forall in Hall. unfold affectedB.
    now rewrite (Hall c Hc).
  - intros [-> | ->]; reflexivity.
  - intros Hex. apply Exists_exists in Hex. destruct Hex as (c & Hc & Hm).
    assert (Haff : affectedB c = true)
      by (apply (mentions_not_operational "outage"); [reflexivity|exact Hm]).
    rewrite (Haffected c Hc Haff), andb_false_r.
    assert (Hdown : existsb downB comps = true).
    { apply existsb_exists. exists c. split; [exact Hc|].
      unfold downB. rewrite Haff. unfold mentions in Hm. now rewrite Hm. }
    now rewrite Hdown, orb_true_r.
  - intros -> Hall. cbn [String.eqb Ascii.eqb Bool.eqb andb orb].
    assert (Hdown : existsb downB comps = false).
    { apply not_true_is_false. intros Hex.
      apply existsb_exists in Hex. destruct Hex as (c & Hc & Hb).
      rewrite Forall_forall in Hall. destruct (Hall c Hc) as [Ho Hdn].
      unfold downB, mentions in *.
      destruct (Js.includes (lowerStatus c) "outage") eqn:Eo;
        [now apply Ho|].
      destruct (Js.includes (lowerStatus c) "down") eqn:Ed;
        [now apply Hdn|].
      cbn in Hb. apply andb_prop in Hb. destruct Hb as [_ Hb].
      apply String.eqb_eq in Hb. rewrite Hb in Eo. discriminate. }
    now rewrite Hdown.
  - intros Hex. apply Exists_exists in Hex. destruct Hex as (c & Hc & Hm).
    assert (Haff : affectedB c = true)
      by (apply (mentions_not_operational "degraded");
          [reflexivity|exact Hm]).
    rewrite (Haffected c Hc Haff), andb_false_r.
    destruct (String.eqb indicator "critical" || String.eqb indicator "major"
              || existsb downB comps) eqn:Hdn; [now right|left].
    assert (Hdeg : existsb degradedB comps = true).
    { apply existsb_exists. exists c. split; [exact Hc|].
      apply orb_false_elim in Hdn. destruct Hdn as [_ Hdn].
      assert (Hnd : downB c = false).
      { apply not_true_is_false. intros Hb.
        assert (existsb downB comps = true)
          by (apply existsb_exists; now exists c).
        congruence. }
      unfold degradedB. rewrite Haff, Hnd. unfold mentions in Hm.
      now rewrite Hm. }
    now rewrite Hdeg, orb_true_r.
Qed.

(** The five cases on summaries of the status page. *)
Lemma anthropic_summary_status_witness :
  (Forall isOperational (summaryComponents calmSummary)
   /\ official_status
        (OfficialAnthropic.parseAnthropicSummary calmSummary "") =
      official_operational)
  /\ official_status
       (OfficialAnthropic.parseAnthropicSummary majorSummary "")
     = official_down
  /\ (Exists (mentions "outage") (summaryComponents outageSummary)
      /\ official_status
           (OfficialAnthropic.parseAnthropicSummary outageSummary "")
         = official_down)
  /\ (Forall (fun c => ~ mentions "outage" c /\ ~ mentions "down" c)
        (summaryComponents degradedSummary)
      /\ official_status
           (OfficialAnthropic.parseAnthropicSummary degradedSummary "")
         = official_degraded).
Proof.
  assert (H1 : Forall isOperational (summaryComponents calmSummary))
    by (repeat constructor).
  assert (H3 : Exists (mentions "outage") (summaryComponents outageSummary))
    by (left; reflexivity).
  assert (H4 : Forall (fun c => ~ mentions "outage" c /\ ~ mentions "down" c)
                 (summaryComponents degradedSummary))
    by (repeat constructor; cbn; discriminate).
  split; [|split; [|split]].
  - split; [exact H1|].
    exact (proj1 (anthropic_summary_status calmSummary "") eq_refl H1).
  - exact (proj1 (proj2 (anthropic_summary_status majorSummary ""))
             (or_introl eq_refl)).
  - split; [exact H3|].
    exact (proj1 (proj2 (proj2 (anthropic_summary_status outageSummary "")))
             H3).
  - split; [exact H4|].
    exact (proj1 (proj2 (proj2 (proj2
             (anthropic_summary_status degradedSummary ""))))
             eq_refl H4).
Defined.

(* ===================================================================== *)
(** ** Invariants of probe results *)
(* ===================================================================== *)

Ltac unfold_probes :=
  unfold StreamCheck.runStreamCheck, OpenAI.checkOpenAI,
    Anthropic.checkAnthropic, AnthropicEarlier.checkAnthropic,
    Anthropic.check.

(** X1. Whatever the outcome, a probe result names its config (id, name,
    type, model), carries the latency of the concurrent endpoint ping and
    the clock reading of the run, and has neither a group name nor an
    official status. *)
Theorem probe_result_echoes_config (config : ProviderConfig)
    (run : ProbeRun) :
  let r := runProbe config run in
  id r = cfg_id config /\ name r = cfg_name config
  /\ type r = cfg_type config /\ model r = cfg_model config
  /\ pingLatencyMs r = probePing run /\ checkedAt r = probeClock run
  /\ groupName r = None /\ officialStatus r = None.
Proof.
  destruct run as [extractMessage params env | env | env | env]; cbn;
    unfold_probes; case_awaits; cbn; repeat split.
Qed.

Lemma orString_not_empty (a b : string) : b <> "" -> Js.orString a b <> "".
Proof.
  intros Hb. unfold Js.orString.
  destruct (String.eqb a "") eqn:Ha; [exact Hb|].
  now apply String.eqb_neq.
Qed.

Lemma orElse_not_empty (a : option string) (b : string) :
  b <> "" -> Js.orElse a b <> "".
Proof.
  intros Hb. destruct a; cbn; [now apply orString_not_empty|exact Hb].
Qed.

(** X2. Whatever the outcome, the status of a probe result agrees with
    its latency: an operational result has a latency of at most 6000 ms, a
    degraded result a latency above 6000 ms, each with the message built
    from that latency; no result is a maintenance record. *)
Theorem probe_status_agrees_with_latency (config : ProviderConfig)
    (run : ProbeRun) :
  let r := runProbe config run in
  match status r with
  | operational =>
      exists n, latencyMs r = Some n /\ n <= 6000
                /\ message r = operationalMessage n
  | degraded =>
      exists n, latencyMs r = Some n /\ 6000 < n
                /\ message r = degradedMessage n
  | failed => True
  | maintenance => False
  end.
Proof.
  destruct run as [extractMessage params env | env | env | env]; cbn;
    unfold_probes;
    repeat match goal with
      | |- context [Js.awaitWithin ?t ?e ?p] =>
          destruct (Js.awaitWithin t e p) as [[?err|?val] ?at_]
      | |- context [Js.readWithin ?t ?e ?p] =>
          destruct (Js.readWithin t e p) as [[?err|?val] ?at_]
      | |- context [match ?x with Some _ => _ | None => _ end] =>
          destruct x
      | |- context [if negb ?b then _ else _] => destruct b; cbn [negb]
      | |- context [if ?n <=? ?m then _ else _] =>
          destruct (n <=? m) eqn:?Hle
      end; cbn; auto;
    try (apply Z.leb_le in Hle; eexists; repeat split; [exact Hle]);
    try (apply Z.leb_gt in Hle; eexists; repeat split; [exact Hle]).
Qed.

(** X3. No probe returns an empty message: a failure is reported with the
    timeout text, the text of the error, the text drawn from the error
    body, the HTTP status or "未知错误". *)
Theorem probe_message_never_empty (config : ProviderConfig)
    (run : ProbeRun) :
  message (runProbe config run) <> "".
Proof.
  destruct run as [extractMessage params env | env | env | env]; cbn;
    unfold_probes;
    unfold AnthropicEarlier.errorMessage, Anthropic.getAnthropicErrorMessage;
    case_awaits; cbn [message];
    repeat match goal with
      | |- context [if ?b then _ else _] => destruct b
      end;
    try discriminate;
    try (apply orString_not_empty; discriminate);
    try (apply orElse_not_empty; discriminate).
Qed.

(* ===================================================================== *)
(** ** Reading and pruning the history *)
(* ===================================================================== *)

Section ObjLookup.
Context {T : Type}.

Lemma get_set_same (o : list (string * T)) (key : string) (v : T) :
  History.get (History.set o key v) key = Some v.
Proof.
  induction o as [|[k w] o IH]; cbn.
  - now rewrite String.eqb_refl.
  - destruct (String.eqb k key) eqn:Hk; cbn; now rewrite Hk.
Qed.

Lemma get_set_other (o : list (string * T)) (key c : string) (v : T) :
  key <> c -> History.get (History.set o key v) c = History.get o c.
Proof.
  intros Hne. induction o as [|[k w] o IH]; cbn.
  - apply String.eqb_neq in Hne. now rewrite Hne.
  - destruct (String.eqb k key) eqn:Hk; cbn.
    + apply String.eqb_eq in Hk. subst k.
      apply String.eqb_neq in Hne. now rewrite Hne.
    + now rewrite IH.
Qed.

Lemma get_None_keys (o : list (string * T)) (key : string) :
  History.get o key = None <-> ~ In key (map fst o).
Proof.
  induction o as [|[k w] o IH]; cbn; [tauto|].
  destruct (String.eqb k key) eqn:Hk.
  - apply String.eqb_eq in Hk. split; [discriminate|]. intros H.
    exfalso. apply H. now left.
  - apply String.eqb_neq in Hk. rewrite IH. tauto.
Qed.

Lemma set_keys_present (o : list (string * T)) (key : string) (v w : T) :
  History.get o key = Some w ->
  map fst (History.set o key v) = map fst o.
Proof.
  induction o as [|[k x] o IH]; cbn; [discriminate|].
  destruct (String.eqb k key) eqn:Hk; cbn; [reflexivity|].
  intros H. now rewrite IH.
Qed.
End ObjLookup.

Lemma addResult_cases (h : HistorySnapshot) (r : CheckResult) :
  HistoryFetch.addResult h r
  = match History.get h (id r) with
    | None => (h ++ [(id r, [r])])%list
    | Some l => History.set h (id r) (l ++ [r])%list
    end.
Proof.
  unfold HistoryFetch.addResult.
  destruct (History.get h (id r)) as [l|] eqn:Hg.
  - now rewrite Hg.
  - rewrite (set_absent _ _ _ Hg), (get_app_absent _ _ _ Hg).
    now rewrite (set_app_absent _ _ _ _ Hg).
Qed.

Lemma addResult_get (h : HistorySnapshot) (r : CheckResult) (c : string) :
  History.get (HistoryFetch.addResult h r) c
  = if String.eqb (id r) c
    then Some (match History.get h c with
               | Some l => l ++ [r]
               | None => [r]
               end)%list
    else History.get h c.
Proof.
  rewrite addResult_cases.
  destruct (String.eqb (id r) c) eqn:Hc.
  - apply String.eqb_eq in Hc. subst c.
    destruct (History.get h (id r)) as [l|] eqn:Hg.
    + apply get_set_same.
    + rewrite <- (set_absent _ _ _ Hg). apply get_set_same.
  - apply String.eqb_neq in Hc.
    destruct (History.get h (id r)) as [l|] eqn:Hg.
    + now apply get_set_other.
    + rewrite <- (set_absent _ _ _ Hg). now apply get_set_other.
Qed.

Lemma addResult_keys_NoDup (h : HistorySnapshot) (r : CheckResult) :
  NoDup (map fst h) -> NoDup (map fst (HistoryFetch.addResult h r)).
Proof.
  intros Hnd. rewrite addResult_cases.
  destruct (History.get h (id r)) as [l|] eqn:Hg.
  - now rewrite (set_keys_present _ _ _ _ Hg).
  - rewrite map_app. cbn. apply get_None_keys in Hg.
    apply NoDup_app; [exact Hnd|repeat constructor; intros []|].
    intros x Hx [<-|[]]. contradiction.
Qed.

(** The grouping loop files each result under its id, in arrival order. *)
Lemma fold_addResult_get (rs : list CheckResult) (h : HistorySnapshot)
    (c : string) :
  History.get (fold_left HistoryFetch.addResult rs h) c
  = match History.get h c with
    | Some l0 => Some (l0 ++ resultsOf c rs)%list
    | None =>
        match resultsOf c rs with
        | [] => None
        | l => Some l
        end
    end.
Proof.
  revert h. induction rs as [|r rs IH]; intros h; cbn [fold_left].
  - cbn. destruct (History.get h c); [now rewrite app_nil_r|reflexivity].
  - rewrite IH, addResult_get. unfold resultsOf. cbn [filter].
    destruct (String.eqb (id r) c).
    + destruct (History.get h c); [now rewrite <- app_assoc|reflexivity].
    + reflexivity.
Qed.

Lemma fold_addResult_keys_NoDup (rs : list CheckResult)
    (h : HistorySnapshot) :
  NoDup (map fst h) ->
  NoDup (map fst (fold_left HistoryFetch.addResult rs h)).
Proof.
  revert h. induction rs as [|r rs IH]; intros h Hnd; cbn; [exact Hnd|].
  now apply IH, addResult_keys_NoDup.
Qed.

Lemma sortAndCap_get (getTime : string -> option Z) (h : HistorySnapshot)
    (c : string) :
  History.get (HistoryFetch.sortAndCap getTime h) c
  = option_map
      (fun l => firstn History.MAX_POINTS_PER_PROVIDER
                  (Js.sort (History.byCheckedAtDesc getTime) l))
      (History.get h c).
Proof.
  unfold HistoryFetch.sortAndCap.
  induction h as [|[k l] h IH]; cbn; [reflexivity|].
  destruct (String.eqb k c); [reflexivity|exact IH].
Qed.

Lemma sortAndCap_keys (getTime : string -> option Z) (h : HistorySnapshot) :
  map fst (HistoryFetch.sortAndCap getTime h) = map fst h.
Proof.
  unfold HistoryFetch.sortAndCap. rewrite map_map.
  apply map_ext. now intros [k l].
Qed.

Lemma fold_addRow_addResult (rows : list History.RpcHistoryRow)
    (h : HistorySnapshot) :
  fold_left History.addRow rows h
  = fold_left HistoryFetch.addResult (map History.rowToResult rows) h.
Proof.
  revert h. induction rows as [|row rows IH]; intros h; cbn;
    [reflexivity|apply IH].
Qed.

Lemma mapRowsToSnapshot_sortAndCap (getTime : string -> option Z)
    (rows : list History.RpcHistoryRow) :
  History.mapRowsToSnapshot getTime (Some rows)
  = HistoryFetch.sortAndCap getTime
      (fold_left HistoryFetch.addResult (map History.rowToResult rows) []).
Proof.
  destruct rows as [|row rows]; [reflexivity|].
  unfold History.mapRowsToSnapshot. now rewrite fold_addRow_addResult.
Qed.

Lemma resultsOf_rows (c : string) (rows : list History.RpcHistoryRow) :
  resultsOf c (map History.rowToResult rows)
  = map History.rowToResult
      (filter (fun row => String.eqb (History.config_id row) c) rows).
Proof.
  unfold resultsOf.
  induction rows as [|row rows IH]; cbn; [reflexivity|].
  destruct (String.eqb (History.config_id row) c); cbn; now rewrite IH.
Qed.

(** What a lookup in a sorted and capped object gives, whatever the dates:
    nothing for an id without results, and otherwise some of the results
    of the id, as many as there are up to 60. *)
Lemma sortAndCap_lookup (getTime : string -> option Z)
    (rs : list CheckResult) (c : string) :
  let own := resultsOf c rs in
  let snapshot :=
    HistoryFetch.sortAndCap getTime
      (fold_left HistoryFetch.addResult rs []) in
  NoDup (map fst snapshot)
  /\ (History.get snapshot c = None <-> own = [])
  /\ (forall ring, History.get snapshot c = Some ring ->
        List.length ring = Nat.min 60 (List.length own)
        /\ incl ring own)
  /\ (own <> [] ->
      History.get snapshot c
      = Some (firstn 60 (Js.sort (History.byCheckedAtDesc getTime) own))).
Proof.
  cbn zeta. split.
  { rewrite sortAndCap_keys. apply fold_addResult_keys_NoDup. constructor. }
  rewrite sortAndCap_get, fold_addResult_get.
  cbn [History.get option_map].
  destruct (resultsOf c rs) as [|r own]; cbn [option_map].
  - split; [tauto|]. split; [discriminate|congruence].
  - split; [split; discriminate|]. split; [|reflexivity].
    set (l := r :: own). intros ring Hget.
    assert (Hring : ring
                    = firstn 60 (Js.sort (History.byCheckedAtDesc getTime) l)).
    { symmetry.
      exact (f_equal (fun o => match o with Some x => x | None => ring end)
               Hget). }
    rewrite Hring. split.
    + now rewrite length_firstn, sort_length.
    + intros x Hx. apply firstn_In in Hx. now apply sort_In in Hx.
Qed.

(** X4. The snapshot of a row set lists no id twice.  Looking an id up
    gives nothing exactly when no row has that id, and otherwise results
    of rows of that id, as many as there are such rows up to 60.  When
    the [checked_at] of every row of that id parses, these are the
    results of all the rows of that id, sorted by the comparator (newest
    first, ties in arrival order) and cut after the first 60. *)
Theorem snapshot_lookup (getTime : string -> option Z)
    (rows : list History.RpcHistoryRow) (c : string) :
  let own := filter (fun row => String.eqb (History.config_id row) c) rows in
  let snapshot := History.mapRowsToSnapshot getTime (Some rows) in
  NoDup (map fst snapshot)
  /\ (History.get snapshot c = None <-> own = [])
  /\ (forall ring, History.get snapshot c = Some ring ->
        List.length ring = Nat.min 60 (List.length own)
        /\ incl ring (map History.rowToResult own))
  /\ ((forall row, In row own ->
         getTime (History.checked_at row) <> None) ->
      own <> [] ->
      History.get snapshot c
      = Some (firstn 60
                (Js.sort (History.byCheckedAtDesc getTime)
                   (map History.rowToResult own)))).
Proof.
  cbn zeta. rewrite mapRowsToSnapshot_sortAndCap.
  destruct (sortAndCap_lookup getTime (map History.rowToResult rows) c)
    as (Hnd & Hnone & Hring & Hsorted).
  rewrite resultsOf_rows in Hnone, Hring, Hsorted.
  split; [exact Hnd|]. split; [|split].
  - rewrite Hnone. split; [apply map_eq_nil|now intros ->].
  - intros ring Hget. destruct (Hring ring Hget) as [Hlen Hincl].
    now rewrite length_map in Hlen.
  - intros _ Hown. apply Hsorted. intros H. apply map_eq_nil in H.
    contradiction.
Qed.

(** Three rows of one config, out of order. *)
Lemma snapshot_lookup_witness :
  (forall row,
     In row (filter (fun row => String.eqb (History.config_id row) "A")
               orderedRows) ->
     IsoDate.getTime (History.checked_at row) <> None)
  /\ option_map (map checkedAt)
       (History.get
          (History.mapRowsToSnapshot IsoDate.getTime (Some orderedRows)) "A")
     = Some ["2025-01-01T00:02:00.000Z"; "2025-01-01T00:01:00.000Z";
             "2025-01-01T00:00:00.000Z"].
Proof.
  assert (Hvalid : forall row,
            In row (filter (fun row => String.eqb (History.config_id row) "A")
                      orderedRows) ->
            IsoDate.getTime (History.checked_at row) <> None).
  { intros row [<-|[<-|[<-|[]]]]; vm_compute; discriminate. }
  split; [exact Hvalid|].
  rewrite (proj2 (proj2 (proj2
             (snapshot_lookup IsoDate.getTime orderedRows "A")))
             Hvalid ltac:(discriminate)).
  reflexivity.
Defined.

Lemma fold_skip_addResult (records : list HistoryFetch.JoinedRecord)
    (h : HistorySnapshot) :
  fold_left
    (fun history record =>
       match HistoryFetch.recordToResult record with
       | None => history
       | Some result => HistoryFetch.addResult history result
       end) records h
  = fold_left HistoryFetch.addResult (usableResults records) h.
Proof.
  revert h. induction records as [|record records IH]; intros h; cbn;
    [reflexivity|].
  rewrite IH. now destruct (HistoryFetch.recordToResult record).
Qed.

(** X5. The fallback read skips the records that come without their
    config and files the others by config id.  Its snapshot lists no id
    twice.  Looking an id up gives nothing exactly when no usable record
    has that id, and otherwise results of that id, as many as there are
    up to 60.  When the [checked_at] of every usable record of that id
    parses, these are the results of that id sorted by the comparator
    (newest first, ties in arrival order) and cut after the first 60. *)
Theorem fallback_snapshot_lookup (getTime : string -> option Z)
    (backend : HistoryFetch.ReadBackend) (ids : option (list string))
    (data : option (list HistoryFetch.JoinedRecord)) (c : string) :
  HistoryFetch.selectHistory backend ids = inr data ->
  let records := match data with Some l => l | None => [] end in
  let own := resultsOf c (usableResults records) in
  let snapshot :=
    fst (HistoryFetch.fallbackFetchSnapshot getTime backend ids) in
  NoDup (map fst snapshot)
  /\ (History.get snapshot c = None <-> own = [])
  /\ (forall ring, History.get snapshot c = Some ring ->
        List.length ring = Nat.min 60 (List.length own)
        /\ incl ring own)
  /\ ((forall r, In r own -> getTime (checkedAt r) <> None) ->
      own <> [] ->
      History.get snapshot c
      = Some (firstn 60 (Js.sort (History.byCheckedAtDesc getTime) own))).
Proof.
  intros Hsel. cbn zeta. unfold HistoryFetch.fallbackFetchSnapshot.
  rewrite Hsel. cbn [fst]. rewrite fold_skip_addResult.
  destruct (sortAndCap_lookup getTime
              (usableResults match data with Some l => l | None => [] end) c)
    as (Hnd & Hnone & Hring & Hsorted).
  split; [exact Hnd|]. split; [exact Hnone|]. split; [exact Hring|].
  intros _. exact Hsorted.
Qed.

(** A record of each kind through the fallback read. *)
Lemma fallback_snapshot_lookup_witness :
  HistoryFetch.selectHistory fallbackBackend (Some ["A"])
  = inr (Some [ sampleJoined "2025-01-01T00:01:00.000Z" (Some [joinedA]);
                sampleJoined "2025-01-01T00:02:00.000Z" None;
                sampleJoined "2025-01-01T00:03:00.000Z" (Some [joinedA]) ])
  /\ option_map (map checkedAt)
       (History.get
          (fst (HistoryFetch.fallbackFetchSnapshot IsoDate.getTime
                  fallbackBackend (Some ["A"])))
          "A")
     = Some ["2025-01-01T00:03:00.000Z"; "2025-01-01T00:01:00.000Z"].
Proof.
  split; [reflexivity|].
  rewrite (proj2 (proj2 (proj2
             (fallback_snapshot_lookup IsoDate.getTime fallbackBackend
                (Some ["A"]) _ "A" eq_refl)))).
  - reflexivity.
  - intros r [<-|[<-|[]]]; vm_compute; discriminate.
  - discriminate.
Defined.

Lemma filter_all_empty (l : list string) :
  (forall i, In i l -> i = "") ->
  filter (fun i => negb (String.eqb i "")) l = [].
Proof.
  intros H. apply filter_nil_iff. intros i Hi.
  now rewrite (H i Hi).
Qed.

(** X6. A read that is given ids but no non-empty one answers with the
    empty snapshot and sends nothing to the backend; any other read first
    creates a client and calls the procedure with the limit 60 and the
    non-empty ids (or no filter when no ids are given). *)
Theorem fetch_short_circuit (getTime : string -> option Z)
    (backend : HistoryFetch.ReadBackend) (ids : option (list string)) :
  (forall l, ids = Some l -> (forall i, In i l -> i = "") ->
     HistoryFetch.fetch getTime backend ids = ([], []))
  /\ ((ids = None \/ exists l i, ids = Some l /\ In i l /\ i <> "") ->
      exists rest,
        snd (HistoryFetch.fetch getTime backend ids)
        = HistoryFetch.ReadClient
          :: HistoryFetch.RpcRecent 60 (requestedIds ids) :: rest).
Proof.
  split.
  - intros l -> Hall. unfold HistoryFetch.fetch, HistoryFetch.normalizeAllowedIds.
    now rewrite (filter_all_empty l Hall).
  - intros Hsome.
    assert (Hnorm : HistoryFetch.normalizeAllowedIds ids = requestedIds ids
                    /\ requestedIds ids <> Some []).
    { destruct Hsome as [->|(l & i & -> & Hin & Hne)]; [split; [reflexivity|discriminate]|].
      unfold HistoryFetch.normalizeAllowedIds, requestedIds. cbn.
      assert (Hf : In i (filter (fun i => negb (String.eqb i "")) l)).
      { apply filter_In. split; [exact Hin|].
        apply String.eqb_neq in Hne. now rewrite Hne. }
      destruct (filter _ l) as [|x xs]; [destruct Hf|].
      split; [reflexivity|discriminate]. }
    destruct Hnorm as [Hnorm Hne].
    unfold HistoryFetch.fetch. rewrite Hnorm.
    destruct (requestedIds ids) as [[|x xs]|] eqn:Hreq; [congruence| |];
      cbn [Z.of_nat History.MAX_POINTS_PER_PROVIDER Pos.of_succ_nat Pos.succ];
      destruct (HistoryFetch.rpcRecent backend _ _) as [e|data];
      try (eexists; reflexivity);
      destruct (History.isMissingFunctionError (Some e));
      try (eexists; reflexivity);
      destruct (HistoryFetch.fallbackFetchSnapshot _ _ _);
      eexists; reflexivity.
Qed.

(** A read for ids that are all empty, and a read for one config. *)
Lemma fetch_short_circuit_witness :
  HistoryFetch.fetch IsoDate.getTime brokenBackend (Some [""; ""]) = ([], [])
  /\ exists rest,
       snd (HistoryFetch.fetch IsoDate.getTime brokenBackend
              (Some [""; "A"]))
       = HistoryFetch.ReadClient
         :: HistoryFetch.RpcRecent 60 (Some ["A"]) :: rest.
Proof.
  split.
  - refine (proj1 (fetch_short_circuit IsoDate.getTime brokenBackend
                     (Some [""; ""])) _ eq_refl _).
    intros i [<-|[<-|[]]]; reflexivity.
  - refine (proj2 (fetch_short_circuit IsoDate.getTime brokenBackend
                     (Some [""; "A"])) _).
    right. exists [""; "A"], "A". split; [reflexivity|].
    split; [right; now left|discriminate].
Defined.

(** X7. A read degrades to the empty snapshot on a backend error: when
    the procedure fails with an error that does not name a missing
    procedure, no other query is sent; when it names one, the fallback
    query is sent, and its failure gives the empty snapshot as well. *)
Theorem fetch_degrades_to_empty (getTime : string -> option Z)
    (backend : HistoryFetch.ReadBackend) (ids : option (list string))
    (error : History.PostgrestError) :
  HistoryFetch.rpcRecent backend 60 (HistoryFetch.normalizeAllowedIds ids)
  = inl error ->
  (History.isMissingFunctionError (Some error) = false ->
   fst (HistoryFetch.fetch getTime backend ids) = []
   /\ forall q, ~ In (HistoryFetch.SelectHistory q)
                  (snd (HistoryFetch.fetch getTime backend ids)))
  /\ (forall error',
        HistoryFetch.selectHistory backend
          (HistoryFetch.normalizeAllowedIds ids) = inl error' ->
        fst (HistoryFetch.fetch getTime backend ids) = []).
Proof.
  intros Hrpc. unfold HistoryFetch.fetch.
  change (Z.of_nat History.MAX_POINTS_PER_PROVIDER) with 60.
  split.
  - intros Hmiss.
    destruct (HistoryFetch.normalizeAllowedIds ids) as [[|x xs]|];
      [split; [reflexivity|intros q []]| |];
      rewrite Hrpc, Hmiss; cbn;
      (split; [reflexivity|]); intros q [H|[H|[H|[]]]]; discriminate.
  - intros error' Hsel.
    destruct (HistoryFetch.normalizeAllowedIds ids) as [[|x xs]|];
      [reflexivity| |];
      rewrite Hrpc; destruct (History.isMissingFunctionError (Some error));
      try reflexivity;
      unfold HistoryFetch.fallbackFetchSnapshot; now rewrite Hsel.
Qed.

Lemma fetch_degrades_to_empty_witness :
  HistoryFetch.rpcRecent brokenBackend 60
    (HistoryFetch.normalizeAllowedIds (Some ["A"]))
  = inl (History.mkPgError "connection refused")
  /\ HistoryFetch.fetch IsoDate.getTime brokenBackend (Some ["A"])
     = ([], [HistoryFetch.ReadClient;
             HistoryFetch.RpcRecent 60 (Some ["A"]);
             HistoryFetch.ReadLogError "获取历史快照失败"]).
Proof.
  split; [reflexivity|].
  pose proof (proj1 (fetch_degrades_to_empty IsoDate.getTime brokenBackend
                       (Some ["A"]) _ eq_refl) eq_refl) as [H _].
  destruct (HistoryFetch.fetch IsoDate.getTime brokenBackend (Some ["A"]))
    as [h ops] eqn:Hf.
  cbn in H. subst h. cbv in Hf. injection Hf as <-. reflexivity.
Defined.

Lemma collectDeleteIds_subset (limit : Z) (data : list History.PruneRow)
    (seen : list (string * Z)) (x : string) :
  In x (History.collectDeleteIds limit seen data) ->
  In x (map History.pr_id data).
Proof.
  revert seen. induction data as [|r data IH]; intros seen; cbn; [tauto|].
  destruct (_ >=? limit).
  - intros [<-|H]; [now left|right; eauto].
  - intros H. right. eauto.
Qed.

Lemma existsb_eqb_In (x : string) (l : list string) :
  existsb (String.eqb x) l = true <-> In x l.
Proof.
  rewrite existsb_exists. split.
  - intros (y & Hy & He). apply String.eqb_eq in He. now subst.
  - intros H. exists x. split; [exact H|apply String.eqb_refl].
Qed.

Lemma survivors_skip_foreign (data : list History.PruneRow) (d : string)
    (ids : list string) :
  ~ In d (map History.pr_id data) ->
  survivors data (d :: ids) = survivors data ids.
Proof.
  intros Hd. unfold survivors. apply filter_ext_in. intros r Hr. cbn.
  destruct (String.eqb (History.pr_id r) d) eqn:He; [|reflexivity].
  apply String.eqb_eq in He. exfalso. apply Hd. rewrite <- He.
  now apply in_map.
Qed.

Lemma survivors_cons_deleted (r : History.PruneRow)
    (data : list History.PruneRow) (ids : list string) :
  survivors (r :: data) (History.pr_id r :: ids)
  = survivors data (History.pr_id r :: ids).
Proof.
  unfold survivors. cbn [filter existsb].
  now rewrite String.eqb_refl.
Qed.

Lemma survivors_cons_kept (r : History.PruneRow)
    (data : list History.PruneRow) (ids : list string) :
  ~ In (History.pr_id r) ids ->
  survivors (r :: data) ids = r :: survivors data ids.
Proof.
  intros Hr. unfold survivors. cbn [filter].
  destruct (existsb (String.eqb (History.pr_id r)) ids) eqn:He;
    [|reflexivity].
  apply existsb_eqb_In in He. contradiction.
Qed.

Lemma rowsOfConfig_cons (c : string) (r : History.PruneRow)
    (l : list History.PruneRow) :
  rowsOfConfig c (r :: l)
  = if String.eqb (History.pr_config_id r) c
    then r :: rowsOfConfig c l else rowsOfConfig c l.
Proof. reflexivity. Qed.

Lemma collect_survivors (limit : Z) (data : list History.PruneRow)
    (seen : list (string * Z)) (c : string) :
  NoDup (map History.pr_id data) ->
  rowsOfConfig c (survivors data (History.collectDeleteIds limit seen data))
  = firstn (Z.to_nat (limit - seenCount seen c)) (rowsOfConfig c data).
Proof.
  revert seen. induction data as [|r data IH]; intros seen Hnd.
  - cbn. now rewrite firstn_nil.
  - inversion Hnd as [|? ? Hr Hnd']; subst.
    cbn [History.collectDeleteIds].
    fold (seenCount seen (History.pr_config_id r)).
    rewrite (rowsOfConfig_cons c r data).
    destruct (seenCount seen (History.pr_config_id r) >=? limit) eqn:Hge.
    + apply Z.geb_le in Hge.
      rewrite survivors_cons_deleted.
      rewrite (survivors_skip_foreign data _ _ Hr), (IH seen Hnd').
      destruct (String.eqb (History.pr_config_id r) c) eqn:Hc;
        [|reflexivity].
      apply String.eqb_eq in Hc. subst c.
      replace (Z.to_nat (limit - seenCount seen (History.pr_config_id r)))
        with 0%nat by lia.
      reflexivity.
    + assert (Hlt : seenCount seen (History.pr_config_id r) < limit).
      { destruct (Z.geb_spec (seenCount seen (History.pr_config_id r))
                    limit); [discriminate|lia]. }
      set (seen' := History.set seen (History.pr_config_id r)
                      (seenCount seen (History.pr_config_id r) + 1)).
      rewrite survivors_cons_kept.
      2:{ intros H. apply collectDeleteIds_subset in H. contradiction. }
      rewrite (rowsOfConfig_cons c r), (IH seen' Hnd').
      destruct (String.eqb (History.pr_config_id r) c) eqn:Hc.
      * apply String.eqb_eq in Hc. subst c.
        unfold seenCount at 1, seen'. rewrite get_set_same.
        replace (Z.to_nat (limit - seenCount seen (History.pr_config_id r)))
          with (S (Z.to_nat
                     (limit - (seenCount seen (History.pr_config_id r) + 1))))
          by lia.
        reflexivity.
      * apply String.eqb_neq in Hc.
        unfold seenCount at 1, seen'. rewrite (get_set_other _ _ _ _ Hc).
        reflexivity.
Qed.

(** X8. The fallback prune keeps, for every config, exactly the first
    [limit] of its rows in the order of the query (newest first) and
    selects all its later rows for deletion, provided the row ids are
    distinct. *)
Theorem fallback_prune_keeps_newest (limit : Z)
    (data : list History.PruneRow) (config : string) :
  NoDup (map History.pr_id data) ->
  rowsOfConfig config
    (survivors data (History.collectDeleteIds limit [] data))
  = firstn (Z.to_nat limit) (rowsOfConfig config data).
Proof.
  intros Hnd. rewrite (collect_survivors limit data [] config Hnd).
  unfold seenCount. cbn. now rewrite Z.sub_0_r.
Qed.

(** Five rows of two configs pruned to two rows each. *)
Lemma fallback_prune_keeps_newest_witness :
  NoDup (map History.pr_id samplePruneRows)
  /\ History.collectDeleteIds 2 [] samplePruneRows = ["3"]
  /\ map History.pr_id
       (rowsOfConfig "A"
          (survivors samplePruneRows
             (History.collectDeleteIds 2 [] samplePruneRows)))
     = ["5"; "4"].
Proof.
  assert (Hnd : NoDup (map History.pr_id samplePruneRows)).
  { cbn. repeat constructor; cbn; intuition discriminate. }
  split; [exact Hnd|]. split; [reflexivity|].
  now rewrite (fallback_prune_keeps_newest 2 samplePruneRows "A" Hnd).
Defined.
Lemma append_batch_steps (Table : Type) (backend : History.Backend Table)
    (w : History.World Table) (r : CheckResult) (results : list CheckResult) :
  let records := map History.toRecord (r :: results) in
  let log :=
    (History.issued Table w
     ++ [History.CreateClient; History.Insert records])%list in
  History.append Table backend (r :: results) w
  = match History.insert Table backend records (History.table Table w) with
    | (Some _, t) =>
        (tt, History.mkWorld Table t
               (log ++ [History.LogError "写入历史记录失败"])%list)
    | (None, t) =>
        History.pruneInternal Table backend 60 (History.mkWorld Table t log)
    end.
Proof.
  cbn zeta. unfold History.append. cbn [List.length Nat.eqb].
  unfold History.bind, History.createClient, History.issue, History.onTable,
    History.logError.
  cbn [History.table History.issued].
  rewrite <- app_assoc. cbn [app].
  destruct (History.insert Table backend _ (History.table Table w))
    as [[e|] t]; reflexivity.
Qed.

(** X9. A non-empty batch is inserted with one record per result, in
    order.  When the insert fails, the failure is logged, nothing else is
    sent and the table is as the failed insert left it: no prune is
    issued.  When it succeeds, the prune procedure is called next with
    the limit 60. *)
Theorem append_prunes_after_insert (Table : Type)
    (backend : History.Backend Table) (w : History.World Table)
    (r : CheckResult) (results : list CheckResult) :
  let records := map History.toRecord (r :: results) in
  let inserted :=
    History.insert Table backend records (History.table Table w) in
  let w' := snd (History.append Table backend (r :: results) w) in
  (forall e, fst inserted = Some e ->
     History.issued Table w'
     = (History.issued Table w
        ++ [History.CreateClient; History.Insert records;
            History.LogError "写入历史记录失败"])%list
     /\ History.table Table w' = snd inserted)
  /\ (fst inserted = None ->
      exists rest,
        History.issued Table w'
        = (History.issued Table w
           ++ History.CreateClient :: History.Insert records
              :: History.RpcPrune 60 :: rest)%list).
Proof.
  cbn zeta. rewrite append_batch_steps. cbn zeta.
  destruct (History.insert Table backend _ (History.table Table w))
    as [[e|] t]; cbn [fst snd].
  - split; [|discriminate]. intros e' _. cbn [History.issued History.table].
    split; [|reflexivity]. now rewrite <- app_assoc.
  - split; [discriminate|]. intros _.
    unfold History.pruneInternal.
    unfold History.bind at 1, History.issue at 1.
    cbn [History.table History.issued].
    match goal with
    | |- context [snd (?m ?w0)] =>
        assert (Hext : extendsLog m); [|destruct (Hext w0) as [rest Hrest]]
    end.
    { apply extends_bind; [apply extends_onTable|].
      intros [e|]; [|apply extends_ret].
      apply extends_bind; [apply extends_issue|intros _].
      destruct (History.isMissingFunctionError (Some e));
        [apply extends_fallbackPruneHistory|apply extends_ret]. }
    exists rest. rewrite Hrest. cbn [History.issued].
    now rewrite <- !app_assoc.
Qed.

Lemma append_prunes_after_insert_witness :
  (History.issued _
     (snd (History.append _ (listBackend true) [sampleResult "2025-01-01T00:00:00.000Z"] emptyStore))
   = [History.CreateClient;
      History.Insert (map History.toRecord [sampleResult "2025-01-01T00:00:00.000Z"]);
      History.LogError "写入历史记录失败"]
   /\ History.table _
        (snd (History.append _ (listBackend true) [sampleResult "2025-01-01T00:00:00.000Z"] emptyStore))
      = [])
  /\ exists rest,
       History.issued _
         (snd (History.append _ (listBackend false) [sampleResult "2025-01-01T00:00:00.000Z"]
                 emptyStore))
       = History.CreateClient
         :: History.Insert (map History.toRecord [sampleResult "2025-01-01T00:00:00.000Z"])
         :: History.RpcPrune 60 :: rest.
Proof.
  split.
  - apply (proj1 (append_prunes_after_insert _ (listBackend true)
                    emptyStore (sampleResult "2025-01-01T00:00:00.000Z") [])
             (History.mkPgError "insert failed") eq_refl).
  - apply (proj2 (append_prunes_after_insert _ (listBackend false)
                    emptyStore (sampleResult "2025-01-01T00:00:00.000Z") []) eq_refl).
Defined.

(** Runs the plumbing of the store monad. *)
Ltac store_steps :=
  cbv beta iota zeta
    delta [History.bind History.issue History.onTable History.logError
           History.ret History.table History.issued fst snd].

(** X10. A prune calls the procedure once, and what follows the call is
    fixed by its answer.  Without an error nothing follows.  After an
    error that does not name a missing procedure one log entry follows.
    In both cases the table is as the procedure left it.  After an error
    that names a missing procedure the log entry is followed by the
    fallback query and then: by a log entry when the query failed; by
    nothing when the fallback loop selected no id; otherwise by exactly
    one delete, of the ids the fallback loop selected from the rows of
    the query, which leaves the table as that delete leaves it, and by a
    log entry when the delete failed. *)
Theorem prune_deletes_only_selected (Table : Type)
    (backend : History.Backend Table) (limit : Z)
    (w : History.World Table) :
  let answered := History.rpcPrune Table backend limit (History.table Table w) in
  let w' := snd (History.pruneInternal Table backend limit w) in
  exists new,
    History.issued Table w'
    = (History.issued Table w ++ History.RpcPrune limit :: new)%list
    /\ (fst answered = None ->
        new = [] /\ History.table Table w' = snd answered)
    /\ (fst answered <> None ->
        History.isMissingFunctionError (fst answered) = false ->
        new = [History.LogError "清理历史记录失败"]
        /\ History.table Table w' = snd answered)
    /\ (History.isMissingFunctionError (fst answered) = true ->
        (forall e,
           History.selectForPrune Table backend (snd answered) = inl e ->
           new = [History.LogError "清理历史记录失败"; History.SelectForPrune;
                  History.LogError "fallback 模式下查询历史失败"]
           /\ History.table Table w' = snd answered)
        /\ (forall data,
              History.selectForPrune Table backend (snd answered) = inr data ->
              let ids := History.collectDeleteIds limit [] data in
              let deleted := History.deleteIn Table backend ids (snd answered) in
              (ids = [] ->
               new = [History.LogError "清理历史记录失败";
                      History.SelectForPrune]
               /\ History.table Table w' = snd answered)
              /\ (ids <> [] ->
                  new = ([History.LogError "清理历史记录失败";
                          History.SelectForPrune; History.DeleteIn ids]
                         ++ match fst deleted with
                            | Some _ =>
                                [History.LogError "fallback 模式下删除历史失败"]
                            | None => []
                            end)%list
                  /\ History.table Table w' = snd deleted))).
Proof.
  cbn zeta. unfold History.pruneInternal, History.fallbackPruneHistory.
  store_steps.
  destruct (History.rpcPrune Table backend limit _) as [[e|] t]; store_steps.
  - destruct (History.isMissingFunctionError (Some e)) eqn:Hmiss;
      store_steps.
    + destruct (History.selectForPrune Table backend t) as [e'|data] eqn:Hsel;
        store_steps.
      * eexists. split; [rewrite <- ?app_assoc; reflexivity|].
        split; [discriminate|]. split; [discriminate|].
        intros _. split; [intros e0 _; split; reflexivity|discriminate].
      * destruct (History.collectDeleteIds limit [] data) as [|d ds] eqn:Hc;
          store_steps.
        -- eexists. split; [rewrite <- ?app_assoc; reflexivity|].
           split; [discriminate|]. split; [discriminate|].
           intros _. split; [discriminate|].
           intros data0 [= <-]. rewrite Hc.
           split; [intros _; split; reflexivity|congruence].
        -- destruct (History.deleteIn Table backend (d :: ds) t)
             as [[e'|] t'] eqn:Hdel; store_steps;
             (eexists; split; [rewrite <- ?app_assoc; reflexivity|]);
             (split; [discriminate|]); (split; [discriminate|]);
             intros _; (split; [discriminate|]);
             intros data0 [= <-]; rewrite Hc, Hdel;
             (split; [discriminate|]); intros _; split; reflexivity.
    + eexists. split; [rewrite <- ?app_assoc; reflexivity|].
      split; [discriminate|].
      split; [intros _ _; split; reflexivity|discriminate].
  - exists []. split; [reflexivity|].
    split; [intros _; split; reflexivity|].
    split; [congruence|discriminate].
Qed.

(** The prune procedure is missing: the fallback deletes the third row of
    config A when the limit is 2. *)
Lemma prune_deletes_only_selected_witness :
  History.issued _
    (snd (History.pruneInternal _ (listBackend false) 2 emptyStore))
  = [History.RpcPrune 2; History.LogError "清理历史记录失败";
     History.SelectForPrune; History.DeleteIn ["3"]]
  /\ History.collectDeleteIds 2 [] samplePruneRows = ["3"].
Proof.
  destruct (prune_deletes_only_selected _ (listBackend false) 2 emptyStore)
    as (new & Hlog & _ & _ & Hmissing).
  destruct (Hmissing eq_refl) as [_ Hselected].
  destruct (Hselected samplePruneRows eq_refl) as [_ Hdelete].
  destruct (Hdelete ltac:(discriminate)) as [Hnew _].
  rewrite Hlog, Hnew. split; reflexivity.
Defined.

(* ------------------------------------------------------------------ *)
(** * Dashboard groups *)

Lemma pushTimeline_cases (m : list (string * list ProviderTimeline))
    (t : ProviderTimeline) :
  Dashboard.pushTimeline m t
  = match History.get m (Dashboard.groupKey t) with
    | None => (m ++ [(Dashboard.groupKey t, [t])])%list
    | Some l => History.set m (Dashboard.groupKey t) (l ++ [t])%list
    end.
Proof.
  unfold Dashboard.pushTimeline.
  destruct (History.get m (Dashboard.groupKey t)) as [l|] eqn:Hg.
  - now rewrite Hg.
  - rewrite (set_absent _ _ _ Hg), (get_app_absent _ _ _ Hg).
    now rewrite (set_app_absent _ _ _ _ Hg).
Qed.

Section MapFacts.
Context {T : Type}.

Lemma get_In_NoDup (m : list (string * T)) (k : string) (v : T) :
  NoDup (map fst m) -> In (k, v) m -> History.get m k = Some v.
Proof.
  induction m as [|[k' v'] m IH]; cbn; [tauto|].
  intros Hnd Hin. inversion Hnd as [|? ? Hk Hnd']; subst.
  destruct Hin as [[= -> ->]|Hin].
  - now rewrite String.eqb_refl.
  - destruct (String.eqb k' k) eqn:He; [|now apply IH].
    apply String.eqb_eq in He. subst k'. exfalso. apply Hk.
    now apply (in_map fst) in Hin.
Qed.

Lemma set_values_perm (m : list (string * list T)) (k : string)
    (l : list T) (x : T) :
  History.get m k = Some l ->
  Permutation (flat_map snd (History.set m k (l ++ [x])%list))
    (x :: flat_map snd m).
Proof.
  induction m as [|[k' v'] m IH]; cbn; [discriminate|].
  destruct (String.eqb k' k) eqn:He; cbn.
  - intros [= ->]. rewrite <- app_assoc. cbn.
    symmetry. apply Permutation_middle.
  - intros Hg. rewrite (IH Hg). symmetry. apply Permutation_middle.
Qed.
End MapFacts.

Lemma pushTimeline_values (m : list (string * list ProviderTimeline))
    (t : ProviderTimeline) :
  Permutation (flat_map snd (Dashboard.pushTimeline m t))
    (t :: flat_map snd m).
Proof.
  rewrite pushTimeline_cases.
  destruct (History.get m (Dashboard.groupKey t)) as [l|] eqn:Hg.
  - now apply set_values_perm.
  - rewrite flat_map_app. cbn. symmetry. apply Permutation_cons_append.
Qed.

Lemma pushTimeline_keys_NoDup (m : list (string * list ProviderTimeline))
    (t : ProviderTimeline) :
  NoDup (map fst m) -> NoDup (map fst (Dashboard.pushTimeline m t)).
Proof.
  intros Hnd. rewrite pushTimeline_cases.
  destruct (History.get m (Dashboard.groupKey t)) as [l|] eqn:Hg.
  - now rewrite (set_keys_present _ _ _ _ Hg).
  - rewrite map_app. cbn. apply get_None_keys in Hg.
    apply NoDup_app; [exact Hnd|repeat constructor; intros []|].
    intros x Hx [<-|[]]. contradiction.
Qed.

(** Every list of the map is non-empty and holds timelines of its key. *)

Lemma pushTimeline_wellGrouped (m : list (string * list ProviderTimeline))
    (t : ProviderTimeline) :
  wellGrouped m -> wellGrouped (Dashboard.pushTimeline m t).
Proof.
  intros Hm k l Hin. rewrite pushTimeline_cases in Hin.
  destruct (History.get m (Dashboard.groupKey t)) as [l0|] eqn:Hg.
  - apply set_In in Hin. destruct Hin as [[-> ->]|Hin]; [|now apply Hm].
    apply get_Some_In in Hg. destruct (Hm _ _ Hg) as [_ Hall].
    split; [now destruct l0|].
    apply Forall_app. split; [exact Hall|]. now constructor.
  - apply in_app_or in Hin. destruct Hin as [Hin|[[= <- <-]|[]]];
      [now apply Hm|].
    split; [discriminate|]. now constructor.
Qed.

Lemma fold_pushTimeline (ts : list ProviderTimeline)
    (m : list (string * list ProviderTimeline)) :
  NoDup (map fst m) -> wellGrouped m ->
  let m' := fold_left Dashboard.pushTimeline ts m in
  NoDup (map fst m') /\ wellGrouped m'
  /\ Permutation (flat_map snd m') (flat_map snd m ++ ts).
Proof.
  revert m. induction ts as [|t ts IH]; intros m Hnd Hwg; cbn.
  - rewrite app_nil_r. auto.
  - destruct (IH (Dashboard.pushTimeline m t)
                (pushTimeline_keys_NoDup m t Hnd)
                (pushTimeline_wellGrouped m t Hwg)) as (H1 & H2 & H3).
    split; [exact H1|]. split; [exact H2|].
    rewrite H3, pushTimeline_values. cbn.
    apply Permutation_middle.
Qed.

(** Setting the ungrouped list aside loses nothing. *)
Lemma split_ungrouped {T : Type} (m : list (string * list T)) :
  NoDup (map fst m) ->
  Permutation (flat_map snd m)
    (flat_map snd
       (filter (fun entry => negb (String.eqb (fst entry) UNGROUPED_KEY)) m)
     ++ match History.get m UNGROUPED_KEY with
        | Some u => u
        | None => []
        end).
Proof.
  induction m as [|[k v] m IH]; cbn [map fst]; intros Hnd; [reflexivity|].
  inversion Hnd as [|? ? Hk Hnd']; subst.
  cbn [filter fst flat_map snd History.get].
  destruct (String.eqb k UNGROUPED_KEY) eqn:He; cbn [negb].
  - apply String.eqb_eq in He. subst k.
    rewrite (IH Hnd').
    rewrite (proj2 (get_None_keys m UNGROUPED_KEY) Hk), app_nil_r.
    apply Permutation_app_comm.
  - cbn [flat_map snd]. rewrite <- app_assoc.
    apply Permutation_app_head. now apply IH.
Qed.

Lemma NoDup_keys_filter {T : Type} (p : string * T -> bool)
    (m : list (string * T)) :
  NoDup (map fst m) -> NoDup (map fst (filter p m)).
Proof.
  induction m as [|e m IH]; cbn; intros Hnd; [constructor|].
  inversion Hnd as [|? ? Hk Hnd']; subst.
  destruct (p e); cbn; [|now apply IH].
  constructor; [|now apply IH].
  intros Hin. apply Hk. apply in_map_iff in Hin.
  destruct Hin as (x & Hx & Hf). apply filter_In in Hf.
  apply in_map_iff. exists x. tauto.
Qed.

Lemma flat_map_sorted_values {T : Type} (cmp : T -> T -> Z)
    (entries : list (string * list T)) :
  Permutation (flat_map (fun e => Js.sort cmp (snd e)) entries)
    (flat_map snd entries).
Proof.
  induction entries as [|e entries IH]; cbn; [reflexivity|].
  apply Permutation_app; [apply sort_perm|exact IH].
Qed.

(** X11. Grouping the timelines loses and repeats none: the groups, read
    in order, hold exactly the given timelines.  Every group is
    non-empty and holds only timelines of its own group key, no group
    name occurs twice, the named groups are displayed under their name,
    and the ungrouped bucket, if any, is the last group and is displayed
    as "未分组". *)
Theorem groupTimelines_partition (localeCompare : string -> string -> Z)
    (tls : list ProviderTimeline) :
  let groups := Dashboard.groupTimelines localeCompare tls in
  Permutation (flat_map Dashboard.timelines groups) tls
  /\ NoDup (map Dashboard.g_groupName groups)
  /\ Forall (fun g =>
               Dashboard.timelines g <> []
               /\ Forall (fun t => Dashboard.groupKey t
                                   = Dashboard.g_groupName g)
                    (Dashboard.timelines g)) groups
  /\ exists named tail,
       groups = (named ++ tail)%list
       /\ Forall (fun g => Dashboard.g_groupName g <> UNGROUPED_KEY
                           /\ Dashboard.g_displayName g
                              = Dashboard.g_groupName g) named
       /\ (tail = []
           \/ exists u,
                tail = [Dashboard.mkGrouped UNGROUPED_KEY
                          UNGROUPED_DISPLAY_NAME u]).
Proof.
  cbn zeta. unfold Dashboard.groupTimelines.
  set (m := fold_left Dashboard.pushTimeline tls []).
  destruct (fold_pushTimeline tls [] (NoDup_nil _)
              (fun k l (H : In (k, l) []) => match H with end))
    as (Hnd & Hwg & Hperm).
  fold m in Hnd, Hwg, Hperm. cbn [flat_map app] in Hperm.
  set (isNamed := fun entry : string * list ProviderTimeline =>
                    negb (String.eqb (fst entry) UNGROUPED_KEY)).
  set (byKey := fun a b : string * list ProviderTimeline =>
                  localeCompare (fst a) (fst b)).
  set (N := Js.sort byKey (filter isNamed m)).
  set (byName := SnapshotService.byLatestName localeCompare).
  set (mk := fun '(groupName, groupTimelines) =>
               Dashboard.mkGrouped groupName groupName
                 (Js.sort byName groupTimelines)).
  set (named := map mk N).
  assert (HN : forall e, In e N -> In e m /\ fst e <> UNGROUPED_KEY).
  { intros e He. apply sort_In, filter_In in He. destruct He as [Hin Hn].
    split; [exact Hin|]. unfold isNamed in Hn.
    apply negb_true_iff, String.eqb_neq in Hn. exact Hn. }
  assert (Hnames : map Dashboard.g_groupName named = map fst N).
  { unfold named. rewrite map_map. apply map_ext. now intros [k l]. }
  assert (Hvalues : Permutation (flat_map Dashboard.timelines named)
                      (flat_map snd (filter isNamed m))).
  { unfold named. rewrite flat_map_concat_map, map_map,
      <- flat_map_concat_map.
    rewrite (flat_map_ext _ (fun e => Js.sort byName (snd e)))
      by (now intros [k l]).
    rewrite flat_map_sorted_values.
    apply Permutation_flat_map, sort_perm. }
  assert (Hnamed_nodup : NoDup (map Dashboard.g_groupName named)).
  { rewrite Hnames.
    apply (Permutation_NoDup (l := map fst (filter isNamed m))).
    - apply Permutation_map. symmetry. apply sort_perm.
    - now apply NoDup_keys_filter. }
  assert (Hnamed_ok :
    Forall (fun g =>
              Dashboard.timelines g <> []
              /\ Forall (fun t => Dashboard.groupKey t
                                  = Dashboard.g_groupName g)
                   (Dashboard.timelines g)) named).
  { apply Forall_forall. intros g Hg. apply in_map_iff in Hg.
    destruct Hg as ([k l] & <- & He). destruct (HN _ He) as [Hin _].
    destruct (Hwg k l Hin) as [Hne Hall]. cbn. split.
    - intros Hnil. apply Hne.
      apply length_zero_iff_nil. rewrite <- (sort_length byName l).
      now rewrite Hnil.
    - apply Forall_forall. intros t Ht. apply sort_In in Ht.
      rewrite Forall_forall in Hall. now apply Hall. }
  assert (Hnamed_names :
    Forall (fun g => Dashboard.g_groupName g <> UNGROUPED_KEY
                     /\ Dashboard.g_displayName g = Dashboard.g_groupName g)
      named).
  { apply Forall_forall. intros g Hg. apply in_map_iff in Hg.
    destruct Hg as ([k l] & <- & He). destruct (HN _ He) as [_ Hk].
    cbn. split; [exact Hk|reflexivity]. }
  pose proof (split_ungrouped m Hnd) as Hsplit. fold isNamed in Hsplit.
  destruct (History.get m UNGROUPED_KEY) as [u|] eqn:Hu.
  - destruct (0 <? List.length u)%nat eqn:Hlen.
    + split; [|split; [|split]].
      * rewrite flat_map_app. cbn. rewrite app_nil_r.
        rewrite <- Hperm, Hsplit.
        apply Permutation_app; [exact Hvalues|apply sort_perm].
      * rewrite map_app. cbn.
        apply NoDup_app; [exact Hnamed_nodup|repeat constructor; intros []|].
        intros x Hx [<-|[]]. rewrite Forall_forall in Hnamed_names.
        apply in_map_iff in Hx. destruct Hx as (g & Hg & Hin).
        now apply (proj1 (Hnamed_names g Hin)).
      * apply Forall_app. split; [exact Hnamed_ok|].
        constructor; [|constructor]. cbn.
        apply get_Some_In in Hu. destruct (Hwg _ _ Hu) as [Hne Hall].
        split.
        -- intros Hnil. apply Hne. apply length_zero_iff_nil.
           rewrite <- (sort_length byName u). now rewrite Hnil.
        -- apply Forall_forall. intros t Ht. apply sort_In in Ht.
           rewrite Forall_forall in Hall. now apply Hall.
      * exists named, [Dashboard.mkGrouped UNGROUPED_KEY
                         UNGROUPED_DISPLAY_NAME (Js.sort byName u)].
        split; [reflexivity|]. split; [exact Hnamed_names|].
        right. eauto.
    + assert (u = []) by (destruct u; [reflexivity|discriminate]). subst u.
      rewrite app_nil_r in Hsplit.
      split; [|split; [|split]]; auto.
      * now rewrite Hvalues, <- Hsplit.
      * exists named, []. rewrite app_nil_r. auto.
  - rewrite app_nil_r in Hsplit.
    split; [|split; [|split]]; auto.
    + now rewrite Hvalues, <- Hsplit.
    + exists named, []. rewrite app_nil_r. auto.
Qed.

(* ------------------------------------------------------------------ *)
(** * Groups on offer and groups with data *)

Lemma newSet_In (ids seen : list string) (x : string) :
  In x (GroupData.newSet seen ids) <-> In x ids /\ ~ In x seen.
Proof.
  revert seen. induction ids as [|i ids IH]; intros seen; cbn.
  - tauto.
  - destruct (existsb (String.eqb i) seen) eqn:Hs.
    + rewrite IH. apply existsb_exists in Hs.
      destruct Hs as (y & Hy & Heq). apply String.eqb_eq in Heq. subst y.
      split; [tauto|]. intros [[->|Hx] Hn]; tauto.
    + cbn. rewrite IH. cbn.
      assert (Hi : ~ In i seen).
      { intros Hin. apply Bool.not_true_iff_false in Hs. apply Hs.
        apply existsb_exists. exists i. split; [exact Hin|].
        apply String.eqb_refl. }
      split.
      * intros [->|[Hx Hn]]; [tauto|]. split; [tauto|]. tauto.
      * intros [[->|Hx] Hn]; [tauto|].
        destruct (string_dec i x) as [->|Hne]; [tauto|]. right.
        split; [exact Hx|]. intros [H|H]; tauto.
Qed.

Lemma newSet_NoDup (ids seen : list string) :
  NoDup (GroupData.newSet seen ids).
Proof.
  revert seen. induction ids as [|i ids IH]; intros seen; cbn.
  - constructor.
  - destruct (existsb (String.eqb i) seen); [apply IH|].
    constructor; [|apply IH].
    rewrite newSet_In. cbn. tauto.
Qed.

Lemma loaded_groupName_not_empty
    (answer : History.PostgrestError
              + option (list ConfigLoader.CheckConfigRow))
    (c : ProviderConfig) :
  In c (ConfigLoader.loadProviderConfigsFromDB answer) ->
  cfg_groupName c <> Some "".
Proof.
  unfold ConfigLoader.loadProviderConfigsFromDB.
  destruct answer as [e|[data|]]; try (intros []).
  destruct (List.length data =? 0)%nat; [intros []|].
  intros Hin. apply in_map_iff in Hin. destruct Hin as (row & <- & _).
  cbn. destruct (ConfigLoader.group_name row) as [g|]; [|discriminate].
  destruct (String.eqb g "") eqn:Hg; [discriminate|].
  apply String.eqb_neq in Hg. congruence.
Qed.

Lemma loadGroup_some_iff (pollIntervalMs : Z) (pollIntervalLabel : string)
    (getTime : string -> option Z) (localeCompare : string -> string -> Z)
    (getOfficialStatus : ProviderType -> option OfficialStatusResult)
    (clock : nat -> string)
    (loadSnapshot :
       SnapshotService.SnapshotScope -> RefreshMode -> HistorySnapshot)
    (dateNow : Z) (allConfigs : list ProviderConfig) (target : string)
    (options : option RefreshMode) :
  GroupData.loadGroupDashboardData pollIntervalMs pollIntervalLabel getTime
    localeCompare getOfficialStatus clock loadSnapshot dateNow allConfigs
    target options <> None
  <-> exists c, In c allConfigs /\ matchesGroup target c.
Proof.
  unfold GroupData.loadGroupDashboardData.
  destruct (filter (GroupData.inGroup target) allConfigs) as [|c0 rest]
    eqn:Hf; cbn [List.length Nat.eqb].
  - split; [congruence|]. intros (c & Hc & Hm). exfalso.
    apply inGroup_matches in Hm.
    rewrite (proj1 (filter_nil_iff _ _) Hf c Hc) in Hm. discriminate.
  - split; [|discriminate]. intros _.
    assert (Hin : In c0 (filter (GroupData.inGroup target) allConfigs))
      by (rewrite Hf; now left).
    apply filter_In in Hin. destruct Hin as [Hin Hg].
    exists c0. split; [exact Hin|]. now apply inGroup_matches.
Qed.

Lemma getAvailableGroups_In (allConfigs : list ProviderConfig)
    (g : string) :
  In g (Dashboard.getAvailableGroups allConfigs)
  <-> (g <> "" /\ exists c, In c allConfigs /\ cfg_groupName c = Some g)
      \/ (g = UNGROUPED_KEY /\ exists c, In c allConfigs /\ groupAbsent c).
Proof.
  unfold Dashboard.getAvailableGroups.
  rewrite sort_In, newSet_In, in_app_iff, in_flat_map.
  assert (Habs : forall c, GroupData.groupNameAbsent c = true
                           <-> groupAbsent c).
  { intros c. unfold GroupData.groupNameAbsent, groupAbsent.
    destruct (cfg_groupName c) as [n|].
    - rewrite String.eqb_eq. split; [intros ->; now right|].
      intros [H|H]; congruence.
    - split; [now left|reflexivity]. }
  split.
  - intros [[Hn|Hu] _].
    + left. destruct Hn as (c & Hc & Hg).
      destruct (cfg_groupName c) as [n|] eqn:Hn; [|destruct Hg].
      destruct (String.eqb n "") eqn:He; [destruct Hg|].
      destruct Hg as [<-|[]]. apply String.eqb_neq in He. eauto.
    + right. destruct (existsb _ _) eqn:He; [|destruct Hu].
      destruct Hu as [<-|[]]. split; [reflexivity|].
      apply existsb_exists in He. destruct He as (c & Hc & Ha).
      exists c. split; [exact Hc|]. now apply Habs.
  - intros H. split; [|intros []].
    destruct H as [(Hne & c & Hc & Hg)|(-> & c & Hc & Ha)].
    + left. exists c. split; [exact Hc|]. rewrite Hg.
      apply String.eqb_neq in Hne. rewrite Hne. now left.
    + right.
      assert (He : existsb GroupData.groupNameAbsent allConfigs = true).
      { apply existsb_exists. exists c. split; [exact Hc|].
        now apply Habs. }
      rewrite He. now left.
Qed.

(** X12. The groups on offer and the groups with data agree on the
    configs that the loader returns.  No group is offered twice; a name is
    offered exactly when the group data of that name exist, with one
    exception: [__ungrouped__] is offered as well when a config carries
    this very text as its group name, although the data of that name are
    those of the configs without a group. *)
Theorem available_groups_have_data (pollIntervalMs : Z)
    (pollIntervalLabel : string) (getTime : string -> option Z)
    (localeCompare : string -> string -> Z)
    (getOfficialStatus : ProviderType -> option OfficialStatusResult)
    (clock : nat -> string)
    (loadSnapshot :
       SnapshotService.SnapshotScope -> RefreshMode -> HistorySnapshot)
    (dateNow : Z)
    (answer : History.PostgrestError
              + option (list ConfigLoader.CheckConfigRow))
    (g : string) (options : option RefreshMode) :
  let allConfigs := ConfigLoader.loadProviderConfigsFromDB answer in
  let offered := Dashboard.getAvailableGroups allConfigs in
  NoDup offered
  /\ (In g offered
      <-> GroupData.loadGroupDashboardData pollIntervalMs pollIntervalLabel
            getTime localeCompare getOfficialStatus clock loadSnapshot
            dateNow allConfigs g options <> None
          \/ (g = UNGROUPED_KEY
              /\ exists c, In c allConfigs
                           /\ cfg_groupName c = Some UNGROUPED_KEY)).
Proof.
  cbn zeta. split.
  - unfold Dashboard.getAvailableGroups.
    eapply Permutation_NoDup;
      [symmetry; apply sort_perm|apply newSet_NoDup].
  - rewrite getAvailableGroups_In, loadGroup_some_iff.
    unfold matchesGroup.
    pose proof (loaded_groupName_not_empty answer) as Hne.
    destruct (string_dec g UNGROUPED_KEY) as [->|Hg].
    + split.
      * intros [(_ & c & Hc & Hn)|(_ & c & Hc & Ha)].
        -- right. eauto.
        -- left. exists c. split; [exact Hc|]. left. auto.
      * intros [(c & Hc & [[_ Ha]|[Hn _]])|(_ & c & Hc & Hn)].
        -- right. eauto.
        -- congruence.
        -- left. split; [discriminate|]. eauto.
    + split.
      * intros [(_ & c & Hc & Hn)|(H & _)]; [|congruence].
        left. exists c. split; [exact Hc|]. right. auto.
      * intros [(c & Hc & [[H _]|[_ Hn]])|(H & _)]; try congruence.
        left. split; [|eauto]. intros ->. now apply (Hne c Hc).
Qed.

(* ------------------------------------------------------------------ *)
(** * Timelines of the stored history *)

Section TimelineFacts.
Variable getTime : string -> option Z.
Variable localeCompare : string -> string -> Z.
Variable getOfficialStatus : ProviderType -> option OfficialStatusResult.
Variable clock : nat -> string.

Lemma historyTimeline_cases (c : string) (its : list CheckResult) :
  match its with
  | [] => SnapshotService.historyTimeline getTime getOfficialStatus (c, its)
          = None
  | _ :: _ =>
      exists first rest,
        Js.sort (History.byCheckedAtDesc getTime) its = first :: rest
        /\ SnapshotService.historyTimeline getTime getOfficialStatus (c, its)
           = Some {| tl_id := c;
                     items := first :: rest;
                     latest :=
                       SnapshotService.attachOfficialStatus
                         getOfficialStatus first |}
  end.
Proof.
  destruct its as [|r its]; [reflexivity|].
  unfold SnapshotService.historyTimeline. cbn [List.length Nat.eqb].
  pose proof (sort_length (History.byCheckedAtDesc getTime) (r :: its))
    as Hlen.
  destruct (Js.sort (History.byCheckedAtDesc getTime) (r :: its))
    as [|first rest]; [discriminate|].
  now exists first, rest.
Qed.

Lemma keepSome_In {A : Type} (l : list (option A)) (x : A) :
  In x (SnapshotService.keepSome l) <-> In (Some x) l.
Proof.
  unfold SnapshotService.keepSome. rewrite in_flat_map. split.
  - intros ([y|] & Hin & Hx); [|destruct Hx].
    destruct Hx as [<-|[]]. exact Hin.
  - intros Hin. exists (Some x). split; [exact Hin|now left].
Qed.

Lemma mapped_length (history : HistorySnapshot) :
  List.length
    (SnapshotService.keepSome
       (map (SnapshotService.historyTimeline getTime getOfficialStatus)
          history))
  = List.length (filter (fun entry => negb (List.length (snd entry) =? 0)%nat) history).
Proof.
  induction history as [|[c its] history IH]; [reflexivity|].
  cbn [map filter snd]. unfold SnapshotService.keepSome in *.
  cbn [flat_map]. rewrite length_app, IH.
  pose proof (historyTimeline_cases c its) as H.
  destruct its as [|r its].
  - now rewrite H.
  - destruct H as (first & rest & _ & ->). reflexivity.
Qed.

Lemma mapIndexed_length {A B : Type} (f : nat -> A -> B) (k : nat)
    (l : list A) :
  List.length (SnapshotService.mapIndexed f k l) = List.length l.
Proof.
  revert k. induction l as [|x l IH]; intros k; cbn; [reflexivity|].
  now rewrite IH.
Qed.

Lemma mapIndexed_In {A B : Type} (f : nat -> A -> B) (k : nat)
    (l : list A) (y : B) :
  In y (SnapshotService.mapIndexed f k l) ->
  exists i x, nth_error l i = Some x /\ y = f (k + i)%nat x.
Proof.
  revert k. induction l as [|x l IH]; intros k; cbn; [intros []|].
  intros [<-|Hin].
  - exists 0%nat, x. split; [reflexivity|]. f_equal. lia.
  - destruct (IH _ Hin) as (i & x' & Hnth & ->).
    exists (S i), x'. split; [exact Hnth|]. f_equal. lia.
Qed.

(** X13. The timelines built from a history: there are as many as the
    history has non-empty rings plus the maintenance configs; every
    non-empty ring gives a timeline of its id that holds exactly the
    results of the ring, and when the dates of the ring parse holds them
    sorted by the comparator (newest first, ties in the order of the
    ring); and every timeline that has items comes from such a ring,
    holds exactly the results of the ring, newest first when their dates
    parse, and has as its latest record the first of them with the
    official status attached. *)
Theorem history_timelines (history : HistorySnapshot)
    (maintenanceConfigs : list ProviderConfig) :
  let tls :=
    SnapshotService.buildProviderTimelines getTime localeCompare
      getOfficialStatus clock history maintenanceConfigs in
  List.length tls
  = (List.length
       (filter (fun entry => negb (List.length (snd entry) =? 0)%nat) history)
     + List.length maintenanceConfigs)%nat
  /\ (forall c its,
        In (c, its) history -> its <> [] ->
        exists t,
          In t tls /\ tl_id t = c
          /\ Permutation (items t) its
          /\ ((forall r, In r its -> getTime (checkedAt r) <> None) ->
              items t = Js.sort (History.byCheckedAtDesc getTime) its))
  /\ (forall t,
        In t tls -> items t <> [] ->
        exists its first rest,
          In (tl_id t, its) history
          /\ Permutation (items t) its
          /\ items t = first :: rest
          /\ latest t
             = SnapshotService.attachOfficialStatus getOfficialStatus first
          /\ ((forall r, In r its -> getTime (checkedAt r) <> None) ->
              descending getTime (items t))).
Proof.
  cbn zeta. unfold SnapshotService.buildProviderTimelines.
  split; [|split].
  - now rewrite sort_length, length_app, mapped_length, mapIndexed_length.
  - intros c its Hin Hne.
    pose proof (historyTimeline_cases c its) as H.
    destruct its as [|r its]; [congruence|].
    destruct H as (first & rest & Hsort & Ht).
    eexists. split; [|split; [|split]].
    + apply sort_In, in_or_app. left. apply keepSome_In.
      rewrite <- Ht. apply in_map. exact Hin.
    + reflexivity.
    + cbn [items]. rewrite <- Hsort. apply sort_perm.
    + intros _. cbn [items]. now rewrite Hsort.
  - intros t Hin Hne.
    apply sort_In, in_app_or in Hin. destruct Hin as [Hin|Hin].
    + apply keepSome_In, in_map_iff in Hin.
      destruct Hin as ([c its] & Ht & Hin).
      pose proof (historyTimeline_cases c its) as H.
      destruct its as [|r its]; [congruence|].
      destruct H as (first & rest & Hsort & Ht').
      rewrite Ht' in Ht. injection Ht as <-. cbn [tl_id items latest].
      exists (r :: its), first, rest.
      split; [exact Hin|]. split; [rewrite <- Hsort; apply sort_perm|].
      split; [reflexivity|]. split; [reflexivity|].
      intros Hvalid. rewrite <- Hsort.
      set (valid := fun x : CheckResult => getTime (checkedAt x) <> None).
      assert (Hval : Forall valid (r :: its))
        by (apply Forall_forall; exact Hvalid).
      apply StronglySorted_weaken
        with (R := fun a b => timeOf getTime b <= timeOf getTime a).
      * intros a b Ha Hb Hle. apply sort_In in Ha, Hb.
        pose proof (Hvalid a Ha) as Hva. pose proof (Hvalid b Hb) as Hvb.
        unfold timeOf in Hle. unfold notOlderThan.
        destruct (getTime (checkedAt a)) as [ta|] eqn:Hta; [|congruence].
        destruct (getTime (checkedAt b)) as [tb|] eqn:Htb; [|congruence].
        exists ta, tb. auto.
      * apply sort_sorted with (valid := valid); [|exact Hval].
        intros a b Ha Hb. unfold valid, timeOf, History.byCheckedAtDesc in *.
        destruct (getTime (checkedAt a)); [|congruence].
        destruct (getTime (checkedAt b)); [|congruence].
        reflexivity.
    + apply mapIndexed_In in Hin. destruct Hin as (i & cfg & _ & ->).
      now destruct Hne.
Qed.
End TimelineFacts.

(** A history of one ring of two results and one maintenance config. *)
Lemma history_timelines_witness :
  exists t,
    In t (SnapshotService.buildProviderTimelines IsoDate.getTime
            GroupData.defaultCompare noOfficialStatus fixedClock
            newerHistory [maintenanceConfig])
    /\ tl_id t = "A"
    /\ map checkedAt (items t)
       = ["2025-01-01T00:01:00.000Z"; "2025-01-01T00:00:00.000Z"]
    /\ descending IsoDate.getTime (items t).
Proof.
  pose proof (history_timelines IsoDate.getTime GroupData.defaultCompare
                noOfficialStatus fixedClock newerHistory
                [maintenanceConfig]) as (_ & Hring & Htl).
  destruct (Hring "A" _ (or_introl eq_refl))
    as (t & Hin & Hid & Hperm & Hitems); [discriminate|].
  assert (Hsorted : items t
                    = [sampleResult "2025-01-01T00:01:00.000Z";
                       sampleResult "2025-01-01T00:00:00.000Z"]).
  { rewrite Hitems; [reflexivity|].
    intros r [<-|[<-|[]]]; vm_compute; discriminate. }
  exists t. split; [exact Hin|]. split; [exact Hid|].
  split; [now rewrite Hsorted|].
  destruct (Htl t Hin) as (its & first & rest & Hfrom & _ & _ & _ & Hdesc);
    [now rewrite Hsorted|].
  apply Hdesc. intros r Hr.
  destruct Hfrom as [Heq|[]]. injection Heq as _ <-.
  destruct Hr as [<-|[<-|[]]]; vm_compute; discriminate.
Defined.

(* ------------------------------------------------------------------ *)
(** * The time of the last update *)

Lemma sorted_head_newest (getTime : string -> option Z)
    (all : list CheckResult) :
  newestOf getTime all
    match Js.sort (History.byCheckedAtDesc getTime) all with
    | e :: _ => Some (checkedAt e)
    | [] => None
    end.
Proof.
  pose proof (sort_perm (History.byCheckedAtDesc getTime) all) as Hperm.
  destruct (Js.sort (History.byCheckedAtDesc getTime) all) as [|e rest]
    eqn:Hsort; cbn.
  - now apply Permutation_nil in Hperm.
  - exists e. split; [apply (Permutation_in _ Hperm); now left|].
    split; [reflexivity|]. intros Hvalid x Hx.
    set (valid := fun r : CheckResult => getTime (checkedAt r) <> None).
    assert (Hs : StronglySorted
                   (fun a b => timeOf getTime b <= timeOf getTime a)
                   (e :: rest)).
    { rewrite <- Hsort. apply sort_sorted with (valid := valid).
      - intros a b Ha Hb.
        unfold valid, timeOf, History.byCheckedAtDesc in *.
        destruct (getTime (checkedAt a)); [|congruence].
        destruct (getTime (checkedAt b)); [|congruence].
        reflexivity.
      - apply Forall_forall. exact Hvalid. }
    assert (He : In e all) by (apply (Permutation_in _ Hperm); now left).
    pose proof (Hvalid e He) as Hve. pose proof (Hvalid x Hx) as Hvx.
    assert (Hle : timeOf getTime x <= timeOf getTime e).
    { apply (Permutation_in _ (Permutation_sym Hperm)) in Hx.
      destruct Hx as [<-|Hx]; [lia|].
      inversion Hs as [|? ? _ Hall]; subst.
      rewrite Forall_forall in Hall. now apply Hall. }
    unfold timeOf in Hle. unfold notOlderThan.
    destruct (getTime (checkedAt e)) as [te|]; [|congruence].
    destruct (getTime (checkedAt x)) as [tx|]; [|congruence].
    exists te, tx. auto.
Qed.

(** X14. The time of the last update that the dashboard data and the
    group data report is that of the newest record among the items of
    their timelines: it is absent exactly when no timeline has an item
    (maintenance timelines have none), and otherwise it is the
    [checkedAt] of an item that, when the dates parse, is at least as new
    as every item; [total] counts the timelines. *)
Theorem lastUpdated_is_newest (pollIntervalMs : Z)
    (pollIntervalLabel : string) (getTime : string -> option Z)
    (localeCompare : string -> string -> Z)
    (getOfficialStatus : ProviderType -> option OfficialStatusResult)
    (clock : nat -> string)
    (loadSnapshot :
       SnapshotService.SnapshotScope -> RefreshMode -> HistorySnapshot)
    (dateNow : Z) (allConfigs : list ProviderConfig)
    (options : option RefreshMode) :
  (let data :=
     Dashboard.loadDashboardData localeCompare pollIntervalMs
       pollIntervalLabel getTime getOfficialStatus clock loadSnapshot
       dateNow allConfigs options in
   newestOf getTime (flat_map items (Dashboard.providerTimelines data))
     (Dashboard.lastUpdated data)
   /\ Dashboard.total data
      = Z.of_nat (List.length (Dashboard.providerTimelines data)))
  /\ (forall target data,
        GroupData.loadGroupDashboardData pollIntervalMs pollIntervalLabel
          getTime localeCompare getOfficialStatus clock loadSnapshot
          dateNow allConfigs target options = Some data ->
        newestOf getTime
          (flat_map items (GroupData.providerTimelines data))
          (GroupData.lastUpdated data)
        /\ GroupData.total data
           = Z.of_nat (List.length (GroupData.providerTimelines data))).
Proof.
  split.
  - cbn zeta. unfold Dashboard.loadDashboardData.
    cbn [Dashboard.providerTimelines Dashboard.lastUpdated Dashboard.total].
    split; [apply sorted_head_newest|reflexivity].
  - intros target data. unfold GroupData.loadGroupDashboardData.
    destruct (List.length _ =? 0)%nat; [discriminate|].
    intros [= <-].
    cbn [GroupData.providerTimelines GroupData.lastUpdated GroupData.total].
    split; [apply sorted_head_newest|reflexivity].
Qed.

(** The group "team" of one config, whose stored ring has two results. *)
Lemma lastUpdated_is_newest_witness :
  exists data,
    GroupData.loadGroupDashboardData 60000 "60 秒" IsoDate.getTime
      GroupData.defaultCompare noOfficialStatus fixedClock storedSnapshot
      0 [groupedConfig] "team" None = Some data
    /\ GroupData.lastUpdated data = Some "2025-01-01T00:01:00.000Z"
    /\ newestOf IsoDate.getTime
         (flat_map items (GroupData.providerTimelines data))
         (GroupData.lastUpdated data).
Proof.
  destruct (GroupData.loadGroupDashboardData 60000 "60 秒" IsoDate.getTime
              GroupData.defaultCompare noOfficialStatus fixedClock
              storedSnapshot 0 [groupedConfig] "team" None)
    as [data|] eqn:Hload; [|vm_compute in Hload; discriminate].
  exists data. split; [reflexivity|].
  split.
  - vm_compute in Hload. injection Hload as <-. reflexivity.
  - exact (proj1 (proj2 (lastUpdated_is_newest 60000 "60 秒"
                           IsoDate.getTime GroupData.defaultCompare
                           noOfficialStatus fixedClock storedSnapshot 0
                           [groupedConfig] None) "team" data Hload)).
Defined.

(* ------------------------------------------------------------------ *)
(** * Shared refreshes *)

Lemma refreshHistory_step (scope : SnapshotService.SnapshotScope) (now : Z)
    (w : SnapshotService.World) :
  let (r, w') := SnapshotService.refreshHistory scope now w in
  (SnapshotService.isInstalled r = false /\ w' = w)
  \/ (SnapshotService.inflight (SnapshotService.cacheEntry w) = None
      /\ r = SnapshotService.Installed (SnapshotService.nextPromise w)
      /\ w' = {| SnapshotService.cacheEntry :=
                   SnapshotService.mkEntry
                     (SnapshotService.lastPingAt
                        (SnapshotService.cacheEntry w))
                     (Some (SnapshotService.nextPromise w))
                     (SnapshotService.history
                        (SnapshotService.cacheEntry w));
                 SnapshotService.nextPromise :=
                   S (SnapshotService.nextPromise w);
                 SnapshotService.probeBatches :=
                   (SnapshotService.probeBatches w
                    ++ [SnapshotService.activeConfigs scope])%list |}).
Proof.
  unfold SnapshotService.refreshHistory.
  destruct (List.length _ =? 0)%nat; [left; auto|].
  destruct (if now - _ <? _ then _ else None); [left; auto|].
  destruct (SnapshotService.inflight (SnapshotService.cacheEntry w));
    [left; auto|].
  right. auto.
Qed.

Lemma refreshEach_pending (calls : list (SnapshotService.SnapshotScope * Z))
    (w : SnapshotService.World) :
  SnapshotService.inflight (SnapshotService.cacheEntry w) <> None ->
  snd (SnapshotService.refreshEach calls w) = w
  /\ forallb (fun r => negb (SnapshotService.isInstalled r))
       (fst (SnapshotService.refreshEach calls w)) = true.
Proof.
  intros Hp. induction calls as [|[scope now] calls IH]; [auto|].
  cbn [SnapshotService.refreshEach].
  pose proof (refreshHistory_step scope now w) as Hstep.
  destruct (SnapshotService.refreshHistory scope now w) as [r w1].
  destruct Hstep as [[Hr ->]|[Hnone _]]; [|congruence].
  destruct (SnapshotService.refreshEach calls w) as [rs w2].
  cbn [fst snd forallb] in *. rewrite Hr. cbn. exact IH.
Qed.

(** X15. Refreshes requested while one is pending share it.  Of any
    number of calls made one after the other with nothing settling in
    between, at most one installs a refresh and hands a batch to the
    probes; the stored history and its time are untouched; and when a
    refresh was pending before the first call, none installs one and the
    world is unchanged. *)
Theorem pending_refresh_is_shared
    (calls : list (SnapshotService.SnapshotScope * Z))
    (w : SnapshotService.World) :
  let rs := fst (SnapshotService.refreshEach calls w) in
  let w' := snd (SnapshotService.refreshEach calls w) in
  (exists added,
     SnapshotService.probeBatches w'
     = (SnapshotService.probeBatches w ++ added)%list
     /\ List.length added
        = List.length (filter SnapshotService.isInstalled rs)
     /\ (List.length added <= 1)%nat
     /\ Forall (fun batch =>
                  exists call,
                    In call calls
                    /\ batch = SnapshotService.activeConfigs (fst call))
          added)
  /\ SnapshotService.history (SnapshotService.cacheEntry w')
     = SnapshotService.history (SnapshotService.cacheEntry w)
  /\ SnapshotService.lastPingAt (SnapshotService.cacheEntry w')
     = SnapshotService.lastPingAt (SnapshotService.cacheEntry w)
  /\ (SnapshotService.inflight (SnapshotService.cacheEntry w) <> None ->
      w' = w /\ filter SnapshotService.isInstalled rs = []).
Proof.
  cbn zeta. revert w.
  induction calls as [|[scope now] calls IH]; intros w.
  - cbn. split; [|auto]. exists []. rewrite app_nil_r. cbn. auto.
  - cbn [SnapshotService.refreshEach].
    pose proof (refreshHistory_step scope now w) as Hstep.
    destruct (SnapshotService.refreshHistory scope now w) as [r w1].
    destruct Hstep as [[Hr ->]|(Hnone & -> & ->)].
    + specialize (IH w).
      destruct (SnapshotService.refreshEach calls w) as [rs w2].
      cbn [fst snd filter] in *. rewrite Hr.
      destruct IH as ((added & Hb & Hlen & Hle & Hall) & Hh & Ht & Hp).
      split; [|auto].
      exists added. repeat split; auto.
      eapply Forall_impl; [|exact Hall]. cbn.
      intros batch (call & Hin & ->). exists call. split; [now right|auto].
    + set (w1 := SnapshotService.mkWorld _ _ _).
      assert (Hp1 : SnapshotService.inflight (SnapshotService.cacheEntry w1)
                    <> None) by (cbn; discriminate).
      destruct (refreshEach_pending calls w1 Hp1) as [Hw Hrs].
      destruct (SnapshotService.refreshEach calls w1) as [rs w2].
      cbn [fst snd filter SnapshotService.isInstalled] in *. subst w2.
      assert (Hnil : filter SnapshotService.isInstalled rs = []).
      { clear -Hrs. induction rs as [|r rs IHrs]; [reflexivity|].
        cbn in *. apply andb_true_iff in Hrs. destruct Hrs as [Hr Hrs].
        destruct (SnapshotService.isInstalled r); [discriminate|].
        now apply IHrs. }
      rewrite Hnil. split; [|split; [|split]]; try reflexivity.
      * exists [SnapshotService.activeConfigs scope].
        repeat split; auto.
        constructor; [|constructor].
        exists (scope, now). split; [now left|reflexivity].
      * intros Hp. congruence.
Qed.

(** Two callers while the second refresh is pending, and two callers on
    a cache that has never been filled. *)
Lemma pending_refresh_is_shared_witness :
  snd (SnapshotService.refreshEach
         [(sampleScope, 170001); (sampleScope, 170002)]
         secondRefreshPending)
  = secondRefreshPending
  /\ List.length
       (SnapshotService.probeBatches
          (snd (SnapshotService.refreshEach
                  [(sampleScope, 100000); (sampleScope, 100001)]
                  coldWorld)))
     = 1%nat.
Proof.
  split.
  - apply (proj2 (proj2 (proj2 (pending_refresh_is_shared
                                  [(sampleScope, 170001);
                                   (sampleScope, 170002)]
                                  secondRefreshPending)))).
    vm_compute. discriminate.
  - destruct (proj1 (pending_refresh_is_shared
                       [(sampleScope, 100000); (sampleScope, 100001)]
                       coldWorld)) as (added & Hb & Hlen & _).
    rewrite Hb, length_app, Hlen. reflexivity.
Defined.

Lemma clearInflight_own (p : SnapshotService.Promise)
    (w : SnapshotService.World) :
  SnapshotService.inflight (SnapshotService.cacheEntry w) = Some p ->
  SnapshotService.clearInflight p w
  = {| SnapshotService.cacheEntry :=
         SnapshotService.mkEntry
           (SnapshotService.lastPingAt (SnapshotService.cacheEntry w))
           None
           (SnapshotService.history (SnapshotService.cacheEntry w));
       SnapshotService.nextPromise := SnapshotService.nextPromise w;
       SnapshotService.probeBatches := SnapshotService.probeBatches w |}.
Proof.
  intros H. unfold SnapshotService.clearInflight. rewrite H.
  now rewrite Nat.eqb_refl.
Qed.

(** X16. The life of an installed refresh.  When it is fulfilled with a
    history at time [t] and its caller's [finally] block has run, the
    cache holds that history with the time [t] and nothing pending, and
    every refresh asked for less than [pollIntervalMs] after [t] is
    answered with that history without a probe.  When it is rejected,
    the [finally] block alone runs: the cache entry is as it was before
    the refresh, and the next refresh, at a later reading of the clock,
    installs a new promise and starts a new batch. *)
Theorem installed_refresh_settles (scope : SnapshotService.SnapshotScope)
    (now : Z) (w w1 : SnapshotService.World) (p : SnapshotService.Promise) :
  SnapshotService.refreshHistory scope now w
  = (SnapshotService.Installed p, w1) ->
  (forall nextHistory t,
     let w2 :=
       SnapshotService.clearInflight p
         (SnapshotService.inflightFulfils nextHistory t w1) in
     SnapshotService.cacheEntry w2
     = SnapshotService.mkEntry t None (Some nextHistory)
     /\ SnapshotService.probeBatches w2 = SnapshotService.probeBatches w1
     /\ forall scope' now',
          (0 < List.length (SnapshotService.activeConfigs scope'))%nat ->
          now' - t < SnapshotService.pollIntervalMs scope' ->
          SnapshotService.refreshHistory scope' now' w2
          = (SnapshotService.Value nextHistory, w2))
  /\ (let w3 := SnapshotService.clearInflight p w1 in
      SnapshotService.cacheEntry w3 = SnapshotService.cacheEntry w
      /\ forall now',
           now <= now' ->
           exists p',
             p' <> p
             /\ fst (SnapshotService.refreshHistory scope now' w3)
                = SnapshotService.Installed p'
             /\ SnapshotService.probeBatches
                  (snd (SnapshotService.refreshHistory scope now' w3))
                = (SnapshotService.probeBatches w
                   ++ [SnapshotService.activeConfigs scope;
                       SnapshotService.activeConfigs scope])%list).
Proof.
  intros Hinst.
  pose proof (refreshHistory_step scope now w) as Hstep.
  rewrite Hinst in Hstep.
  destruct Hstep as [[Hr _]|(Hnone & Hp & Hw1)]; [discriminate|].
  injection Hp as ->.
  split.
  - intros nextHistory t.
    rewrite clearInflight_own by (subst w1; reflexivity).
    cbn zeta. cbn [SnapshotService.cacheEntry SnapshotService.probeBatches
                   SnapshotService.inflightFulfils
                   SnapshotService.lastPingAt SnapshotService.history
                   SnapshotService.nextPromise].
    split; [reflexivity|]. split; [reflexivity|].
    intros scope' now' Hactive Hfresh.
    unfold SnapshotService.refreshHistory.
    cbn [SnapshotService.cacheEntry SnapshotService.lastPingAt
         SnapshotService.history].
    destruct (List.length (SnapshotService.activeConfigs scope') =? 0)%nat
      eqn:Hlen; [apply Nat.eqb_eq in Hlen; lia|].
    apply Z.ltb_lt in Hfresh. now rewrite Hfresh.
  - rewrite clearInflight_own by (subst w1; reflexivity).
    cbn zeta. subst w1.
    cbn [SnapshotService.cacheEntry SnapshotService.probeBatches
         SnapshotService.lastPingAt SnapshotService.history
         SnapshotService.nextPromise].
    split.
    + destruct w as [[t i h] n b]. cbn in *. now subst i.
    + intros now' Hlater.
      exists (S (SnapshotService.nextPromise w)).
      split; [lia|].
      revert Hinst. unfold SnapshotService.refreshHistory.
      cbn [SnapshotService.cacheEntry SnapshotService.lastPingAt
           SnapshotService.history SnapshotService.inflight
           SnapshotService.nextPromise SnapshotService.probeBatches].
      destruct (List.length (SnapshotService.activeConfigs scope) =? 0)%nat;
        [discriminate|].
      rewrite Hnone.
      destruct (SnapshotService.history (SnapshotService.cacheEntry w))
        as [h|].
      * destruct (now - _ <? _) eqn:Hstale; [discriminate|]. intros _.
        apply Z.ltb_ge in Hstale.
        assert (Hstale' :
                  (now' - SnapshotService.lastPingAt
                            (SnapshotService.cacheEntry w)
                   <? SnapshotService.pollIntervalMs scope) = false)
          by (apply Z.ltb_ge; lia).
        rewrite Hstale'. cbn. split; [reflexivity|].
        now rewrite <- app_assoc.
      * intros _.
        destruct (now' - _ <? _); cbn; (split; [reflexivity|]);
          now rewrite <- app_assoc.
Qed.

(** The first refresh of a cold cache at 100000, fulfilled at 100500. *)
Lemma installed_refresh_settles_witness :
  SnapshotService.refreshHistory sampleScope 100000 coldWorld
  = (SnapshotService.Installed 0%nat,
     snd (SnapshotService.refreshHistory sampleScope 100000 coldWorld))
  /\ fst (SnapshotService.refreshHistory sampleScope 160499
            (SnapshotService.clearInflight 0%nat fulfilledNotCleared))
     = SnapshotService.Value sampleHistory
  /\ exists p',
       fst (SnapshotService.refreshHistory sampleScope 100001
              (SnapshotService.clearInflight 0%nat
                 (snd (SnapshotService.refreshHistory sampleScope 100000
                         coldWorld))))
       = SnapshotService.Installed p'.
Proof.
  split; [reflexivity|].
  pose proof (installed_refresh_settles sampleScope 100000 coldWorld _
                0%nat eq_refl) as [Hok Hfail].
  split.
  - destruct (Hok sampleHistory 100500) as (_ & _ & Hfresh).
    assert (Hactive : (0 < List.length
                             (SnapshotService.activeConfigs sampleScope))%nat)
      by (cbn; lia).
    assert (Hwindow : 160499 - 100500
                      < SnapshotService.pollIntervalMs sampleScope)
      by (cbn; lia).
    exact (f_equal fst (Hfresh sampleScope 160499 Hactive Hwindow)).
  - destruct Hfail as (_ & Hnext).
    destruct (Hnext 100001) as (p' & _ & Hp' & _); [lia|].
    exists p'. exact Hp'.
Defined.

(* ------------------------------------------------------------------ *)
(** * The report of a status summary *)

Lemma app_not_empty_r (a b : string) : b <> "" -> a ++ b <> "".
Proof.
  intros Hb. destruct a as [|c a]; [exact Hb|discriminate].
Qed.

Lemma orString_own (a b : string) : a <> "" -> Js.orString a b = a.
Proof.
  intros Ha. unfold Js.orString. apply String.eqb_neq in Ha.
  now rewrite Ha.
Qed.

(** X17. What a parsed status summary reports beside its status: the
    affected components are the names of the components whose status is
    not "operational", in the order of the summary, and are absent when
    there is none; the message is never empty; it is the description of
    the page (or "未知状态" when that is empty) when no component is
    affected, and otherwise names the first three affected components
    and, beyond three, their number; and a status [operational] never
    comes with affected components. *)
Theorem anthropic_summary_report (data : OfficialAnthropic.Summary)
    (checkedAt : string) :
  let r := OfficialAnthropic.parseAnthropicSummary data checkedAt in
  let names :=
    map OfficialAnthropic.comp_name
      (filter affectedB (summaryComponents data)) in
  official_checkedAt r = checkedAt
  /\ affectedComponents r
     = match names with [] => None | _ :: _ => Some names end
  /\ official_message r <> ""
  /\ official_message r
     = match names with
       | [] => Js.orString (OfficialAnthropic.description data) "未知状态"
       | _ :: _ =>
           if (3 <? List.length names)%nat
           then Js.join ", " (firstn 3 names) ++ " 等 "
                ++ Js.numberToString (Z.of_nat (List.length names))
                ++ " 个组件" ++ " 受影响"
           else Js.join ", " names ++ " 受影响"
       end
  /\ (official_status r = official_operational ->
      affectedComponents r = None).
Proof.
  cbn zeta. unfold OfficialAnthropic.parseAnthropicSummary.
  fold (summaryComponents data).
  destruct (scan_components (summaryComponents data)
              (OfficialAnthropic.mkScan [] false false)) as (Ha & _ & _).
  cbn [OfficialAnthropic.affected app] in Ha.
  cbn [official_checkedAt affectedComponents official_message
       official_status].
  rewrite Ha.
  split; [reflexivity|].
  destruct (map OfficialAnthropic.comp_name
              (filter affectedB (summaryComponents data))) as [|n names].
  - cbn [List.length Nat.ltb Nat.leb Nat.eqb].
    split; [reflexivity|]. split; [|split; [reflexivity|reflexivity]].
    apply orString_not_empty. discriminate.
  - assert (Hpos : (0 <? List.length (n :: names))%nat = true)
      by reflexivity.
    rewrite Hpos. split; [reflexivity|].
    assert (Hmsg : forall a b : string, a ++ b ++ " 受影响" <> "").
    { intros a b. apply app_not_empty_r, app_not_empty_r. discriminate. }
    rewrite orString_own by apply Hmsg.
    split; [apply Hmsg|]. split.
    + unfold Js.slice0.
      destruct (3 <? List.length (n :: names))%nat eqn:Hmany.
      * now rewrite !string_app_assoc.
      * rewrite firstn_all2; [reflexivity|].
        apply Nat.ltb_ge in Hmany. exact Hmany.
    + assert (Hlen : (List.length (n :: names) =? 0)%nat = false)
        by reflexivity.
      rewrite Hlen, andb_false_r.
      destruct (_ || _ || _); [discriminate|].
      destruct (_ || _); discriminate.
Qed.

Lemma anthropic_summary_report_witness :
  official_status (OfficialAnthropic.parseAnthropicSummary calmSummary "")
  = official_operational
  /\ affectedComponents
       (OfficialAnthropic.parseAnthropicSummary calmSummary "")
     = None.
Proof.
  split; [reflexivity|].
  apply (proj2 (proj2 (proj2 (proj2 (anthropic_summary_report calmSummary
                                       ""))))).
  reflexivity.
Defined.

(* ------------------------------------------------------------------ *)
(** * The check of the official status page *)

Lemma parsed_summary_message (data : OfficialAnthropic.Summary)
    (checkedAt : string) :
  official_message (OfficialAnthropic.parseAnthropicSummary data checkedAt)
  <> ""
  /\ official_checkedAt
       (OfficialAnthropic.parseAnthropicSummary data checkedAt)
     = checkedAt.
Proof.
  unfold OfficialAnthropic.parseAnthropicSummary.
  cbn [official_message official_checkedAt].
  split; [|reflexivity]. apply orString_not_empty. discriminate.
Qed.

(** X18. The check of the official status page.  When the request is not
    answered within 15 s the result is [unknown] with the message
    "检查超时", and the failure is logged.  Every result carries the clock
    reading taken at the start and a non-empty message.  A status other
    than [unknown] is reported only from the parsed summary of a
    successful response that arrived in time, and without logging.  The
    check fails to return only when a successful response arrived in time
    and its body never ends: the body is read without a deadline. *)
Theorem anthropic_status_check (checkedAt : string)
    (fetched : Js.Pending AnthropicStatus.Response) :
  let outcome := AnthropicStatus.checkAnthropicStatus checkedAt fetched in
  ((forall t, Js.settlesAt fetched = Some t -> 15000 <= t) ->
   outcome = Some (AnthropicStatus.unknown "检查超时" checkedAt, true))
  /\ (forall r logged,
        outcome = Some (r, logged) ->
        official_checkedAt r = checkedAt
        /\ official_message r <> ""
        /\ (official_status r <> official_unknown ->
            logged = false
            /\ exists t response data,
                 Js.settlesAt fetched = Some t /\ t < 15000
                 /\ Js.settled fetched = inr response
                 /\ AnthropicStatus.ok response = true
                 /\ Js.settled (AnthropicStatus.json response)
                    = inr (Some data)
                 /\ r = OfficialAnthropic.parseAnthropicSummary data
                          checkedAt))
  /\ (outcome = None
      <-> exists t response,
            Js.settlesAt fetched = Some t /\ t < 15000
            /\ Js.settled fetched = inr response
            /\ AnthropicStatus.ok response = true
            /\ Js.settlesAt (AnthropicStatus.json response) = None).
Proof.
  cbn zeta. unfold AnthropicStatus.checkAnthropicStatus, Js.awaitWithin,
    AnthropicStatus.TIMEOUT_MS.
  assert (Hcaught : forall error r logged,
            AnthropicStatus.caught checkedAt error = (r, logged) ->
            official_checkedAt r = checkedAt
            /\ official_message r <> ""
            /\ official_status r = official_unknown).
  { intros error r logged. unfold AnthropicStatus.caught.
    destruct (String.eqb (Js.name error) "AbortError");
      intros [= <- <-]; cbn; repeat split; discriminate. }
  destruct fetched as [[t|] outcome]; cbn [Js.settlesAt Js.settled fst].
  - destruct (t <? 15000) eqn:Ht; cbn [fst].
    + apply Z.ltb_lt in Ht.
      split; [intros H; specialize (H t eq_refl); lia|].
      destruct outcome as [error|response].
      * split.
        -- intros r logged H.
           assert (H' : AnthropicStatus.caught checkedAt error
                        = (r, logged)) by congruence.
           destruct (Hcaught _ _ _ H') as (? & ? & Hu).
           split; [assumption|]. split; [assumption|].
                     intros Hk. congruence.
        -- split; [discriminate|]. intros (? & ? & _ & _ & ? & _).
           discriminate.
      * destruct (AnthropicStatus.ok response) eqn:Hok; cbn [negb].
        -- destruct (AnthropicStatus.json response) as [[tj|] body] eqn:Hj;
             cbn [Js.settlesAt Js.settled].
           ++ split.
              ** intros r logged.
                 destruct body as [error|[data|]].
                 --- intros H.
                     match type of H with
                     | Some (AnthropicStatus.caught _ ?e) = _ =>
                         assert (H' : AnthropicStatus.caught checkedAt e
                                      = (r, logged)) by congruence
                     end.
                     destruct (Hcaught _ _ _ H') as (? & ? & Hu).
                     split; [assumption|]. split; [assumption|].
                     intros Hk. congruence.
                 --- intros [= <- <-].
                     destruct (parsed_summary_message data checkedAt)
                       as [Hm Hc].
                     split; [exact Hc|]. split; [exact Hm|]. intros _.
                     split; [reflexivity|].
                     exists t, response, data. rewrite Hj. cbn.
                     repeat split; auto.
                 --- intros H.
                     match type of H with
                     | Some (AnthropicStatus.caught _ ?e) = _ =>
                         assert (H' : AnthropicStatus.caught checkedAt e
                                      = (r, logged)) by congruence
                     end.
                     destruct (Hcaught _ _ _ H') as (? & ? & Hu).
                     split; [assumption|]. split; [assumption|].
                     intros Hk. congruence.
              ** split.
                 --- destruct body as [error|[data|]]; discriminate.
                 --- intros (? & response' & _ & _ & [= <-] & _ & Hn).
                     rewrite Hj in Hn. discriminate.
           ++ split; [intros ? ? [=]|].
              split; [|reflexivity]. intros _.
              exists t, response. rewrite Hj. cbn. repeat split; auto.
        -- split.
           ++ intros r logged [= <- <-]. cbn.
              split; [reflexivity|]. split; [discriminate|]. congruence.
           ++ split; [discriminate|].
              intros (? & response' & _ & _ & [= <-] & Hok' & _).
              congruence.
    + apply Z.ltb_ge in Ht. split; [reflexivity|]. split.
      * intros r logged [= <- <-]. cbn.
        split; [reflexivity|]. split; [discriminate|]. congruence.
      * split; [discriminate|]. intros (t' & ? & [= <-] & Hlt & _). lia.
  - split; [reflexivity|]. split.
    + intros r logged [= <- <-]. cbn.
      split; [reflexivity|]. split; [discriminate|]. congruence.
    + split; [discriminate|]. intros (? & ? & [=] & _).
Qed.

(** The page answers after 300 ms with a summary without incident. *)
Lemma anthropic_status_check_witness :
  exists r,
    AnthropicStatus.checkAnthropicStatus "2025-01-01T00:00:00.000Z"
      (statusPageAnswers calmSummary)
    = Some (r, false)
    /\ official_status r = official_operational
    /\ official_checkedAt r = "2025-01-01T00:00:00.000Z"
    /\ AnthropicStatus.checkAnthropicStatus "2025-01-01T00:00:00.000Z"
         (Js.mkPending None (inl Js.fetchAbortError))
       = Some (AnthropicStatus.unknown "检查超时"
                 "2025-01-01T00:00:00.000Z", true).
Proof.
  eexists. split; [reflexivity|]. split; [reflexivity|]. split.
  - refine (proj1 (proj1 (proj2 (anthropic_status_check
                                   "2025-01-01T00:00:00.000Z"
                                   (statusPageAnswers calmSummary)))
                     _ false eq_refl)).
  - apply (proj1 (anthropic_status_check "2025-01-01T00:00:00.000Z"
                    (Js.mkPending None (inl Js.fetchAbortError)))).
    intros t Ht. discriminate.
Defined.

(* ------------------------------------------------------------------ *)
(** * The endpoint ping *)

Lemma tryPing_iff (request : Js.Pending unit) (n : Z) :
  EndpointPing.tryPing request = Some n
  <-> fulfilsBy EndpointPing.PING_TIMEOUT_MS request n tt.
Proof.
  unfold EndpointPing.tryPing, Js.awaitWithin, fulfilsBy.
  destruct request as [[t|] [error|[]]]; cbn [Js.settlesAt Js.settled].
  - destruct (t <? _); split; try discriminate; intros (_ & _ & H);
      discriminate.
  - destruct (t <? EndpointPing.PING_TIMEOUT_MS) eqn:Ht.
    + apply Z.ltb_lt in Ht. split.
      * intros [= <-]. auto.
      * intros ([= <-] & _ & _). reflexivity.
    + apply Z.ltb_ge in Ht. split; [discriminate|].
      intros ([= <-] & Hlt & _). lia.
  - split; [discriminate|]. intros ([=] & _).
  - split; [discriminate|]. intros ([=] & _).
Qed.

Lemma tryPing_none (request : Js.Pending unit) :
  EndpointPing.tryPing request = None
  <-> forall t, ~ fulfilsBy EndpointPing.PING_TIMEOUT_MS request t tt.
Proof.
  split.
  - intros Hnone t Ht. apply tryPing_iff in Ht. congruence.
  - intros Hnot. destruct (EndpointPing.tryPing request) as [n|] eqn:Hp;
      [|reflexivity].
    apply tryPing_iff in Hp. now destruct (Hnot n).
Qed.

(** X19. The endpoint ping.  Requests go only to the origin of the
    configured endpoint: none is sent when the endpoint is absent, empty
    or not a URL.  The first request is a [HEAD]; a [GET] follows only
    when the [HEAD] was not answered within 8 s, and nothing follows the
    [GET].  A measured latency is below 8000 ms and is the time in which
    the last request sent was answered; no latency is reported only when
    no request sent was answered within 8 s. *)
Theorem endpoint_ping (parseURL : string -> option (string * string))
    (transport : string -> EndpointPing.Method -> Js.Pending unit)
    (endpoint : option string) :
  let latency :=
    fst (EndpointPing.measureEndpointPing parseURL transport endpoint) in
  let requests :=
    snd (EndpointPing.measureEndpointPing parseURL transport endpoint) in
  (forall origin method,
     In (origin, method) requests ->
     exists e,
       endpoint = Some e /\ e <> ""
       /\ EndpointPing.resolvePingOrigin parseURL e = Some origin)
  /\ (endpoint = None \/ endpoint = Some ""
      \/ (exists e, endpoint = Some e /\ parseURL e = None) ->
      latency = None /\ requests = [])
  /\ (requests = []
      \/ (exists origin, requests = [(origin, EndpointPing.HEAD)])
      \/ (exists origin,
            requests = [(origin, EndpointPing.HEAD);
                        (origin, EndpointPing.GET)]
            /\ forall t,
                 ~ fulfilsBy 8000 (transport origin EndpointPing.HEAD) t tt))
  /\ (forall n,
        latency = Some n ->
        n < 8000
        /\ exists origin method,
             last requests (origin, method) = (origin, method)
             /\ In (origin, method) requests
             /\ fulfilsBy 8000 (transport origin method) n tt)
  /\ (latency = None ->
      forall origin method t,
        In (origin, method) requests ->
        ~ fulfilsBy 8000 (transport origin method) t tt).
Proof.
  cbn zeta. unfold EndpointPing.measureEndpointPing.
  assert (Hnil : forall (e0 : option string),
            (forall origin method,
               In (origin, method) (@nil (string * EndpointPing.Method)) ->
               exists e,
                 e0 = Some e /\ e <> ""
                 /\ EndpointPing.resolvePingOrigin parseURL e = Some origin)
            /\ (@nil (string * EndpointPing.Method) = []
                \/ (exists origin,
                      @nil (string * EndpointPing.Method)
                      = [(origin, EndpointPing.HEAD)])
                \/ (exists origin,
                      [] = [(origin, EndpointPing.HEAD);
                            (origin, EndpointPing.GET)]
                      /\ forall t,
                           ~ fulfilsBy 8000
                               (transport origin EndpointPing.HEAD) t tt))
            /\ (forall n : Z,
                  @None Z = Some n ->
                  n < 8000
                  /\ exists origin method,
                       last [] (origin, method) = (origin, method)
                       /\ In (origin, method) []
                       /\ fulfilsBy 8000 (transport origin method) n tt)
            /\ (@None Z = None ->
                forall origin method t,
                  In (origin, method) [] ->
                  ~ fulfilsBy 8000 (transport origin method) t tt)).
  { intros e0. split; [intros ? ? []|]. split; [now left|].
    split; [discriminate|]. intros _ ? ? ? []. }
  destruct endpoint as [e|]; cbn [fst snd].
  2:{ destruct (Hnil None) as (H1 & H3 & H4 & H5).
      split; [exact H1|]. split; [auto|]. auto. }
  destruct (String.eqb e "") eqn:He; cbn [fst snd].
  { destruct (Hnil (Some e)) as (H1 & H3 & H4 & H5).
    split; [exact H1|]. split; [auto|]. auto. }
  apply String.eqb_neq in He.
  destruct (EndpointPing.resolvePingOrigin parseURL e) as [origin|] eqn:Ho;
    cbn [fst snd].
  2:{ destruct (Hnil (Some e)) as (H1 & H3 & H4 & H5).
      split; [exact H1|]. split; [auto|]. auto. }
  assert (Hparsed : parseURL e <> None).
  { unfold EndpointPing.resolvePingOrigin in Ho.
    destruct (parseURL e); [discriminate|discriminate]. }
  assert (Hguard : Some e = None \/ Some e = Some ""
                   \/ (exists e', Some e = Some e' /\ parseURL e' = None) ->
                   False).
  { intros [H|[H|(e' & [= <-] & H)]]; congruence. }
  destruct (String.eqb origin "") eqn:Horigin; cbn [fst snd].
  { destruct (Hnil (Some e)) as (H1 & H3 & H4 & H5).
    split; [exact H1|]. split; [intros H; now destruct (Hguard H)|]. auto. }
  fold EndpointPing.PING_TIMEOUT_MS.
  change 8000 with EndpointPing.PING_TIMEOUT_MS.
  destruct (EndpointPing.tryPing (transport origin EndpointPing.HEAD))
    as [headLatency|] eqn:Hhead; cbn [fst snd].
  - apply tryPing_iff in Hhead.
    split; [|split; [|split; [|split]]].
    + intros o m [[= <- <-]|[]]. exists e. auto.
    + intros H. now destruct (Hguard H).
    + right. left. now exists origin.
    + intros n [= <-]. split; [apply Hhead|].
      exists origin, EndpointPing.HEAD. cbn. auto.
    + discriminate.
  - pose proof (proj1 (tryPing_none _) Hhead) as Hnone.
    split; [|split; [|split; [|split]]].
    + intros o m [[= <- <-]|[[= <- <-]|[]]]; exists e; auto.
    + intros H. now destruct (Hguard H).
    + right. right. exists origin. auto.
    + intros n Hn. apply tryPing_iff in Hn. split; [apply Hn|].
      exists origin, EndpointPing.GET. cbn. auto.
    + intros Hget o m t [[= <- <-]|[[= <- <-]|[]]].
      * apply Hnone.
      * apply (proj1 (tryPing_none _) Hget).
Qed.

(** A host that ignores [HEAD] requests and answers [GET] after 120 ms. *)
Lemma endpoint_ping_witness :
  EndpointPing.measureEndpointPing sampleParseURL getOnlyTransport
    (Some "https://api.example.test/v1/chat/completions")
  = (Some 120,
     [("https://api.example.test", EndpointPing.HEAD);
      ("https://api.example.test", EndpointPing.GET)])
  /\ 120 < 8000
  /\ EndpointPing.measureEndpointPing sampleParseURL getOnlyTransport
       (Some "not a url")
     = (None, []).
Proof.
  split; [reflexivity|].
  pose proof (endpoint_ping sampleParseURL getOnlyTransport
                (Some "https://api.example.test/v1/chat/completions"))
    as (_ & _ & _ & Hlat & _).
  split; [exact (proj1 (Hlat 120 eq_refl))|].
  pose proof (endpoint_ping sampleParseURL getOnlyTransport
                (Some "not a url")) as (_ & Hguard & _).
  destruct Hguard as [Hl Hr].
  { right. right. exists "not a url". split; reflexivity. }
  apply injective_projections; assumption.
Defined.

(* ------------------------------------------------------------------ *)
(** * The official-status poller *)

Lemma poller_fold_app (events : list OfficialPoller.Event)
    (e : OfficialPoller.Event) (s : OfficialPoller.State) :
  fold_left OfficialPoller.step (events ++ [e]) s
  = OfficialPoller.step (fold_left OfficialPoller.step events s) e.
Proof. now rewrite fold_left_app. Qed.

(** The recorded timer is the one interval that is set. *)
Lemma step_one_interval (s : OfficialPoller.State)
    (e : OfficialPoller.Event) :
  (OfficialPoller.intervals s
   = match OfficialPoller.timer s with Some t => [t] | None => [] end) ->
  let s' := OfficialPoller.step s e in
  OfficialPoller.intervals s'
  = match OfficialPoller.timer s' with Some t => [t] | None => [] end.
Proof.
  intros Hinv.
  assert (Hrun : forall s0,
            OfficialPoller.intervals (OfficialPoller.runOfficialStatusCheck s0)
            = OfficialPoller.intervals s0
            /\ OfficialPoller.timer (OfficialPoller.runOfficialStatusCheck s0)
               = OfficialPoller.timer s0).
  { intros s0. unfold OfficialPoller.runOfficialStatusCheck.
    destruct (OfficialPoller.polling s0); auto. }
  assert (Hstart :
            let s' := OfficialPoller.startOfficialStatusPoller s in
            OfficialPoller.intervals s'
            = match OfficialPoller.timer s' with
              | Some t => [t]
              | None => []
              end).
  { unfold OfficialPoller.startOfficialStatusPoller.
    destruct (OfficialPoller.timer s) as [t|] eqn:Ht.
    - cbn. now rewrite Ht.
    - cbn. destruct (Hrun s) as [-> _]. now rewrite Hinv. }
  destruct e as [| | |t|results]; cbn [OfficialPoller.step].
  - exact Hstart.
  - unfold OfficialPoller.stopOfficialStatusPoller.
    destruct (OfficialPoller.timer s) as [t|] eqn:Ht; cbn.
    + rewrite Hinv. cbn. now rewrite Nat.eqb_refl.
    + now rewrite Ht.
  - unfold OfficialPoller.ensureOfficialStatusPoller.
    destruct (OfficialPoller.timer s) as [t|] eqn:Ht; [|exact Hstart].
    cbn. now rewrite Ht.
  - destruct (existsb _ _); cbn; [|exact Hinv].
    destruct (Hrun s) as [-> ->]. exact Hinv.
  - unfold OfficialPoller.checkSettles.
    destruct (OfficialPoller.inflight s); cbn; exact Hinv.
Qed.

(** While the poller is not stopped, the flag tells whether a check is
    awaited, and a check starts only when none is. *)
Lemma step_no_overlap (s : OfficialPoller.State)
    (e : OfficialPoller.Event) :
  OfficialPoller.isStop e = false ->
  (OfficialPoller.inflight s
   = if OfficialPoller.polling s then 1%nat else 0%nat) ->
  let s' := OfficialPoller.step s e in
  OfficialPoller.inflight s'
  = (if OfficialPoller.polling s' then 1%nat else 0%nat)
  /\ (OfficialPoller.checksStarted s' + OfficialPoller.inflight s
      <= OfficialPoller.checksStarted s + OfficialPoller.inflight s'
         + (if OfficialPoller.isSettle e then 1 else 0))%nat
  /\ (OfficialPoller.checksStarted s <= OfficialPoller.checksStarted s')%nat.
Proof.
  intros Hstop Hinv.
  assert (Hrun :
            let s' := OfficialPoller.runOfficialStatusCheck s in
            OfficialPoller.inflight s'
            = (if OfficialPoller.polling s' then 1%nat else 0%nat)
            /\ (OfficialPoller.checksStarted s' + OfficialPoller.inflight s
                = OfficialPoller.checksStarted s
                  + OfficialPoller.inflight s')%nat
            /\ (OfficialPoller.checksStarted s
                <= OfficialPoller.checksStarted s')%nat).
  { unfold OfficialPoller.runOfficialStatusCheck.
    destruct (OfficialPoller.polling s) eqn:Hp; cbn.
    - rewrite Hp. auto.
    - rewrite Hinv. split; [reflexivity|]. lia. }
  assert (Hstart :
            let s' := OfficialPoller.startOfficialStatusPoller s in
            OfficialPoller.inflight s'
            = (if OfficialPoller.polling s' then 1%nat else 0%nat)
            /\ (OfficialPoller.checksStarted s' + OfficialPoller.inflight s
                = OfficialPoller.checksStarted s
                  + OfficialPoller.inflight s')%nat
            /\ (OfficialPoller.checksStarted s
                <= OfficialPoller.checksStarted s')%nat).
  { unfold OfficialPoller.startOfficialStatusPoller.
    destruct (OfficialPoller.timer s); cbn; [|exact Hrun].
    split; [exact Hinv|]. lia. }
  destruct e as [| | |t|results]; cbn [OfficialPoller.step
                                       OfficialPoller.isSettle];
    try discriminate.
  - destruct Hstart as (H1 & H2 & H3). split; [exact H1|]. cbn in *. lia.
  - unfold OfficialPoller.ensureOfficialStatusPoller.
    destruct (OfficialPoller.timer s).
    + cbn. split; [exact Hinv|]. lia.
    + destruct Hstart as (H1 & H2 & H3). split; [exact H1|]. cbn in *. lia.
  - destruct (existsb _ _).
    + destruct Hrun as (H1 & H2 & H3). split; [exact H1|]. cbn in *. lia.
    + cbn. split; [exact Hinv|]. lia.
  - unfold OfficialPoller.checkSettles.
    destruct (OfficialPoller.inflight s) as [|waiting] eqn:Hin; cbn.
    + rewrite Hin. split; [exact Hinv|]. lia.
    + destruct (OfficialPoller.polling s); [|discriminate].
      injection Hinv as ->. split; [reflexivity|]. lia.
Qed.

Lemma run_no_overlap (events : list OfficialPoller.Event) :
  forallb (fun e => negb (OfficialPoller.isStop e)) events = true ->
  let s := OfficialPoller.run events in
  OfficialPoller.inflight s
  = (if OfficialPoller.polling s then 1%nat else 0%nat)
  /\ (OfficialPoller.checksStarted s
      <= OfficialPoller.inflight s
         + List.length (filter OfficialPoller.isSettle events))%nat.
Proof.
  unfold OfficialPoller.run.
  induction events as [|e events IH] using rev_ind; [cbn; auto|].
  rewrite forallb_app. cbn [forallb]. rewrite andb_true_r.
  intros Hall. apply andb_true_iff in Hall. destruct Hall as [Hall He].
  apply negb_true_iff in He.
  destruct (IH Hall) as [Hinv Hcount]. cbn zeta.
  rewrite poller_fold_app, filter_app, length_app.
  destruct (step_no_overlap _ e He Hinv) as (H1 & H2 & _).
  cbn zeta in H1, H2. split; [exact H1|].
  cbn [filter]. destruct (OfficialPoller.isSettle e); cbn [List.length].
  - lia.
  - lia.
Qed.

(** X20. The official-status poller, after any sequence of calls of its
    exported functions, firings of its interval and settlings of its
    checks.  At most one interval is set, and it is the recorded timer:
    starting or ensuring a running poller sets no second one.  As long
    as the poller has not been stopped, checks never overlap: at most
    one check is awaited, the polling flag is raised exactly while one
    is, and every check but the awaited one has settled. *)
Theorem poller_single_timer_no_overlap
    (events : list OfficialPoller.Event) :
  let s := OfficialPoller.run events in
  OfficialPoller.intervals s
  = match OfficialPoller.timer s with Some t => [t] | None => [] end
  /\ (forallb (fun e => negb (OfficialPoller.isStop e)) events = true ->
      (OfficialPoller.inflight s <= 1)%nat
      /\ (OfficialPoller.polling s = true
          <-> OfficialPoller.inflight s = 1%nat)
      /\ (OfficialPoller.checksStarted s
          <= OfficialPoller.inflight s
             + List.length (filter OfficialPoller.isSettle events))%nat).
Proof.
  cbn zeta. split.
  - unfold OfficialPoller.run.
    induction events as [|e events IH] using rev_ind; [reflexivity|].
    rewrite poller_fold_app. now apply step_one_interval.
  - intros Hall. destruct (run_no_overlap events Hall) as [Hinv Hcount].
    cbn zeta in Hinv, Hcount. rewrite Hinv in *.
    destruct (OfficialPoller.polling (OfficialPoller.run events)).
    + split; [lia|]. split; [tauto|exact Hcount].
    + split; [lia|]. split; [|exact Hcount].
      split; [discriminate|lia].
Qed.

(** A poller that is started twice and ensured, with two firings of the
    interval during the first check. *)
Lemma poller_single_timer_no_overlap_witness :
  OfficialPoller.intervals
    (OfficialPoller.run
       [OfficialPoller.Start; OfficialPoller.Start; OfficialPoller.Ensure;
        OfficialPoller.Tick 0%nat; OfficialPoller.Tick 0%nat])
  = [0%nat]
  /\ (OfficialPoller.checksStarted
        (OfficialPoller.run
           [OfficialPoller.Start; OfficialPoller.Start;
            OfficialPoller.Ensure; OfficialPoller.Tick 0%nat;
            OfficialPoller.Tick 0%nat])
      <= 1)%nat.
Proof.
  split; [reflexivity|].
  destruct (proj2 (poller_single_timer_no_overlap
                     [OfficialPoller.Start; OfficialPoller.Start;
                      OfficialPoller.Ensure; OfficialPoller.Tick 0%nat;
                      OfficialPoller.Tick 0%nat]) eq_refl)
    as (Hle & _ & Hcount).
  cbn [filter OfficialPoller.isSettle List.length] in Hcount. lia.
Defined.

(* ------------------------------------------------------------------ *)
(** * The base URL of the vendor SDKs *)

Lemma string_length_app (a b : string) :
  String.length (a ++ b) = (String.length a + String.length b)%nat.
Proof.
  induction a as [|c a IH]; cbn; [reflexivity|]. now rewrite IH.
Qed.

Lemma beforeQuery_no_query (s : string) :
  hasChar "?" (BaseUrl.beforeQuery s) = false.
Proof.
  induction s as [|c s IH]; cbn; [reflexivity|].
  destruct (Ascii.eqb c "?") eqn:Hc; cbn; [reflexivity|].
  now rewrite Hc.
Qed.

Lemma beforeQuery_prefix (s : string) :
  exists rest, s = BaseUrl.beforeQuery s ++ rest.
Proof.
  induction s as [|c s [rest IH]]; cbn; [now exists ""|].
  destruct (Ascii.eqb c "?"); [now exists (String c s)|].
  exists rest. cbn. now rewrite <- IH.
Qed.

Lemma beforeQuery_app (x rest : string) :
  hasChar "?" x = false ->
  BaseUrl.beforeQuery (x ++ rest) = x ++ BaseUrl.beforeQuery rest.
Proof.
  induction x as [|c x IH]; cbn; [reflexivity|].
  destruct (Ascii.eqb c "?"); cbn; [discriminate|].
  intros H. now rewrite IH.
Qed.

Lemma dropMessagesPath_prefix (s : string) :
  exists rest, s = BaseUrl.dropMessagesPath s ++ rest.
Proof.
  induction s as [|c s [rest IH]]; [now exists ""|].
  cbn [BaseUrl.dropMessagesPath].
  destruct (_ || _); [now exists (String c s)|].
  exists rest. cbn. now rewrite <- IH.
Qed.

Lemma dropMessagesPath_path (base : string) (slash : bool) :
  BaseUrl.dropMessagesPath
    (base ++ "/v1/messages" ++ (if slash then "/" else ""))
  = base.
Proof.
  induction base as [|c base IH]; [now destruct slash|].
  cbn [append BaseUrl.dropMessagesPath].
  assert (Hlen : forall t : string,
            String c (base ++ "/v1/messages" ++ (if slash then "/" else ""))
            = t ->
            (13 <= String.length t)%nat
            /\ (slash = true \/ base <> "" -> 14 <= String.length t)%nat).
  { intros t <-. cbn [String.length]. rewrite !string_length_app.
    destruct slash; cbn [String.length]; split; try lia.
    intros [H|H]; [discriminate|]. destruct base; [congruence|].
    cbn [String.length]. lia. }
  destruct (String.eqb _ "/v1/messages/") eqn:H1.
  - apply String.eqb_eq in H1. exfalso.
    destruct (Hlen _ H1) as [_ Hl]. cbn in Hl.
    destruct slash; [specialize (Hl (or_introl eq_refl)); lia|].
    destruct base as [|d base]; [cbn in H1; discriminate|].
    assert (Hne : String d base <> "") by discriminate.
    specialize (Hl (or_intror Hne)). lia.
  - destruct (String.eqb _ "/v1/messages") eqn:H2.
    + apply String.eqb_eq in H2. destruct (Hlen _ H2) as [Hl _].
      cbn in Hl. lia.
    + cbn [orb]. f_equal. exact IH.
Qed.

Lemma dropMessagesPath_other (s : string) :
  (forall (p : string) (slash : bool),
     s <> p ++ "/v1/messages" ++ (if slash then "/" else "")) ->
  BaseUrl.dropMessagesPath s = s.
Proof.
  induction s as [|c s IH]; intros Hno; [reflexivity|].
  cbn [BaseUrl.dropMessagesPath].
  destruct (String.eqb (String c s) "/v1/messages/") eqn:H1.
  { apply String.eqb_eq in H1. now destruct (Hno "" true). }
  destruct (String.eqb (String c s) "/v1/messages") eqn:H2.
  { apply String.eqb_eq in H2. now destruct (Hno "" false). }
  cbn [orb]. rewrite IH; [reflexivity|].
  intros p slash ->. now apply (Hno (String c p) slash).
Qed.

Lemma hasChar_prefix (c : ascii) (p rest : string) :
  hasChar c (p ++ rest) = false -> hasChar c p = false.
Proof.
  rewrite hasChar_app. now intros [-> _]%orb_false_iff.
Qed.

(** X21. The base URL of the Anthropic client.  The endpoint of a
    deployment, that is its base, which holds no question mark, followed
    by the messages path with or without a closing slash and by a query
    or none, gives back that base.  Every endpoint gives its own
    beginning, without a question mark; and an endpoint whose text before
    the query does not end with the messages path gives that text
    unchanged. *)
Theorem anthropic_base_url_round_trip :
  (forall base slash query,
     hasChar "?" base = false ->
     BaseUrl.deriveAnthropicBaseURL
       (Some (messagesEndpoint base slash query))
     = base)
  /\ (forall endpoint,
        hasChar "?" (BaseUrl.deriveAnthropicBaseURL endpoint) = false
        /\ exists rest,
             Js.orElse endpoint (DEFAULT_ENDPOINTS anthropic)
             = BaseUrl.deriveAnthropicBaseURL endpoint ++ rest)
  /\ (forall endpoint,
        (forall (p : string) (slash : bool),
           BaseUrl.beforeQuery
             (Js.orElse endpoint (DEFAULT_ENDPOINTS anthropic))
           <> p ++ "/v1/messages" ++ (if slash then "/" else "")) ->
        BaseUrl.deriveAnthropicBaseURL endpoint
        = BaseUrl.beforeQuery
            (Js.orElse endpoint (DEFAULT_ENDPOINTS anthropic))).
Proof.
  split; [|split].
  - intros base slash query Hbase.
    unfold BaseUrl.deriveAnthropicBaseURL. cbn [Js.orElse].
    rewrite orString_own.
    2:{ unfold messagesEndpoint. apply app_not_empty_r. discriminate. }
    unfold messagesEndpoint.
    replace (base ++ "/v1/messages" ++ (if slash then "/" else "")
             ++ match query with Some q => String "?" q | None => "" end)
      with ((base ++ "/v1/messages" ++ (if slash then "/" else ""))
            ++ match query with Some q => String "?" q | None => "" end)
      by (now rewrite !string_app_assoc).
    rewrite beforeQuery_app.
    + replace (BaseUrl.beforeQuery
                 match query with Some q => String "?" q | None => "" end)
        with "" by (now destruct query).
      rewrite string_app_nil_r. apply dropMessagesPath_path.
    + rewrite !hasChar_app, Hbase. now destruct slash.
  - intros endpoint. unfold BaseUrl.deriveAnthropicBaseURL.
    set (raw := Js.orElse endpoint (DEFAULT_ENDPOINTS anthropic)).
    destruct (beforeQuery_prefix raw) as [r1 H1].
    destruct (dropMessagesPath_prefix (BaseUrl.beforeQuery raw))
      as [r2 H2].
    split.
    + apply (hasChar_prefix _ _ r2). rewrite <- H2.
      apply beforeQuery_no_query.
    + exists (r2 ++ r1). rewrite <- string_app_assoc, <- H2. exact H1.
  - intros endpoint Hother. unfold BaseUrl.deriveAnthropicBaseURL.
    now apply dropMessagesPath_other.
Qed.

Lemma anthropic_base_url_round_trip_witness :
  BaseUrl.deriveAnthropicBaseURL
    (Some "https://gateway.example.test/anthropic/v1/messages/?beta=true")
  = "https://gateway.example.test/anthropic".
Proof.
  apply (proj1 anthropic_base_url_round_trip
           "https://gateway.example.test/anthropic" true (Some "beta=true")).
  reflexivity.
Defined.

Lemma prefix_app (n x y : string) :
  String.prefix n x = true -> String.prefix n (x ++ y) = true.
Proof.
  rewrite !prefix_iff. intros [rest ->]. exists (rest ++ y).
  now rewrite string_app_assoc.
Qed.

Lemma includes_app_false (needle p rest : string) :
  Js.includes (p ++ rest) needle = false -> Js.includes p needle = false.
Proof.
  intros Hno. destruct (Js.includes p needle) eqn:Hp; [|reflexivity].
  apply includes_iff in Hp. destruct Hp as (before & after & ->).
  assert (Hyes : Js.includes ((before ++ needle ++ after) ++ rest) needle
                 = true).
  { apply includes_iff. exists before, (after ++ rest).
    now rewrite !string_app_assoc. }
  congruence.
Qed.

Lemma includes_longer_false (needle more s : string) :
  Js.includes s needle = false -> Js.includes s (needle ++ more) = false.
Proof.
  intros Hno. destruct (Js.includes s (needle ++ more)) eqn:Hp;
    [|reflexivity].
  apply includes_iff in Hp. destruct Hp as (before & after & ->).
  assert (Hyes : Js.includes (before ++ (needle ++ more) ++ after) needle
                 = true).
  { apply includes_iff. exists before, (more ++ after).
    now rewrite !string_app_assoc. }
  congruence.
Qed.

Lemma sliceTo_app (pre rest : string) :
  BaseUrl.sliceTo (String.length pre) (pre ++ rest) = pre.
Proof.
  unfold BaseUrl.sliceTo.
  induction pre as [|c pre IH]; cbn; [now destruct rest|]. now rewrite IH.
Qed.

(** [indexOf] finds the first occurrence: the text in front of it holds
    none. *)
Lemma indexOf_Some (s needle : string) (i : nat) :
  needle <> "" ->
  BaseUrl.indexOf s needle = Some i ->
  exists pre post,
    s = pre ++ needle ++ post
    /\ BaseUrl.sliceTo i s = pre
    /\ BaseUrl.sliceTo (i + String.length needle) s = pre ++ needle
    /\ Js.includes pre needle = false.
Proof.
  intros Hne. revert i. induction s as [|c s IH]; intros i;
    cbn [BaseUrl.indexOf].
  - destruct (String.prefix needle "") eqn:Hp; [|discriminate].
    destruct needle; [congruence|discriminate].
  - destruct (String.prefix needle (String c s)) eqn:Hp.
    + intros [= <-]. apply prefix_iff in Hp. destruct Hp as [post Hp].
      exists "", post. rewrite Hp. cbn [append plus].
      split; [reflexivity|]. split; [now destruct needle|].
      split; [|destruct needle; [congruence|reflexivity]].
      apply sliceTo_app.
    + destruct (BaseUrl.indexOf s needle) as [j|] eqn:Hj; [|discriminate].
      intros [= <-]. destruct (IH j eq_refl) as (pre & post & Hs & H1 & H2 & H3).
      exists (String c pre), post. rewrite Hs at 1. cbn [append].
      split; [reflexivity|].
      unfold BaseUrl.sliceTo in *. cbn [String.substring plus].
      split; [now rewrite H1|]. split; [now rewrite H2|].
      cbn [Js.includes]. rewrite H3, orb_false_r.
      destruct (String.prefix needle (String c pre)) eqn:Hpre;
        [|reflexivity].
      apply (prefix_app _ _ (needle ++ post)) in Hpre.
      cbn [append] in Hpre. rewrite <- Hs in Hpre. congruence.
Qed.

Lemma indexOf_None (s needle : string) :
  BaseUrl.indexOf s needle = None -> Js.includes s needle = false.
Proof.
  induction s as [|c s IH]; cbn [BaseUrl.indexOf Js.includes].
  - destruct (String.prefix needle ""); [discriminate|reflexivity].
  - destruct (String.prefix needle (String c s)); [discriminate|].
    destruct (BaseUrl.indexOf s needle); [discriminate|].
    intros _. now rewrite IH.
Qed.

Lemma dropTrailingSlash_prefix (s : string) :
  exists rest, s = BaseUrl.dropTrailingSlash s ++ rest.
Proof.
  induction s as [|c s [rest IH]]; [now exists ""|].
  cbn [BaseUrl.dropTrailingSlash].
  destruct (String.eqb (String c s) "/"); [now exists (String c s)|].
  exists rest. cbn. now rewrite <- IH.
Qed.

(** The text cut at the first occurrence of a path holds neither a
    question mark, when the whole text holds none, nor the path. *)
Lemma cut_at_path (w path : string) :
  path <> "" ->
  let base :=
    match BaseUrl.indexOf w path with
    | Some i => BaseUrl.sliceTo i w
    | None => w
    end in
  (exists rest, w = base ++ rest) /\ Js.includes base path = false.
Proof.
  intros Hne. cbn zeta.
  destruct (BaseUrl.indexOf w path) as [i|] eqn:Hi.
  - destruct (indexOf_Some _ _ _ Hne Hi) as (pre & post & Hw & H1 & _ & H3).
    rewrite H1. split; [now exists (path ++ post)|exact H3].
  - split; [exists ""; now rewrite string_app_nil_r|].
    now apply indexOf_None.
Qed.

(** A path that does not end like ["/v1"] cannot begin in [x] and end in
    a ["/v1"] put behind it. *)
Ltac walk_prefix x :=
  destruct x as [|? x]; cbn [append String.prefix];
  [ vm_compute; intros H; discriminate H
  | destruct (ascii_dec _ _); [|intros H; discriminate H] ].

Lemma prefix_chat_v1 (x : string) :
  String.prefix "/chat/completions" (x ++ "/v1") = true ->
  String.prefix "/chat/completions" x = true.
Proof.
  do 17 (walk_prefix x). intros _. now destruct x.
Qed.

Lemma prefix_messages_v1 (x : string) :
  String.prefix "/v1/messages" (x ++ "/v1") = true ->
  String.prefix "/v1/messages" x = true.
Proof.
  do 12 (walk_prefix x). intros _. now destruct x.
Qed.

Lemma includes_app_v1 (needle d : string) :
  (forall x, String.prefix needle (x ++ "/v1") = true ->
             String.prefix needle x = true) ->
  Js.includes "/v1" needle = false ->
  Js.includes d needle = false ->
  Js.includes (d ++ "/v1") needle = false.
Proof.
  intros Hstep Hbase. induction d as [|c d IH]; intros Hno; [exact Hbase|].
  cbn [Js.includes] in Hno. apply orb_false_iff in Hno.
  destruct Hno as [Hhere Hlater].
  change (String c d ++ "/v1") with (String c (d ++ "/v1")).
  cbn [Js.includes]. rewrite (IH Hlater), orb_false_r.
  destruct (String.prefix needle (String c (d ++ "/v1"))) eqn:Hp;
    [|reflexivity].
  apply (Hstep (String c d)) in Hp. congruence.
Qed.

Lemma ends_with_v1_includes (p : string) : Js.includes (p ++ "/v1") "/v1" = true.
Proof. apply includes_iff. now exists p, "". Qed.

(** X22. The base URL of the OpenAI client and of the earlier Anthropic
    client, whatever the configured endpoint.  Neither holds a question
    mark nor the path of the API call (["/chat/completions"],
    ["/v1/messages"]), which the SDK appends itself.  The OpenAI base URL
    ends with its only ["/v1"] whenever it holds one or names the host
    [api.openai.com]; the earlier Anthropic base URL holds a ["/v1"]
    whenever it names the host [api.anthropic.com]. *)
Theorem sdk_base_url_shape (endpoint : option string) :
  (let b := BaseUrl.deriveOpenAIBaseURL endpoint in
   hasChar "?" b = false
   /\ Js.includes b "/chat/completions" = false
   /\ (Js.includes b "/v1" = true \/ Js.includes b "api.openai.com" = true ->
       exists p, b = p ++ "/v1" /\ Js.includes p "/v1" = false))
  /\ (let b := BaseUrl.deriveAnthropicBaseURLEarlier endpoint in
      hasChar "?" b = false
      /\ Js.includes b "/v1/messages" = false
      /\ (Js.includes b "api.anthropic.com" = true ->
          Js.includes b "/v1" = true)).
Proof.
  split; cbn zeta.
  - unfold BaseUrl.deriveOpenAIBaseURL.
    pose proof (beforeQuery_no_query
                  (Js.orElse endpoint (DEFAULT_ENDPOINTS openai))) as Hw.
    set (w := BaseUrl.beforeQuery _) in *.
    destruct (cut_at_path w "/chat/completions") as [[rest Hcut] Hchat];
      [discriminate|].
    set (base := match BaseUrl.indexOf w "/chat/completions" with
                 | Some i => BaseUrl.sliceTo i w
                 | None => w
                 end) in *.
    assert (Hq : hasChar "?" base = false).
    { apply (hasChar_prefix _ _ rest). now rewrite <- Hcut. }
    clearbody base. clear Hcut.
    destruct (BaseUrl.indexOf base "/v1") as [v1Index|] eqn:Hv1.
    + destruct (indexOf_Some base "/v1" v1Index) as
        (pre & post & Hbase & _ & Hslice & Hpre);
        [discriminate|exact Hv1|].
      rewrite Hslice. rewrite Hbase in Hq, Hchat.
      rewrite <- string_app_assoc in Hq, Hchat.
      split; [now apply hasChar_prefix in Hq|].
      split; [now apply includes_app_false in Hchat|].
      intros _. now exists pre.
    + apply indexOf_None in Hv1.
      destruct (dropTrailingSlash_prefix base) as [r Hd].
      set (d := BaseUrl.dropTrailingSlash base) in *.
      rewrite Hd in Hq, Hchat, Hv1.
      destruct (Js.includes base "api.openai.com") eqn:Hhost.
      * split; [|split].
        -- rewrite hasChar_app. apply hasChar_prefix in Hq. now rewrite Hq.
        -- apply includes_app_v1;
             [exact prefix_chat_v1|reflexivity|].
           now apply includes_app_false in Hchat.
        -- intros _. exists d. split; [reflexivity|].
           now apply includes_app_false in Hv1.
      * rewrite <- Hd in Hq, Hchat, Hv1.
        split; [exact Hq|]. split; [exact Hchat|].
        intros [H|H]; congruence.
  - unfold BaseUrl.deriveAnthropicBaseURLEarlier.
    pose proof (beforeQuery_no_query
                  (Js.orElse endpoint (DEFAULT_ENDPOINTS anthropic))) as Hw.
    set (w := BaseUrl.beforeQuery _) in *.
    destruct (cut_at_path w "/v1/messages") as [[rest Hcut] Hpath];
      [discriminate|].
    set (base := match BaseUrl.indexOf w "/v1/messages" with
                 | Some i => BaseUrl.sliceTo i w
                 | None => w
                 end) in *.
    assert (Hq : hasChar "?" base = false).
    { apply (hasChar_prefix _ _ rest). now rewrite <- Hcut. }
    clearbody base. clear Hcut.
    destruct (Js.includes base "api.anthropic.com") eqn:Hhost;
      cbn [andb].
    + destruct (Js.includes base "/v1") eqn:Hv1; cbn [negb].
      * split; [exact Hq|]. split; [exact Hpath|]. now intros _.
      * destruct (dropTrailingSlash_prefix base) as [r Hd].
        set (d := BaseUrl.dropTrailingSlash base) in *.
        rewrite Hd in Hq, Hv1.
        split; [|split].
        -- rewrite hasChar_app. apply hasChar_prefix in Hq. now rewrite Hq.
        -- apply includes_app_v1;
             [exact prefix_messages_v1|reflexivity|].
           apply includes_app_false in Hv1.
           exact (includes_longer_false "/v1" "/messages" d Hv1).
        -- intros _. apply ends_with_v1_includes.
    + split; [exact Hq|]. split; [exact Hpath|]. congruence.
Qed.

Lemma sdk_base_url_shape_witness :
  BaseUrl.deriveOpenAIBaseURL
    (Some "https://gateway.example.test/openai/v1/chat/completions?key=1")
  = "https://gateway.example.test/openai/v1"
  /\ exists p,
       BaseUrl.deriveOpenAIBaseURL (Some "https://api.openai.com/")
       = p ++ "/v1"
       /\ Js.includes p "/v1" = false.
Proof.
  split; [reflexivity|].
  apply (proj2 (proj2 (proj1 (sdk_base_url_shape
                                (Some "https://api.openai.com/"))))).
  right. reflexivity.
Defined.

(* ------------------------------------------------------------------ *)
(** * The cache of SDK clients *)

(** A cache key splits in one way only when the API keys hold no
    colon. *)
Lemma cacheKey_injective (b1 k1 b2 k2 : string) :
  hasChar ":" k1 = false -> hasChar ":" k2 = false ->
  b1 ++ "::" ++ k1 = b2 ++ "::" ++ k2 -> b1 = b2 /\ k1 = k2.
Proof.
  intros H1 H2. revert b2.
  assert (Hcolon : forall b k,
            hasChar ":" (b ++ "::" ++ k) = true).
  { intros b k. rewrite hasChar_app. cbn. now rewrite orb_true_r. }
  induction b1 as [|c b1 IH]; intros [|d b2]; cbn [append].
  - intros [= ->]. auto.
  - intros [= <- H]. destruct b2 as [|e b2]; cbn [append] in H.
    + injection H as ->. cbn in H1. discriminate.
    + injection H as <- ->.
      change (String ":" (String ":" k2)) with ("::" ++ k2) in H1.
      rewrite Hcolon in H1. discriminate.
  - intros [= -> H]. destruct b1 as [|e b1]; cbn [append] in H.
    + injection H as <-. cbn in H2. discriminate.
    + injection H as -> <-.
      change (String ":" (String ":" k1)) with ("::" ++ k1) in H2.
      rewrite Hcolon in H2. discriminate.
  - intros [= <- H]. destruct (IH _ H) as [-> ->]. auto.
Qed.

Section ClientFacts.
Variable derive : option string -> string.
(** What is known of the API keys of the configs. *)
Variable Q : string -> Prop.

Let keyOf := ClientCache.cacheKeyOf derive.

Let wellKeyed (s : ClientCache.Clients) : Prop :=
  NoDup (map fst (ClientCache.cache s))
  /\ ClientCache.constructed s = List.length (ClientCache.cache s)
  /\ forall k c,
       In (k, c) (ClientCache.cache s) ->
       k = ClientCache.client_baseURL c ++ "::"
           ++ ClientCache.client_apiKey c
       /\ Q (ClientCache.client_apiKey c).

Lemma getClient_step (config : ProviderConfig) (s : ClientCache.Clients) :
  wellKeyed s -> Q (cfg_apiKey config) ->
  let c := fst (ClientCache.getClient derive config s) in
  let s1 := snd (ClientCache.getClient derive config s) in
  wellKeyed s1
  /\ History.get (ClientCache.cache s1) (keyOf config) = Some c
  /\ (forall k c',
        History.get (ClientCache.cache s) k = Some c' ->
        History.get (ClientCache.cache s1) k = Some c')
  /\ (forall k,
        In k (map fst (ClientCache.cache s1))
        <-> In k (map fst (ClientCache.cache s)) \/ k = keyOf config).
Proof.
  intros (Hnd & Hlen & Hkeys) Hq. cbn zeta. unfold wellKeyed.
  unfold ClientCache.getClient. fold (ClientCache.cacheKeyOf derive config).
  fold keyOf.
  destruct (History.get (ClientCache.cache s) (keyOf config)) as [cached|]
    eqn:Hget; cbn [fst snd].
  - split; [now split|]. split; [exact Hget|]. split; [auto|].
    intros k. split; [auto|]. intros [H| ->]; [exact H|].
    apply get_Some_In in Hget.
    apply in_map_iff. now exists (keyOf config, cached).
  - cbn [ClientCache.cache ClientCache.constructed].
    rewrite set_absent by exact Hget.
    pose proof (proj1 (get_None_keys _ _) Hget) as Hfresh.
    split; [split; [|split]|split; [|split]].
    + rewrite map_app. cbn. apply NoDup_app; [exact Hnd| |].
      * repeat constructor. intros [].
      * intros x Hx [<-|[]]. now apply Hfresh.
    + rewrite length_app. cbn. lia.
    + intros k c [Hin|[[= <- <-]|[]]]%in_app_or; [now apply Hkeys|].
      cbn. split; [reflexivity|exact Hq].
    + now apply get_app_absent.
    + intros k c' Hk. apply get_Some_In in Hk.
      apply get_In_NoDup.
      * rewrite map_app. cbn. apply NoDup_app; [exact Hnd| |].
        -- repeat constructor. intros [].
        -- intros x Hx [<-|[]]. now apply Hfresh.
      * apply in_or_app. now left.
    + intros k. rewrite map_app, in_app_iff. cbn. split.
      * intros [H|[<-|[]]]; auto.
      * intros [H| ->]; auto.
Qed.

Lemma getClients_run (configs : list ProviderConfig)
    (s : ClientCache.Clients) :
  wellKeyed s -> Forall (fun config => Q (cfg_apiKey config)) configs ->
  let clients := fst (ClientCache.getClients derive configs s) in
  let s' := snd (ClientCache.getClients derive configs s) in
  wellKeyed s'
  /\ List.length clients = List.length configs
  /\ (forall config c,
        In (config, c) (combine configs clients) ->
        History.get (ClientCache.cache s') (keyOf config) = Some c)
  /\ (forall k c',
        History.get (ClientCache.cache s) k = Some c' ->
        History.get (ClientCache.cache s') k = Some c')
  /\ (forall k,
        In k (map fst (ClientCache.cache s'))
        <-> In k (map fst (ClientCache.cache s))
            \/ exists config, In config configs /\ keyOf config = k).
Proof.
  revert s. induction configs as [|config configs IH]; intros s Hs Hall.
  - cbn. split; [exact Hs|]. split; [reflexivity|].
    split; [intros ? ? []|]. split; [auto|].
    intros k. split; [auto|]. intros [H|(? & [] & _)]. exact H.
  - inversion Hall as [|? ? Hq Hall']; subst.
    cbn [ClientCache.getClients].
    destruct (getClient_step config s Hs Hq) as (Hs1 & Hown & Hkeep & Hk1).
    destruct (ClientCache.getClient derive config s) as [c s1].
    cbn [fst snd] in Hs1, Hown, Hkeep, Hk1.
    destruct (IH s1 Hs1 Hall') as (Hs2 & Hlen & Hgot & Hkeep2 & Hk2).
    destruct (ClientCache.getClients derive configs s1) as [clients s2].
    cbn [fst snd] in *.
    split; [exact Hs2|]. split; [cbn; now rewrite Hlen|].
    split; [|split].
    + intros config' c' [[= <- <-]|Hin]; [now apply Hkeep2|].
      now apply Hgot.
    + intros k c' Hk. now apply Hkeep2, Hkeep.
    + intros k. rewrite Hk2, Hk1. split.
      * intros [[H| ->]|(config' & Hin & <-)].
        -- now left.
        -- right. exists config. split; [now left|reflexivity].
        -- right. exists config'. split; [now right|reflexivity].
      * intros [H|(config' & [<-|Hin] & <-)].
        -- left. now left.
        -- left. now right.
        -- right. now exists config'.
Qed.
End ClientFacts.

(** X23. The cache of SDK clients, for any sequence of calls on a fresh
    cache and either derivation of the base URL.  Calls whose configs
    give the same cache key are handed the same client; one client is
    constructed for every key that occurs and none besides; and when no
    API key holds a colon, so that a key splits in one way only, every
    call is handed a client that was constructed with the base URL and
    the API key of its own config. *)
Theorem sdk_clients_are_shared (derive : option string -> string)
    (configs : list ProviderConfig) :
  let clients :=
    fst (ClientCache.getClients derive configs ClientCache.noClients) in
  let s :=
    snd (ClientCache.getClients derive configs ClientCache.noClients) in
  List.length clients = List.length configs
  /\ (forall a ca b cb,
        In (a, ca) (combine configs clients) ->
        In (b, cb) (combine configs clients) ->
        ClientCache.cacheKeyOf derive a = ClientCache.cacheKeyOf derive b ->
        ca = cb)
  /\ NoDup (map fst (ClientCache.cache s))
  /\ ClientCache.constructed s = List.length (ClientCache.cache s)
  /\ (forall k,
        In k (map fst (ClientCache.cache s))
        <-> exists config,
              In config configs /\ ClientCache.cacheKeyOf derive config = k)
  /\ ((forall config,
         In config configs -> hasChar ":" (cfg_apiKey config) = false) ->
      forall a ca,
        In (a, ca) (combine configs clients) ->
        ClientCache.client_baseURL ca = derive (cfg_endpoint a)
        /\ ClientCache.client_apiKey ca = cfg_apiKey a).
Proof.
  cbn zeta.
  assert (Hempty : forall Q : string -> Prop,
            NoDup (map fst (ClientCache.cache ClientCache.noClients))
            /\ ClientCache.constructed ClientCache.noClients
               = List.length (ClientCache.cache ClientCache.noClients)
            /\ forall k c,
                 In (k, c) (ClientCache.cache ClientCache.noClients) ->
                 k = ClientCache.client_baseURL c ++ "::"
                     ++ ClientCache.client_apiKey c
                 /\ Q (ClientCache.client_apiKey c)).
  { intros Q. cbn. split; [constructor|]. split; [reflexivity|].
    intros ? ? []. }
  destruct (getClients_run derive (fun _ => True) configs
              ClientCache.noClients (Hempty _))
    as ((Hnd & Hcount & _) & Hlen & Hgot & _ & Hkeys).
  { apply Forall_forall. auto. }
  split; [exact Hlen|]. split; [|split; [exact Hnd|split; [exact Hcount|]]].
  - intros a ca b cb Ha Hb Hsame.
    apply Hgot in Ha. apply Hgot in Hb. rewrite Hsame in Ha. congruence.
  - split.
    + intros k. rewrite Hkeys. cbn. split; [|auto].
      intros [[]|H]. exact H.
    + intros Hcolon a ca Hin.
      destruct (getClients_run derive
                  (fun key => hasChar ":" key = false) configs
                  ClientCache.noClients (Hempty _))
        as ((_ & _ & Hentries) & _ & Hgot' & _).
      { apply Forall_forall. exact Hcolon. }
      pose proof (in_combine_l _ _ _ _ Hin) as Ha.
      apply Hgot', get_Some_In, Hentries in Hin.
      destruct Hin as [Hkey Hq]. unfold ClientCache.cacheKeyOf in Hkey.
      apply cacheKey_injective in Hkey; [|now apply Hcolon|exact Hq].
      destruct Hkey as [-> ->]. auto.
Qed.

Lemma sdk_clients_are_shared_witness :
  let calls := [sampleConfig; gatewayConfig; sampleConfig] in
  map ClientCache.serial
    (fst (ClientCache.getClients BaseUrl.deriveOpenAIBaseURL calls
            ClientCache.noClients))
  = [0%nat; 1%nat; 0%nat]
  /\ forall a ca,
       In (a, ca)
         (combine calls
            (fst (ClientCache.getClients BaseUrl.deriveOpenAIBaseURL calls
                    ClientCache.noClients))) ->
       ClientCache.client_baseURL ca
       = BaseUrl.deriveOpenAIBaseURL (cfg_endpoint a)
       /\ ClientCache.client_apiKey ca = cfg_apiKey a.
Proof.
  cbn zeta. split; [reflexivity|].
  apply (proj2 (proj2 (proj2 (proj2 (proj2
           (sdk_clients_are_shared BaseUrl.deriveOpenAIBaseURL
              [sampleConfig; gatewayConfig; sampleConfig])))))).
  intros config [<-|[<-|[<-|[]]]]; reflexivity.
Defined.

(* ------------------------------------------------------------------ *)
(** * The bar of a timeline *)

Lemma segments_of_none (start n : nat) :
  map (fun index => nth_error (@nil CheckResult) index) (seq start n)
  = repeat None n.
Proof.
  revert start. induction n as [|n IH]; intros start; [reflexivity|].
  cbn [seq map repeat]. rewrite IH. now destruct start.
Qed.

Lemma segments_upto (n : nat) (items : list CheckResult) :
  map (fun index => nth_error items index) (seq 0 n)
  = (map Some (firstn n items)
     ++ repeat None (n - List.length items))%list.
Proof.
  revert n. induction items as [|x items IH]; intros n.
  - rewrite firstn_nil, Nat.sub_0_r. apply segments_of_none.
  - destruct n as [|n]; [reflexivity|].
    cbn [seq map nth_error firstn List.length Nat.sub app].
    rewrite <- seq_shift, map_map. cbn [nth_error]. now rewrite IH.
Qed.

(** X24. What the bar of a timeline shows, for the timelines built from
    the snapshot of any row set and any maintenance configs.  The notice
    of a model under maintenance is drawn exactly for the timelines
    synthesized for the maintenance configs.  Every other timeline gets
    a bar of 60 segments that holds all its items, in their order,
    followed by placeholders only: nothing that the snapshot keeps is
    left out of the bar. *)
Theorem timeline_bar_shows_all_items (getTime : string -> option Z)
    (localeCompare : string -> string -> Z)
    (getOfficialStatus : ProviderType -> option OfficialStatusResult)
    (clock : nat -> string) (rows : list History.RpcHistoryRow)
    (maintenanceConfigs : list ProviderConfig)
    (nextRefreshInMs : option Z) (t : ProviderTimeline) :
  In t (SnapshotService.buildProviderTimelines getTime localeCompare
          getOfficialStatus clock
          (History.mapRowsToSnapshot getTime (Some rows))
          maintenanceConfigs) ->
  match StatusTimeline.StatusTimeline (items t) nextRefreshInMs with
  | StatusTimeline.MaintenanceNotice =>
      exists i config,
        nth_error maintenanceConfigs i = Some config
        /\ t = SnapshotService.createMaintenanceTimeline getOfficialStatus
                 clock i config
  | StatusTimeline.Bar segments _ =>
      List.length segments = 60%nat
      /\ (List.length (items t) <= 60)%nat
      /\ segments
         = (map Some (items t)
            ++ repeat None (60 - List.length (items t)))%list
      /\ exists ring,
           In (tl_id t, ring)
             (History.mapRowsToSnapshot getTime (Some rows))
           /\ Permutation (items t) ring
  end.
Proof.
  intros Hin. unfold SnapshotService.buildProviderTimelines in Hin.
  apply sort_In, in_app_or in Hin. destruct Hin as [Hin|Hin].
  - apply keepSome_In, in_map_iff in Hin.
    destruct Hin as ([c ring] & Ht & Hin).
    pose proof (historyTimeline_cases getTime getOfficialStatus c ring)
      as Hcases.
    destruct ring as [|r ring]; [congruence|].
    destruct Hcases as (first & rest & Hsort & Ht').
    rewrite Ht' in Ht. injection Ht as <-. cbn [items tl_id].
    assert (Hlen : (List.length (first :: rest) <= 60)%nat).
    { rewrite <- Hsort, sort_length.
      apply mapRowsToSnapshot_entries in Hin.
      destruct Hin as (l0 & _ & ->). apply firstn_le_length. }
    unfold StatusTimeline.StatusTimeline. cbn [List.length Nat.eqb].
    split; [|split; [exact Hlen|split]].
    + unfold StatusTimeline.segments.
      now rewrite length_map, length_seq.
    + unfold StatusTimeline.segments, StatusTimeline.SEGMENT_LIMIT.
      rewrite segments_upto. now rewrite firstn_all2 by exact Hlen.
    + exists (r :: ring). split; [exact Hin|].
      rewrite <- Hsort. apply sort_perm.
  - apply mapIndexed_In in Hin. destruct Hin as (i & config & Hnth & ->).
    cbn. now exists i, config.
Qed.

(** One stored ring of two results and one maintenance config. *)
Lemma timeline_bar_shows_all_items_witness :
  exists t segments label,
    In t (SnapshotService.buildProviderTimelines IsoDate.getTime
            GroupData.defaultCompare noOfficialStatus fixedClock
            (History.mapRowsToSnapshot IsoDate.getTime (Some orderedRows))
            [maintenanceConfig])
    /\ StatusTimeline.StatusTimeline (items t) (Some 42000)
       = StatusTimeline.Bar segments label
    /\ List.length segments = 60%nat
    /\ label = Some "42秒".
Proof.
  assert (Hsome : exists t,
            In t (SnapshotService.buildProviderTimelines IsoDate.getTime
                    GroupData.defaultCompare noOfficialStatus fixedClock
                    (History.mapRowsToSnapshot IsoDate.getTime
                       (Some orderedRows))
                    [maintenanceConfig])
            /\ (List.length (items t) =? 0)%nat = false).
  { vm_compute. eexists. split; [left; reflexivity|reflexivity]. }
  destruct Hsome as (t & Hin & Hne).
  pose proof (timeline_bar_shows_all_items IsoDate.getTime
                GroupData.defaultCompare noOfficialStatus fixedClock
                orderedRows [maintenanceConfig] (Some 42000) t Hin) as Hbar.
  unfold StatusTimeline.StatusTimeline in *. rewrite Hne in *.
  exists t, (StatusTimeline.segments (items t)),
    (Some (StatusTimeline.formatRemainingTime 42000)).
  split; [exact Hin|].
  split; [unfold StatusTimeline.StatusTimeline; now rewrite Hne|].
  split; [exact (proj1 Hbar)|reflexivity].
Defined.

(* ------------------------------------------------------------------ *)
(** * The refresh of the views *)

(** X25. The refresh of the dashboard views, after any sequence of calls
    of [refresh] and settled requests.  Requests never overlap: at most
    one is awaited, the lock is held and the refresh indicator shown
    exactly while one is, and a new request is sent only after the
    previous one has settled.  The data shown are the initial data or
    the data of a successful response: a failed refresh leaves the data
    as they were. *)
Theorem view_refresh_never_overlaps (Data : Type) (initialData : Data)
    (events : list (ViewRefresh.Event Data)) :
  let s := ViewRefresh.run initialData events in
  (ViewRefresh.awaited s <= 1)%nat
  /\ ViewRefresh.isRefreshing s = ViewRefresh.lock s
  /\ (ViewRefresh.lock s = true <-> ViewRefresh.awaited s = 1%nat)
  /\ (ViewRefresh.requests s
      <= ViewRefresh.awaited s
         + List.length (filter ViewRefresh.isSettle events))%nat
  /\ (ViewRefresh.data s = initialData
      \/ In (ViewRefresh.data s) (ViewRefresh.delivered events))
  /\ (forall e,
        ViewRefresh.data (ViewRefresh.step s e) = ViewRefresh.data s
        \/ exists next,
             e = ViewRefresh.Settle (Some next)
             /\ ViewRefresh.data (ViewRefresh.step s e) = next).
Proof.
  cbn zeta. unfold ViewRefresh.run.
  assert (Hinv :
    let s := fold_left ViewRefresh.step events
               (ViewRefresh.mounted initialData) in
    ViewRefresh.awaited s = (if ViewRefresh.lock s then 1%nat else 0%nat)
    /\ ViewRefresh.isRefreshing s = ViewRefresh.lock s
    /\ (ViewRefresh.requests s
        <= ViewRefresh.awaited s
           + List.length (filter ViewRefresh.isSettle events))%nat
    /\ (ViewRefresh.data s = initialData
        \/ In (ViewRefresh.data s) (ViewRefresh.delivered events))).
  { induction events as [|e events IH] using rev_ind.
    - cbn. auto.
    - cbn zeta in *. rewrite fold_left_app. cbn [fold_left].
      set (s := fold_left ViewRefresh.step events
                  (ViewRefresh.mounted initialData)) in *.
      destruct IH as (Hawait & Hshown & Hcount & Hdata).
      unfold ViewRefresh.delivered in *.
      rewrite filter_app, length_app, flat_map_app.
      destruct e as [|outcome]; cbn [ViewRefresh.step filter flat_map
                                     ViewRefresh.isSettle List.length].
      + unfold ViewRefresh.refresh.
        rewrite app_nil_r.
        destruct (ViewRefresh.lock s) eqn:Hlock; cbn.
        * rewrite Hlock.
          split; [exact Hawait|]. split; [exact Hshown|].
          split; [lia|exact Hdata].
        * split; [now rewrite Hawait|]. split; [reflexivity|].
          split; [lia|exact Hdata].
      + unfold ViewRefresh.settle.
        destruct (ViewRefresh.awaited s) as [|waiting] eqn:Haw; cbn.
        * rewrite Haw. rewrite <- Hawait.
          split; [reflexivity|]. split; [assumption|]. split; [lia|].
          destruct Hdata as [H|H]; [now left|].
          right. apply in_or_app. now left.
        * destruct (ViewRefresh.lock s); [|discriminate].
          injection Hawait as ->.
          split; [reflexivity|]. split; [reflexivity|]. split; [lia|].
          destruct outcome as [next|].
          -- right. apply in_or_app. right. now left.
          -- destruct Hdata as [H|H]; [now left|].
             right. apply in_or_app. now left. }
  cbn zeta in Hinv. destruct Hinv as (Hawait & Hshown & Hcount & Hdata).
  set (s := fold_left ViewRefresh.step events
              (ViewRefresh.mounted initialData)) in *.
  split; [rewrite Hawait; destruct (ViewRefresh.lock s); lia|].
  split; [exact Hshown|].
  split; [rewrite Hawait; destruct (ViewRefresh.lock s);
          split; auto; discriminate|].
  split; [exact Hcount|]. split; [exact Hdata|].
  intros [|[next|]]; cbn [ViewRefresh.step].
  - left. unfold ViewRefresh.refresh.
    now destruct (ViewRefresh.lock s).
  - unfold ViewRefresh.settle.
    destruct (ViewRefresh.awaited s); [now left|].
    right. now exists next.
  - left. unfold ViewRefresh.settle.
    now destruct (ViewRefresh.awaited s).
Qed.

(* ------------------------------------------------------------------ *)
(** * Refresh modes *)

Lemma app_one_neq {A : Type} (l : list A) (x : A) : (l ++ [x])%list <> l.
Proof.
  intros H. apply (f_equal (@List.length A)) in H.
  rewrite length_app in H. cbn in H. lia.
Qed.

(** X26. When loading a snapshot starts probes.  A batch is handed to
    the probes only in mode [always], or in mode [missing] when the
    stored history is empty, and only for a scope with allowed ids and
    active configs whose cache holds no pending refresh; the batch is
    the active configs of the scope and the caller is handed the promise
    it installed.  In every other case the cache is left as it was.  A
    value handed out at once is the empty history, the stored history
    or the cached one. *)
Theorem snapshot_load_starts_probes (scope : SnapshotService.SnapshotScope)
    (refreshMode : RefreshMode) (stored : HistorySnapshot) (now : Z)
    (w : SnapshotService.World) :
  let r :=
    fst (SnapshotService.loadSnapshotForScope scope refreshMode stored now
           w) in
  let w' :=
    snd (SnapshotService.loadSnapshotForScope scope refreshMode stored now
           w) in
  (SnapshotService.probeBatches w' <> SnapshotService.probeBatches w ->
   refreshMode <> never
   /\ (refreshMode = missing -> stored = [])
   /\ SnapshotService.allowedIds scope <> []
   /\ SnapshotService.activeConfigs scope <> []
   /\ SnapshotService.inflight (SnapshotService.cacheEntry w) = None
   /\ SnapshotService.probeBatches w'
      = (SnapshotService.probeBatches w
         ++ [SnapshotService.activeConfigs scope])%list
   /\ r = SnapshotService.Installed (SnapshotService.nextPromise w))
  /\ (SnapshotService.probeBatches w' = SnapshotService.probeBatches w ->
      w' = w)
  /\ (forall h,
        r = SnapshotService.Value h ->
        h = [] \/ h = stored
        \/ SnapshotService.history (SnapshotService.cacheEntry w) = Some h).
Proof.
  cbn zeta.
  assert (Hrefresh :
    let r := fst (SnapshotService.refreshHistory scope now w) in
    let w' := snd (SnapshotService.refreshHistory scope now w) in
    (SnapshotService.probeBatches w' <> SnapshotService.probeBatches w ->
     SnapshotService.activeConfigs scope <> []
     /\ SnapshotService.inflight (SnapshotService.cacheEntry w) = None
     /\ SnapshotService.probeBatches w'
        = (SnapshotService.probeBatches w
           ++ [SnapshotService.activeConfigs scope])%list
     /\ r = SnapshotService.Installed (SnapshotService.nextPromise w))
    /\ (SnapshotService.probeBatches w' = SnapshotService.probeBatches w ->
        w' = w)
    /\ (forall h,
          r = SnapshotService.Value h ->
          h = []
          \/ SnapshotService.history (SnapshotService.cacheEntry w)
             = Some h)).
  { cbn zeta. unfold SnapshotService.refreshHistory.
    destruct (SnapshotService.activeConfigs scope) as [|config configs]
      eqn:Hactive; cbn [List.length Nat.eqb fst snd].
    { split; [congruence|]. split; [reflexivity|].
      intros h [= <-]. now left. }
    destruct (now - _ <? _).
    - destruct (SnapshotService.history (SnapshotService.cacheEntry w))
        as [cached|] eqn:Hcached; cbn [fst snd].
      + split; [congruence|]. split; [reflexivity|].
        intros h [= <-]. now right.
      + destruct (SnapshotService.inflight (SnapshotService.cacheEntry w))
          eqn:Hinflight; cbn [fst snd SnapshotService.probeBatches].
        * split; [congruence|]. split; [reflexivity|]. discriminate.
        * split; [intros _; repeat split; discriminate|].
          split; [|discriminate].
          intros H. now apply app_one_neq in H.
    - destruct (SnapshotService.inflight (SnapshotService.cacheEntry w))
        eqn:Hinflight; cbn [fst snd SnapshotService.probeBatches].
      + split; [congruence|]. split; [reflexivity|]. discriminate.
      + split; [intros _; repeat split; discriminate|].
        split; [|discriminate].
        intros H. now apply app_one_neq in H. }
  cbn zeta in Hrefresh. destruct Hrefresh as (Hstart & Hkeep & Hvalue).
  unfold SnapshotService.loadSnapshotForScope.
  destruct (SnapshotService.allowedIds scope) as [|i ids] eqn:Hids;
    cbn [List.length Nat.eqb fst snd].
  { split; [congruence|]. split; [reflexivity|].
    intros h [= <-]. now left. }
  destruct refreshMode.
  - split; [|split].
    + intros H. destruct (Hstart H) as (? & ? & ? & ?).
      repeat split; try assumption; discriminate.
    + exact Hkeep.
    + intros h Hh. destruct (Hvalue h Hh); auto.
  - destruct (SnapshotService.activeConfigs scope) as [|config configs]
      eqn:Hactive; cbn [List.length Nat.ltb Nat.leb andb fst snd].
    { split; [congruence|]. split; [reflexivity|].
      intros h [= <-]. auto. }
    destruct stored as [|entry stored]; cbn [List.length Nat.eqb fst snd].
    + split; [|split].
      * intros H. destruct (Hstart H) as (? & ? & ? & ?).
        repeat split; try assumption; discriminate.
      * exact Hkeep.
      * intros h Hh. destruct (Hvalue h Hh); auto.
    + split; [congruence|]. split; [reflexivity|].
      intros h [= <-]. auto.
  - cbn [fst snd]. split; [congruence|]. split; [reflexivity|].
    intros h [= <-]. auto.
Qed.

(** A cold cache in mode [missing]: probes start when nothing is stored
    and do not when something is. *)
Lemma snapshot_load_starts_probes_witness :
  SnapshotService.probeBatches
    (snd (SnapshotService.loadSnapshotForScope sampleScope missing []
            100000 coldWorld))
  = [[sampleConfig]]
  /\ snd (SnapshotService.loadSnapshotForScope sampleScope missing
            sampleHistory 100000 coldWorld)
     = coldWorld.
Proof.
  split.
  - destruct (proj1 (snapshot_load_starts_probes sampleScope missing []
                       100000 coldWorld))
      as (_ & _ & _ & _ & _ & Hbatch & _); [discriminate|].
    exact Hbatch.
  - apply (proj1 (proj2 (snapshot_load_starts_probes sampleScope missing
                           sampleHistory 100000 coldWorld))).
    reflexivity.
Defined.

(* ------------------------------------------------------------------ *)
(** * The scopes of the pages *)

Lemma active_scope (page rest : string) (interval : Z)
    (configs : list ProviderConfig) :
  let activeConfigs :=
    filter (fun cfg => negb (is_maintenance cfg)) configs in
  pageScope page interval (fun config => In config configs)
    (SnapshotService.mkScope (page ++ rest) interval activeConfigs
       (GroupData.newSet [] (map cfg_id activeConfigs))).
Proof.
  cbn zeta. unfold pageScope.
  cbn [SnapshotService.cacheKey SnapshotService.pollIntervalMs
       SnapshotService.activeConfigs SnapshotService.allowedIds].
  split; [apply prefix_iff; now exists rest|]. split; [reflexivity|].
  split; [|split].
  - intros config. rewrite filter_In, negb_true_iff. tauto.
  - apply newSet_NoDup.
  - intros i. rewrite newSet_In, in_map_iff. cbn. split.
    + intros [(config & Hid & Hin) _]. now exists config.
    + intros (config & Hin & Hid). split; [now exists config|tauto].
Qed.

(** X27. The pages ask for a snapshot of the configs that are not in
    maintenance, and of nothing else: the dashboard data and the group
    data depend on the snapshot loader only through a scope whose cache
    key starts with the name of the page, whose active configs are
    exactly the configs (of the group) that are not in maintenance and
    whose allowed ids are their ids, each once.  A config in maintenance
    is never handed to the probes by a page. *)
Theorem pages_never_probe_maintenance (pollIntervalMs : Z)
    (pollIntervalLabel : string) (getTime : string -> option Z)
    (localeCompare : string -> string -> Z)
    (getOfficialStatus : ProviderType -> option OfficialStatusResult)
    (clock : nat -> string) (dateNow : Z)
    (allConfigs : list ProviderConfig) (options : option RefreshMode)
    (loadSnapshot loadSnapshot' :
       SnapshotService.SnapshotScope -> RefreshMode -> HistorySnapshot) :
  ((forall scope refreshMode,
      pageScope "dashboard:" pollIntervalMs
        (fun config => In config allConfigs) scope ->
      loadSnapshot scope refreshMode = loadSnapshot' scope refreshMode) ->
   Dashboard.loadDashboardData localeCompare pollIntervalMs
     pollIntervalLabel getTime getOfficialStatus clock loadSnapshot dateNow
     allConfigs options
   = Dashboard.loadDashboardData localeCompare pollIntervalMs
       pollIntervalLabel getTime getOfficialStatus clock loadSnapshot'
       dateNow allConfigs options)
  /\ (forall target,
        (forall scope refreshMode,
           pageScope "group:" pollIntervalMs
             (fun config =>
                In config allConfigs /\ matchesGroup target config)
             scope ->
           loadSnapshot scope refreshMode
           = loadSnapshot' scope refreshMode) ->
        GroupData.loadGroupDashboardData pollIntervalMs pollIntervalLabel
          getTime localeCompare getOfficialStatus clock loadSnapshot dateNow
          allConfigs target options
        = GroupData.loadGroupDashboardData pollIntervalMs pollIntervalLabel
            getTime localeCompare getOfficialStatus clock loadSnapshot'
            dateNow allConfigs target options).
Proof.
  split.
  - intros Hsame. unfold Dashboard.loadDashboardData.
    rewrite Hsame; [reflexivity|].
    apply (active_scope "dashboard:").
  - intros target Hsame. unfold GroupData.loadGroupDashboardData.
    destruct (List.length _ =? 0)%nat; [reflexivity|].
    rewrite Hsame; [reflexivity|].
    epose proof (active_scope "group:" _ pollIntervalMs
                   (filter (GroupData.inGroup target) allConfigs))
      as Hscope.
    cbn zeta in Hscope. unfold pageScope in *.
    destruct Hscope as (H1 & H2 & H3 & H4 & H5).
    split; [exact H1|]. split; [exact H2|]. split; [|split; assumption].
    intros config. rewrite H3, filter_In, inGroup_matches. tauto.
Qed.

(** A dashboard of one active config and one config in maintenance. *)
Lemma pages_never_probe_maintenance_witness :
  Dashboard.loadDashboardData GroupData.defaultCompare 60000 "60 秒"
    IsoDate.getTime noOfficialStatus fixedClock storedSnapshot 0
    [sampleConfig; maintenanceConfig] None
  = Dashboard.loadDashboardData GroupData.defaultCompare 60000 "60 秒"
      IsoDate.getTime noOfficialStatus fixedClock guardedSnapshot 0
      [sampleConfig; maintenanceConfig] None.
Proof.
  apply (proj1 (pages_never_probe_maintenance 60000 "60 秒" IsoDate.getTime
                  GroupData.defaultCompare noOfficialStatus fixedClock 0
                  [sampleConfig; maintenanceConfig] None storedSnapshot
                  guardedSnapshot)).
  intros scope refreshMode (_ & _ & Hactive & _).
  unfold guardedSnapshot, storedSnapshot.
  destruct (existsb is_maintenance (SnapshotService.activeConfigs scope))
    eqn:He; [|reflexivity].
  apply existsb_exists in He. destruct He as (config & Hin & Hm).
  apply Hactive in Hin. destruct Hin as [_ Hno]. congruence.
Defined.
